(** * WebScrapingProject: the concurrent crawl pipeline

    A shallow embedding of the scraper's orchestration code
    ([scr/orchestration/orchestrator.py], [scr/orchestration/workers.py]) and
    of its three collaborators ([scr/implementation/web_scraper.py],
    [product_extractor.py], [database.py]), followed by the properties of the
    specification that were checked against it.

    Conventions.  Python [int] is [Z]; [str] is [string], one character per
    code point, for texts whose code points are below 256 (Latin-1); a [dict]
    is an association list in insertion order; [None]-or-value is [option];
    a call that may raise returns [result].  Threads are interleaved one
    atomic step at a time by a schedule of [label]s, and every step appends
    exactly one [event] to the history of the run. *)

From Stdlib Require Import ZArith String Ascii Lia Bool.
From stdpp Require Import list strings gmap.

Local Open Scope Z_scope.

(** ** Python values *)

(** Exceptions, by the classes the [except] clauses of the program tell
    apart.  All of them are instances of Python's [Exception]. *)
Inductive exn : Type :=
| QueueEmpty                    (* queue.Empty *)
| ValueError                    (* e.g. task_done() called too many times *)
| KeyError (key : string)
| TypeError
| RequestException (what : string)   (* requests.exceptions.RequestException and subclasses *)
| XMLSyntaxError                (* lxml.etree.XMLSyntaxError *)
| DatabaseError (what : string) (* psycopg2.Error and subclasses *)
| OtherException (what : string).

Inductive result (A : Type) : Type :=
| Ok (a : A)
| Raise (e : exn).
Arguments Ok {A} a.
Arguments Raise {A} e.

Definition is_queue_empty (e : exn) : bool :=
  match e with QueueEmpty => true | _ => false end.

(** A [dict] with [str] keys: insertion-ordered, a later assignment to an
    existing key replaces the value and keeps the key's position. *)
Definition pydict (V : Type) : Type := list (string * V).

Fixpoint dict_get {V} (k : string) (d : pydict V) : option V :=
  match d with
  | [] => None
  | (k', v) :: d' => if String.eqb k k' then Some v else dict_get k d'
  end.

Fixpoint dict_set {V} (k : string) (v : V) (d : pydict V) : pydict V :=
  match d with
  | [] => [(k, v)]
  | (k', v') :: d' =>
      if String.eqb k k' then (k', v) :: d' else (k', v') :: dict_set k v d'
  end.

Definition dict_keys {V} (d : pydict V) : list string := fst <$> d.
Definition dict_values {V} (d : pydict V) : list V := snd <$> d.

(** [l[:k]] for a Python [int] [k]: a negative [k] counts from the end. *)
Definition slice_to {A} (k : Z) (l : list A) : list A :=
  if k <? 0 then take (Z.to_nat (Z.of_nat (length l) + k)) l
  else take (Z.to_nat k) l.

(** *** [str] methods used by the program *)

(** The characters [str.strip()] removes, that is those of [str.isspace],
    among the code points below 256: 9-13, 28-31, 32, 133 (NEL) and 160
    (no-break space). *)
Definition is_space (c : ascii) : bool :=
  let n := nat_of_ascii c in
  ((9 <=? n) && (n <=? 13) || (28 <=? n) && (n <=? 32)
   || (n =? 133) || (n =? 160))%nat.

Fixpoint lstrip (s : string) : string :=
  match s with
  | String c s' => if is_space c then lstrip s' else s
  | EmptyString => EmptyString
  end.

Fixpoint string_rev (s : string) : string :=
  match s with
  | EmptyString => EmptyString
  | String c s' => String.append (string_rev s') (String c EmptyString)
  end.

Definition rstrip (s : string) : string := string_rev (lstrip (string_rev s)).

(** [s.strip()] *)
Definition strip (s : string) : string := rstrip (lstrip s).

(** [str.lower] on one code point below 256: A-Z and the accented capitals
    192-222 (but not the multiplication sign, 215) move up by 32. *)
Definition lower_char (c : ascii) : ascii :=
  let n := nat_of_ascii c in
  if ((65 <=? n) && (n <=? 90)
      || (192 <=? n) && (n <=? 222) && negb (n =? 215))%nat
  then ascii_of_nat (n + 32) else c.

(** [s.lower()] *)
Fixpoint lower (s : string) : string :=
  match s with
  | EmptyString => EmptyString
  | String c s' => String (lower_char c) (lower s')
  end.

(** [s.startswith(p)] *)
Definition startswith (p s : string) : bool := String.prefix p s.

(** [p in s] for two strings: [p] occurs as a substring of [s]. *)
Fixpoint str_contains (p s : string) : bool :=
  String.prefix p s ||
  match s with
  | EmptyString => false
  | String _ s' => str_contains p s'
  end.

(** [s.split('/')[-1]]: what follows the last slash. *)
Fixpoint last_segment_from (acc s : string) : string :=
  match s with
  | EmptyString => acc
  | String c s' =>
      if Ascii.eqb c "/"%char then last_segment_from s' s'
      else last_segment_from acc s'
  end.
Definition last_segment (s : string) : string := last_segment_from s s.

(** ** Link discovery data: the ProductRef

    The orchestrator builds these as dict literals with exactly the keys
    ['name_on_listing'], ['url'] and ['category_on_listing']. *)
Record ProductInfo : Type := mkProductInfo {
  name_on_listing : string;
  url : string;
  category_on_listing : string
}.

Global Instance ProductInfo_eq_dec : EqDecision ProductInfo.
Proof. solve_decision. Defined.

(** [{p['url']: p for p in all_products_from_categories}] *)
Definition dict_by_url (ps : list ProductInfo) : pydict ProductInfo :=
  foldl (fun d p => dict_set (url p) p d) [] ps.

(** [unique_products_to_process], orchestrator.py line 156 *)
Definition unique_products_to_process (ps : list ProductInfo) : list ProductInfo :=
  dict_values (dict_by_url ps).

(** The products handed to [product_url_queue.put], lines 158-165. *)
Definition products_to_queue (test_mode : bool) (test_product_limit : Z)
    (ps : list ProductInfo) : list ProductInfo :=
  if test_mode then slice_to test_product_limit (unique_products_to_process ps)
  else unique_products_to_process ps.

(** Reference notions used to state the deduplication properties. *)

(** The distinct strings of a list, each at its first occurrence. *)
Fixpoint first_occurrences (seen l : list string) : list string :=
  match l with
  | [] => []
  | x :: l' =>
      if bool_decide (x ∈ seen) then first_occurrences seen l'
      else x :: first_occurrences (x :: seen) l'
  end.

(** The last ProductRef of the sequence that carries url [u]. *)
Definition last_with_url (u : string) (ps : list ProductInfo) : option ProductInfo :=
  List.find (fun p => String.eqb u (url p)) (reverse ps).

(** ** Parsed pages

    An lxml element, seen through the methods the program calls on it.
    The XPath expressions are fixed by the source, so a query is one of
    finitely many names. *)
Inductive xpath_query : Type :=
| category_buttons_xpath       (* orchestrator.py 75: //button[@class='_button_3ftu4_1 ... _departmentPill_sticr_199'] *)
| button_anchor_xpath          (* orchestrator.py 81: .//a[@href] *)
| product_links_xpath          (* orchestrator.py 98: //a[@href and contains(@class,'rt-Link') and @data-discover='true'][@href[starts-with(., '/marketplace/')]] *)
| listing_name_xpath           (* orchestrator.py 110: .//span[@class='rt-Text rt-r-size-2 rt-truncate'] *)
| product_name_detail_xpath    (* product_extractor.py 47: //h1[@class='rt-Heading rt-r-size-5']/text() *)
| description_xpath            (* product_extractor.py 54: //div[contains(@class, 'rt-Box _read-more-box__content_122o3_1')] *)
| median_price_xpath           (* product_extractor.py 68: //div[contains(@class,'rt-r-ai-end')]/span[@class='v-fw-700 v-fs-24']/text() *)
| price_range_container_xpath  (* product_extractor.py 76: //div[contains(@class,'rt-Grid') and contains(@class,'rt-r-gtc') and contains(@class,'_rangeSlider')] *)
| low_price_xpath_relative     (* product_extractor.py 80: ./span[1]/text() *)
| high_price_xpath_relative    (* product_extractor.py 87: ./span[2]/text() *)
| category_detail_xpath.       (* product_extractor.py 96: //nav[contains(@aria-label,'breadcrumb')]//a[contains(@href,'/categories/')]/text() *)

#[warnings="-register-all"] Inductive HtmlElement : Type := mkHtmlElement {
  xpath_elements : xpath_query -> list HtmlElement; (* xpath(q), q selects elements *)
  xpath_text : xpath_query -> list string;          (* xpath(q), q ends in /text() *)
  text_content : string;                            (* text_content() *)
  get_attr : string -> option string                (* get(name) *)
}.

(** ** ProductExtractor.extract_product_details (product_extractor.py 23-103) *)

Definition is_description (text : string) : bool :=
  (20 <? String.length text)%nat
  && negb (startswith "what is" (lower text))
  && negb (startswith "how it works" (lower text)).

Definition extract_product_details (product_tree : HtmlElement)
    (listing_product_name listing_category : string) : pydict string :=
  let product_details :=
    [ ("product_name", listing_product_name);
      ("category", listing_category);
      ("price_median", "Not specified");
      ("price_low", "Not specified");
      ("price_high", "Not specified");
      ("description", "No detailed description found.") ] in
  (* product name *)
  let product_details :=
    match xpath_text product_tree product_name_detail_xpath with
    | t :: _ => dict_set "product_name" (strip t) product_details
    | [] => product_details
    end in
  (* description *)
  let extracted_descriptions :=
    List.filter is_description
      ((fun elem => strip (text_content elem)) <$>
         xpath_elements product_tree description_xpath) in
  let product_details :=
    match extracted_descriptions with
    | _ :: _ =>
        dict_set "description"
          (String.concat (String "010"%char EmptyString) extracted_descriptions)
          product_details
    | [] => product_details
    end in
  (* median price *)
  let product_details :=
    match xpath_text product_tree median_price_xpath with
    | t :: _ => dict_set "price_median" (strip t) product_details
    | [] => product_details
    end in
  (* price range *)
  let product_details :=
    match xpath_elements product_tree price_range_container_xpath with
    | container :: _ =>
        let product_details :=
          match xpath_text container low_price_xpath_relative with
          | t :: _ => dict_set "price_low" (strip t) product_details
          | [] => product_details
          end in
        match xpath_text container high_price_xpath_relative with
        | t :: _ => dict_set "price_high" (strip t) product_details
        | [] => product_details
        end
    | [] => product_details
    end in
  (* category from the breadcrumbs *)
  match xpath_text product_tree category_detail_xpath with
  | t :: _ => dict_set "category" (strip t) product_details
  | [] => product_details
  end.

(** ** WebScraper.fetch_page (web_scraper.py 34-69) *)

Record Response : Type := mkResponse {
  status_code : Z;
  content : string
}.

(** What the outside does for one scraper: [session.get] (which raises the
    [RequestException] family on connection errors, timeouts and malformed
    urls) and [html.fromstring]. *)
Record Net : Type := mkNet {
  session_get : string -> result Response;
  html_fromstring : string -> result HtmlElement
}.

(** [response.raise_for_status()]: HTTPError, a RequestException, on 4xx/5xx. *)
Definition raise_for_status (r : Response) : result unit :=
  if (400 <=? status_code r) && (status_code r <? 600)
  then Raise (RequestException "HTTPError") else Ok tt.

(** What one call of [fetch_page] does to the outside, in order. *)
Inductive io : Type :=
| IoSleep (seconds : Z)                      (* time.sleep *)
| IoGet (full_url : string) (timeout : Z)    (* session.get(full_url, headers, timeout) *)
| IoLogSuccess
| IoLogNetworkError                          (* except RequestException *)
| IoLogParseError                            (* except XMLSyntaxError *)
| IoLogUnexpected.                           (* except Exception *)

Definition request_timeout : Z := 10.

(** The url the request is issued to (line 51), the first statement of the
    [try] block.  [requests.compat.urljoin] raises ValueError on a reference
    it cannot parse, and [url.startswith] is an AttributeError when [url] is
    None. *)
Definition full_url_of (urljoin : string -> string -> result string)
    (base_url : string) (url : option string) : result string :=
  match url with
  | None => Raise (OtherException "AttributeError")
  | Some url => if startswith "/" url then urljoin base_url url else Ok url
  end.

(** The rest of the [try] block, lines 53-60. *)
Definition fetch_page_try (net : Net) (full_url : string) : result HtmlElement :=
  match session_get net full_url with
  | Raise e => Raise e
  | Ok response =>
      match raise_for_status response with
      | Raise e => Raise e
      | Ok _ => html_fromstring net (content response)
      end
  end.

(** Every except clause builds its message from [full_url].  When line 51
    itself raised, that name was never bound: evaluating the message raises
    UnboundLocalError, which leaves [fetch_page] before anything is logged
    or requested. *)
Definition fetch_page (urljoin : string -> string -> result string) (net : Net)
    (base_url : string) (url : option string) (sleep_time : Z)
  : list io * result (option HtmlElement) :=
  let slept := if 0 <? sleep_time then [IoSleep sleep_time] else [] in
  match full_url_of urljoin base_url url with
  | Raise _ => (slept, Raise (OtherException "UnboundLocalError"))
  | Ok full_url =>
      let request := IoGet full_url request_timeout in
      match fetch_page_try net full_url with
      | Ok tree => (slept ++ [request; IoLogSuccess], Ok (Some tree))
      | Raise (RequestException _) => (slept ++ [request; IoLogNetworkError], Ok None)
      | Raise XMLSyntaxError => (slept ++ [request; IoLogParseError], Ok None)
      | Raise _ => (slept ++ [request; IoLogUnexpected], Ok None)
      end
  end.

(** [urljoin] on the one shape the examples need: a base without a path and
    a reference that is a plain path.  The program itself takes [urljoin]
    as given. *)
Definition urljoin_simple (base ref : string) : string :=
  if startswith "/" ref then String.append base ref
  else String.append base (String.append "/" ref).

(** The same as the function [fetch_page] calls: on these shapes it does
    not raise. *)
Definition example_urljoin (base ref : string) : result string :=
  Ok (urljoin_simple base ref).

(** ** queue.Queue

    The FIFO of pending items together with [unfinished_tasks], the counter
    behind [task_done] and [join].  Both queues of the orchestrator are
    created with [queue.Queue()], without a size bound, so [put] never
    blocks. *)
Record Queue (A : Type) : Type := mkQueue {
  items : list A;
  unfinished_tasks : nat
}.
Arguments mkQueue {A} items unfinished_tasks.
Arguments items {A} q.
Arguments unfinished_tasks {A} q.

Definition empty_queue {A} : Queue A := mkQueue [] 0%nat.

Definition put {A} (x : A) (q : Queue A) : Queue A :=
  mkQueue (items q ++ [x]) (S (unfinished_tasks q)).

(** [get(timeout=t)]: the head if there is one; with nothing to take the
    caller waits and, when the timeout elapses, gets [queue.Empty]. *)
Definition get {A} (q : Queue A) : option (A * Queue A) :=
  match items q with
  | x :: rest => Some (x, mkQueue rest (unfinished_tasks q))
  | [] => None
  end.

(** [task_done()]: ValueError when called more often than items were put. *)
Definition task_done {A} (q : Queue A) : result (Queue A) :=
  match unfinished_tasks q with
  | O => Raise ValueError
  | S n => Ok (mkQueue (items q) n)
  end.

(** [join()] returns once the counter is zero. *)
Definition join_ready {A} (q : Queue A) : bool :=
  bool_decide (unfinished_tasks q = 0%nat).

(** ** Configuration (config.py) and injected collaborators *)
Record Config : Type := mkConfig {
  SCRAPER_BASE_URL : string;
  SCRAPER_NEEDED_CATEGORIES : list string;
  SCRAPER_TEST_MODE : bool;
  TEST_PRODUCT_LIMIT : Z;
  SLEEP_BETWEEN_CATEGORY_PAGES : Z;
  SLEEP_BETWEEN_PRODUCT_PAGES : Z;
  SCRAPER_THREAD_COUNT : Z
}.

(** Everything the pipeline calls but does not define: the abstract
    scraper and extractor handed to the orchestrator, [urljoin], and the
    database server behind psycopg2.  A collaborator call may raise. *)
Record World : Type := mkWorld {
  urljoin : string -> string -> string;
  scraper_fetch_page : string -> Z -> result (option HtmlElement);
  extractor_extract_product_details :
    HtmlElement -> string -> string -> result (pydict string);
  pg_connect : nat -> result unit;       (* the n-th psycopg2.connect of the run *)
  pg_create_table : result unit;         (* cur.execute of the DDL *)
  pg_execute : pydict string -> result unit  (* cur.execute of one upsert *)
}.

(** ** DatabaseManager (database.py) *)

(** The products table: rows keyed by their unique url. *)
Definition table : Type := pydict (pydict string).

(** [self.conn] with its cursor: an open transaction and the rows as that
    transaction sees them.  A statement that fails puts the transaction in
    PostgreSQL's aborted state: until it is ended every further statement is
    refused (InFailedSqlTransaction), and ending it, by commit or by
    rollback, discards what it did. *)
Record Connection : Type := mkConnection {
  tx_rows : table;
  tx_aborted : bool
}.

Record Database : Type := mkDatabase {
  server_rows : table;            (* committed rows on the server *)
  conn : option Connection;       (* self.conn / self.cur *)
  connects : nat                  (* psycopg2.connect calls so far *)
}.

(** [INSERT ... ON CONFLICT (url) DO UPDATE SET c = v] for every column
    [c] of the record other than url. *)
Definition upsert (product_data : pydict string) (t : table) : table :=
  match dict_get "url" product_data with
  | None => t
  | Some u =>
      match dict_get u t with
      | None => dict_set u product_data t
      | Some row =>
          dict_set u
            (foldl (fun row kv =>
                      if String.eqb (fst kv) "url" then row
                      else dict_set (fst kv) (snd kv) row)
                   row product_data)
            t
      end
  end.

(** [_connect], lines 32-56. *)
Definition _connect (W : World) (d : Database) : result Database :=
  match conn d with
  | Some _ => Ok d
  | None =>
      match pg_connect W (connects d) with
      | Ok _ => Ok (mkDatabase (server_rows d)
                      (Some (mkConnection (server_rows d) false)) (S (connects d)))
      | Raise e => Raise e
      end
  end.

Definition connect_failed (d : Database) : Database :=
  mkDatabase (server_rows d) None (S (connects d)).

(** [_disconnect], lines 58-68: closing discards what was not committed. *)
Definition _disconnect (d : Database) : Database :=
  mkDatabase (server_rows d) None (connects d).

(** [conn.commit()]: the rows of the transaction become the server's; on
    an aborted transaction the server answers the commit with a rollback
    and psycopg2 raises nothing. *)
Definition commit (d : Database) : Database :=
  match conn d with
  | Some c =>
      if tx_aborted c
      then mkDatabase (server_rows d) (Some (mkConnection (server_rows d) false))
             (connects d)
      else mkDatabase (tx_rows c) (Some (mkConnection (tx_rows c) false)) (connects d)
  | None => d
  end.

Definition rollback (d : Database) : Database :=
  match conn d with
  | Some _ =>
      mkDatabase (server_rows d) (Some (mkConnection (server_rows d) false)) (connects d)
  | None => d
  end.

(** Whether the open transaction refuses statements. *)
Definition in_failed_transaction (d : Database) : bool :=
  match conn d with
  | Some c => tx_aborted c
  | None => false
  end.

(** [create_products_table], lines 70-97: own connection, commit, and
    disconnect in the [finally]. *)
Definition create_products_table (W : World) (d : Database)
  : Database * result unit :=
  match _connect W d with
  | Raise e => (_disconnect (connect_failed d), Raise e)
  | Ok d1 =>
      if in_failed_transaction d1
      then (_disconnect d1, Raise (DatabaseError "InFailedSqlTransaction"))
      else
        match pg_create_table W with
        | Raise e => (_disconnect d1, Raise e)
        | Ok _ => (_disconnect (commit d1), Ok tt)
        end
  end.

(** The connection after a statement of its transaction failed: the
    handlers of lines 131-137 log and raise again, nothing rolls back (line
    133), so the transaction stays aborted. *)
Definition statement_failed (d : Database) (c : Connection) : Database :=
  mkDatabase (server_rows d) (Some (mkConnection (tx_rows c) true)) (connects d).

(** [insert_product_data], lines 99-137.  [pg_execute] is the server's
    verdict on the upsert of line 128 (a value too long for its column, a
    missing product name, ...); a record without a url violates the NOT NULL
    constraint of the column.  Either way the statement reached the server
    and failed there. *)
Definition insert_product_data (W : World) (product_data : pydict string)
    (d : Database) : Database * result unit :=
  match conn d with
  | None => (d, Raise (DatabaseError "InterfaceError"))
  | Some c =>
      if tx_aborted c then (d, Raise (DatabaseError "InFailedSqlTransaction"))
      else
        match dict_get "url" product_data with
        | None => (statement_failed d c, Raise (DatabaseError "NotNullViolation"))
        | Some _ =>
            match pg_execute W product_data with
            | Raise e => (statement_failed d c, Raise e)
            | Ok _ =>
                (mkDatabase (server_rows d)
                   (Some (mkConnection (upsert product_data (tx_rows c)) false))
                   (connects d), Ok tt)
            end
        end
  end.

(** [__enter__], lines 141-146. *)
Definition db_enter (W : World) (d : Database) : Database * result unit :=
  match _connect W d with
  | Ok d' => (d', Ok tt)
  | Raise e => (connect_failed d, Raise e)
  end.

(** [__exit__(exc_type, exc_val, exc_tb)], lines 148-160; it returns None,
    so an exception that reached it keeps propagating. *)
Definition db_exit (exc : option exn) (d : Database) : Database :=
  _disconnect
    match exc, conn d with
    | Some _, Some _ => rollback d
    | None, Some _ => commit d
    | _, None => d
    end.

(** ** The history of a run

    One event per atomic step of a thread, most recent first. *)
Inductive event : Type :=
(* orchestrator, run_scraping *)
| EvCreateTable                                   (* line 134 *)
| EvDiscoverCategories                            (* line 137 *)
| EvCategoryPage (link : string) (found : bool)   (* lines 147-153 *)
| EvPutProduct (p : ProductInfo)                  (* lines 162/165: product_url_queue.put(product_info) *)
| EvStartWriter                                   (* line 181 *)
| EvPoolCreated                                   (* line 184, whether or not the constructor raised *)
| EvSubmit (i : nat)                              (* line 187 *)
| EvProductsJoined                                (* line 200: join() returned *)
| EvPutProductSentinel                            (* line 205: product_url_queue.put(None) *)
| EvWorkersJoined                                 (* lines 208-212 and the end of the with block *)
| EvPutRecordSentinel                             (* line 217: data_to_write_queue.put(None) *)
| EvJoinWriter (timeout : Z) (still_alive : bool) (* lines 220-224 *)
| EvCritical (e : exn)                            (* line 227 *)
| EvCloseSession                                  (* line 229 *)
| EvTimingLog                                     (* lines 230-235 *)
(* scrape_product_worker number i (0-based in the pool) *)
| EvGet (i : nat) (x : option ProductInfo)        (* line 35 returned x *)
| EvGetTimeout (i : nat)                          (* lines 66-68 *)
| EvFetched (i : nat) (p : ProductInfo) (ok : bool)        (* lines 48-63 *)
| EvExtracted (i : nat) (p : ProductInfo)                  (* lines 53-58 *)
| EvPutRecord (i : nat) (product_data : pydict string)     (* line 60 *)
| EvTaskDone (i : nat) (x : option ProductInfo)            (* line 38 or 65 *)
| EvCaught (i : nat) (x : option ProductInfo) (e : exn)    (* line 69: except Exception entered *)
| EvCaughtEmpty (i : nat) (p : ProductInfo)                (* a queue.Empty from the loop body, lines 66-68 *)
| EvHandlerTaskDone (i : nat) (x : option ProductInfo)     (* lines 70-72 *)
| EvWorkerRaised (i : nat) (e : exn)                       (* the handler itself raised *)
| EvWorkerFinished (i : nat)                               (* line 77 *)
(* database_writer_worker *)
| EvDbEnter (ok : bool)                           (* line 87, __enter__ *)
| EvRecordGet (x : option (pydict string))        (* line 90 *)
| EvRecordGetTimeout                              (* lines 104-106 *)
| EvInsert (product_data : pydict string) (ok : bool)   (* lines 96-101 *)
| EvRecordTaskDone                                (* line 93 or 103 *)
| EvRecordTaskDoneRaised
| EvCommit                                        (* __exit__ without exception *)
| EvRollback (e : exn)                            (* __exit__ with exception *)
| EvWriterFinished.                               (* line 110 *)

(** ** scrape_product_worker (workers.py 13-77)

    The program counter of one worker; [x], [p] is its local
    [product_info] once an item was popped. *)
Inductive wpc : Type :=
| WGet                                              (* line 35: product_url_queue.get(timeout=1.5) *)
| WGotNone                                          (* line 38: task_done(), break *)
| WFetch (p : ProductInfo)                          (* line 48: fetch_page *)
| WExtract (p : ProductInfo) (tree : HtmlElement)   (* line 53: extract_product_details *)
| WPut (p : ProductInfo) (product_data : pydict string)  (* lines 58-61: set url, put, debug log *)
| WTaskDone (p : ProductInfo)                       (* line 65: task_done() *)
| WExcept (x : option ProductInfo)                  (* lines 70-72: handler's task_done() *)
| WBreak (dropped : option ProductInfo)             (* line 77; [dropped] was popped and never marked *)
| WReturned (dropped : option ProductInfo)
| WRaised (e : exn).

Definition Work : Type := Queue (option ProductInfo).
Definition Records : Type := Queue (option (pydict string)).

(** Where control goes when the loop body raises [e] while [product_info]
    is [p]: the [except queue.Empty] clause breaks, the [except Exception]
    clause logs and runs the handler. *)
Definition body_raised (i : nat) (p : ProductInfo) (e : exn) : wpc * event :=
  if is_queue_empty e then (WBreak (Some p), EvCaughtEmpty i p)
  else (WExcept (Some p), EvCaught i (Some p) e).

(** One atomic step of worker [i]; [None] when the function has returned. *)
Definition scrape_product_worker (W : World) (sleep_between_product_pages : Z)
    (i : nat) (pc : wpc) (product_url_queue : Work) (data_to_write_queue : Records)
  : option (wpc * Work * Records * event) :=
  match pc with
  | WGet =>
      match get product_url_queue with
      | None => Some (WBreak None, product_url_queue, data_to_write_queue, EvGetTimeout i)
      | Some (None, q) => Some (WGotNone, q, data_to_write_queue, EvGet i None)
      | Some (Some p, q) => Some (WFetch p, q, data_to_write_queue, EvGet i (Some p))
      end
  | WGotNone =>
      match task_done product_url_queue with
      | Ok q => Some (WBreak None, q, data_to_write_queue, EvTaskDone i None)
      | Raise e => Some (WExcept None, product_url_queue, data_to_write_queue, EvCaught i None e)
      end
  | WFetch p =>
      match scraper_fetch_page W (url p) sleep_between_product_pages with
      | Ok (Some tree) =>
          Some (WExtract p tree, product_url_queue, data_to_write_queue, EvFetched i p true)
      | Ok None =>
          Some (WTaskDone p, product_url_queue, data_to_write_queue, EvFetched i p false)
      | Raise e =>
          let '(pc', ev) := body_raised i p e in
          Some (pc', product_url_queue, data_to_write_queue, ev)
      end
  | WExtract p tree =>
      match extractor_extract_product_details W tree
              (name_on_listing p) (category_on_listing p) with
      | Ok product_data =>
          Some (WPut p (dict_set "url" (url p) product_data),
                product_url_queue, data_to_write_queue, EvExtracted i p)
      | Raise e =>
          let '(pc', ev) := body_raised i p e in
          Some (pc', product_url_queue, data_to_write_queue, ev)
      end
  | WPut p product_data =>
      (* the debug message reads product_data['product_name'] *)
      let next :=
        match dict_get "product_name" product_data with
        | Some _ => WTaskDone p
        | None => WExcept (Some p)
        end in
      Some (next, product_url_queue, put (Some product_data) data_to_write_queue,
            EvPutRecord i product_data)
  | WTaskDone p =>
      match task_done product_url_queue with
      | Ok q => Some (WGet, q, data_to_write_queue, EvTaskDone i (Some p))
      | Raise e =>
          Some (WExcept (Some p), product_url_queue, data_to_write_queue,
                EvCaught i (Some p) e)
      end
  | WExcept x =>
      match task_done product_url_queue with
      | Ok q => Some (WGet, q, data_to_write_queue, EvHandlerTaskDone i x)
      | Raise e => Some (WRaised e, product_url_queue, data_to_write_queue, EvWorkerRaised i e)
      end
  | WBreak dropped =>
      Some (WReturned dropped, product_url_queue, data_to_write_queue, EvWorkerFinished i)
  | WReturned _ | WRaised _ => None
  end.

(** ** database_writer_worker (workers.py 80-110) *)
Inductive dpc : Type :=
| DNotStarted
| DEnter                                   (* line 87: with db_manager as db *)
| DGet                                     (* line 90: get(timeout=10) *)
| DGotNone                                 (* line 93: task_done(), break *)
| DInsert (product_data : pydict string)   (* lines 96-101 *)
| DFinally (product_data : pydict string)  (* line 103: task_done() *)
| DExit (exc : option exn)                 (* leaving the with block: __exit__ *)
| DOuter (exc : option exn)                (* lines 107-110 *)
| DReturned.

Definition database_writer_worker (W : World) (pc : dpc)
    (data_to_write_queue : Records) (d : Database)
  : option (dpc * Records * Database * event) :=
  match pc with
  | DNotStarted => None
  | DEnter =>
      match db_enter W d with
      | (d', Ok _) => Some (DGet, data_to_write_queue, d', EvDbEnter true)
      | (d', Raise e) => Some (DOuter (Some e), data_to_write_queue, d', EvDbEnter false)
      end
  | DGet =>
      match get data_to_write_queue with
      | None => Some (DExit None, data_to_write_queue, d, EvRecordGetTimeout)
      | Some (None, q) => Some (DGotNone, q, d, EvRecordGet None)
      | Some (Some product_data, q) =>
          Some (DInsert product_data, q, d, EvRecordGet (Some product_data))
      end
  | DGotNone =>
      match task_done data_to_write_queue with
      | Ok q => Some (DExit None, q, d, EvRecordTaskDone)
      | Raise e => Some (DExit (Some e), data_to_write_queue, d, EvRecordTaskDoneRaised)
      end
  | DInsert product_data =>
      match insert_product_data W product_data d with
      | (d', Ok _) =>
          (* the success message reads product_data['product_name']; a
             KeyError there is caught by the same except clause *)
          Some (DFinally product_data, data_to_write_queue, d',
                EvInsert product_data
                  (bool_decide (is_Some (dict_get "product_name" product_data))))
      | (d', Raise _) =>
          Some (DFinally product_data, data_to_write_queue, d', EvInsert product_data false)
      end
  | DFinally _ =>
      match task_done data_to_write_queue with
      | Ok q => Some (DGet, q, d, EvRecordTaskDone)
      | Raise e => Some (DExit (Some e), data_to_write_queue, d, EvRecordTaskDoneRaised)
      end
  | DExit exc =>
      Some (DOuter exc, data_to_write_queue, db_exit exc d,
            match exc with Some e => EvRollback e | None => EvCommit end)
  | DOuter _ => Some (DReturned, data_to_write_queue, d, EvWriterFinished)
  | DReturned => None
  end.

(** ** ScrapingOrchestrator (orchestrator.py) *)

(** The filter of lines 86-89.  [href] is None only for an element without
    that attribute; [keyword in None] is a TypeError. *)
Fixpoint needed_links (needed_categories : list string)
    (all_links : list (option string)) : result (list string) :=
  match all_links with
  | [] => Ok []
  | Some link :: rest =>
      match needed_links needed_categories rest with
      | Raise e => Raise e
      | Ok links =>
          Ok (if existsb (fun category_keyword => str_contains category_keyword link)
                   needed_categories
              then link :: links else links)
      end
  | None :: rest =>
      match needed_categories with
      | [] => needed_links needed_categories rest
      | _ :: _ => Raise TypeError
      end
  end.

(** [_get_category_links], lines 65-92. *)
Definition _get_category_links (W : World) (cfg : Config) : result (list string) :=
  match scraper_fetch_page W (SCRAPER_BASE_URL cfg) 0 with
  | Raise e => Raise e
  | Ok None => Ok []
  | Ok (Some main_page_tree) =>
      let buttons := xpath_elements main_page_tree category_buttons_xpath in
      let all_links :=
        flat_map (fun btn =>
                    match xpath_elements btn button_anchor_xpath with
                    | a :: _ => [get_attr a "href"]
                    | [] => []
                    end) buttons in
      needed_links (SCRAPER_NEEDED_CATEGORIES cfg) all_links
  end.

(** [_get_product_links_from_category_page], lines 94-122. *)
Definition _get_product_links_from_category_page (W : World) (cfg : Config)
    (category_url : string) (page_tree : HtmlElement) : list ProductInfo :=
  let current_category_slug := last_segment category_url in
  flat_map (fun product_link_elem =>
              match get_attr product_link_elem "href" with
              | None | Some EmptyString => []
              | Some href =>
                  let product_name :=
                    match xpath_elements product_link_elem listing_name_xpath with
                    | name_element :: _ => strip (text_content name_element)
                    | [] => "Unknown Product Name"
                    end in
                  [ {| name_on_listing := product_name;
                       url := urljoin W (SCRAPER_BASE_URL cfg) href;
                       category_on_listing := current_category_slug |} ]
              end)
           (xpath_elements page_tree product_links_xpath).

(** Phase 2, lines 143-153: the events in the order they happen and the
    collected listing entries. *)
Fixpoint scrape_category_pages (W : World) (cfg : Config) (category_links : list string)
  : list event * result (list ProductInfo) :=
  match category_links with
  | [] => ([], Ok [])
  | link :: rest =>
      match scraper_fetch_page W link (SLEEP_BETWEEN_CATEGORY_PAGES cfg) with
      | Raise e => ([], Raise e)
      | Ok None =>
          let '(evs, r) := scrape_category_pages W cfg rest in
          (EvCategoryPage link false :: evs, r)
      | Ok (Some category_page_tree) =>
          let '(evs, r) := scrape_category_pages W cfg rest in
          (EvCategoryPage link true :: evs,
           match r with
           | Ok ps =>
               Ok (_get_product_links_from_category_page W cfg link category_page_tree ++ ps)
           | Raise e => Raise e
           end)
      end
  end.

(** How the sequential part of [run_scraping] (lines 132-170) ends. *)
Inductive discovery_outcome : Type :=
| Raised (e : exn)              (* control is in the except clause, line 226 *)
| NoCategories                  (* return of line 140 *)
| NoProducts                    (* return of line 170 *)
| Queued (ps : list ProductInfo).  (* product_url_queue holds ps *)

Definition discovery (W : World) (cfg : Config) (d : Database)
  : list event * Database * discovery_outcome :=
  match create_products_table W d with
  | (d1, Raise e) => ([EvCreateTable], d1, Raised e)
  | (d1, Ok _) =>
      match _get_category_links W cfg with
      | Raise e => ([EvCreateTable; EvDiscoverCategories], d1, Raised e)
      | Ok [] => ([EvCreateTable; EvDiscoverCategories], d1, NoCategories)
      | Ok category_links =>
          match scrape_category_pages W cfg category_links with
          | (evs, Raise e) => ([EvCreateTable; EvDiscoverCategories] ++ evs, d1, Raised e)
          | (evs, Ok all_products_from_categories) =>
              let queued :=
                products_to_queue (SCRAPER_TEST_MODE cfg) (TEST_PRODUCT_LIMIT cfg)
                  all_products_from_categories in
              ([EvCreateTable; EvDiscoverCategories] ++ evs ++ (EvPutProduct <$> queued),
               d1,
               match queued with [] => NoProducts | _ :: _ => Queued queued end)
          end
      end
  end.

(** Phase 3 and the teardown: the program counter of the main thread. *)
Inductive opc : Type :=
| OStartWriter                 (* lines 176-181 *)
| OCreatePool                  (* line 184: ThreadPoolExecutor(max_workers=...) *)
| OSubmit (i : nat)            (* lines 186-197 *)
| OJoinProducts                (* line 200: product_url_queue.join() *)
| OPutSentinel (i : nat)       (* lines 204-205 *)
| OJoinWorkers                 (* lines 208-212 and leaving the with block *)
| OPutRecordSentinel           (* line 217 *)
| OJoinWriter                  (* lines 220-224 *)
| OExcept (e : exn)            (* line 227 *)
| OFinally                     (* line 229 *)
| OTiming                      (* lines 230-235 *)
| OReturned.

Record System : Type := mkSystem {
  product_url_queue : Work;
  data_to_write_queue : Records;
  workers : list wpc;             (* the tasks submitted to the pool *)
  writer : dpc;                   (* db_writer_thread *)
  database : Database;
  orch : opc;
  history : list event
}.

Definition thread_count (cfg : Config) : nat := Z.to_nat (SCRAPER_THREAD_COUNT cfg).

Definition worker_finished (w : wpc) : bool :=
  match w with WReturned _ | WRaised _ => true | _ => false end.

Definition writer_finished (w : dpc) : bool :=
  match w with DReturned => true | _ => false end.

Definition writer_join_timeout : Z := 300.

(** The state in which the sequential part of [run_scraping] leaves the
    program. *)
Definition init_system (W : World) (cfg : Config) (d : Database) : System :=
  let '(evs, d1, out) := discovery W cfg d in
  {| product_url_queue :=
       match out with
       | Queued ps => mkQueue (Some <$> ps) (length ps)
       | _ => empty_queue
       end;
     data_to_write_queue := empty_queue;
     workers := [];
     writer := DNotStarted;
     database := d1;
     orch :=
       match out with
       | Queued _ => OStartWriter
       | Raised e => OExcept e
       | NoCategories | NoProducts => OFinally
       end;
     history := reverse evs |}.

(** One atomic step of the main thread; [None] while it is blocked in a
    join and after it has returned. *)
Definition run_scraping (cfg : Config) (s : System) : option System :=
  let go (q : Work) (r : Records) (ws : list wpc) (w : dpc) (o : opc) (ev : event) :=
    Some (mkSystem q r ws w (database s) o (ev :: history s)) in
  let q := product_url_queue s in
  let r := data_to_write_queue s in
  let ws := workers s in
  let w := writer s in
  match orch s with
  | OStartWriter => go q r ws DEnter OCreatePool EvStartWriter
  | OCreatePool =>
      (* max_workers <= 0 is a ValueError *)
      if SCRAPER_THREAD_COUNT cfg <=? 0
      then go q r ws w (OExcept ValueError) EvPoolCreated
      else go q r ws w (OSubmit 0) EvPoolCreated
  | OSubmit i =>
      go q r (ws ++ [WGet]) w
         (if (S i <? thread_count cfg)%nat then OSubmit (S i) else OJoinProducts)
         (EvSubmit i)
  | OJoinProducts =>
      if join_ready q then go q r ws w (OPutSentinel 0) EvProductsJoined else None
  | OPutSentinel i =>
      go (put None q) r ws w
         (if (S i <? thread_count cfg)%nat then OPutSentinel (S i) else OJoinWorkers)
         EvPutProductSentinel
  | OJoinWorkers =>
      if forallb worker_finished ws then go q r ws w OPutRecordSentinel EvWorkersJoined
      else None
  | OPutRecordSentinel => go q (put None r) ws w OJoinWriter EvPutRecordSentinel
  | OJoinWriter =>
      (* join(timeout=300) returns when the thread ended or the time is up *)
      go q r ws w OFinally (EvJoinWriter writer_join_timeout (negb (writer_finished w)))
  | OExcept e => go q r ws w OFinally (EvCritical e)
  | OFinally => go q r ws w OTiming EvCloseSession
  | OTiming => go q r ws w OReturned EvTimingLog
  | OReturned => None
  end.

(** ** The threads together *)
Inductive label : Type :=
| LOrch
| LWorker (i : nat)
| LWriter.

Definition step (W : World) (cfg : Config) (l : label) (s : System) : option System :=
  match l with
  | LOrch => run_scraping cfg s
  | LWorker i =>
      match workers s !! i with
      | None => None
      | Some pc =>
          match scrape_product_worker W (SLEEP_BETWEEN_PRODUCT_PAGES cfg) i pc
                  (product_url_queue s) (data_to_write_queue s) with
          | None => None
          | Some (pc', q, r, ev) =>
              Some (mkSystem q r (<[i := pc']> (workers s)) (writer s) (database s)
                      (orch s) (ev :: history s))
          end
      end
  | LWriter =>
      match database_writer_worker W (writer s) (data_to_write_queue s) (database s) with
      | None => None
      | Some (pc', r, d, ev) =>
          Some (mkSystem (product_url_queue s) r (workers s) pc' d (orch s)
                  (ev :: history s))
      end
  end.

(** Running a schedule; [None] when it asks a thread to move that cannot. *)
Fixpoint exec (W : World) (cfg : Config) (schedule : list label) (s : System)
  : option System :=
  match schedule with
  | [] => Some s
  | l :: rest =>
      match step W cfg l s with
      | Some s' => exec W cfg rest s'
      | None => None
      end
  end.

(** ** A small marketplace, for the worked examples *)

Definition leaf (text : string) (attrs : pydict string) : HtmlElement :=
  mkHtmlElement (fun _ => []) (fun _ => []) text (fun k => dict_get k attrs).

Definition category_button (href : string) : HtmlElement :=
  mkHtmlElement
    (fun q => match q with
              | button_anchor_xpath => [leaf "" [("href", href)]]
              | _ => []
              end)
    (fun _ => []) "" (fun _ => None).

Definition product_link (href name : string) : HtmlElement :=
  mkHtmlElement
    (fun q => match q with
              | listing_name_xpath => [leaf name []]
              | _ => []
              end)
    (fun _ => []) name (fun k => dict_get k [("href", href)]).

Definition listing_page (links : list HtmlElement) : HtmlElement :=
  mkHtmlElement
    (fun q => match q with product_links_xpath => links | _ => [] end)
    (fun _ => []) "" (fun _ => None).

Definition main_page : HtmlElement :=
  mkHtmlElement
    (fun q => match q with
              | category_buttons_xpath =>
                  [ category_button "/categories/devops";
                    category_button "/categories/security";
                    category_button "/categories/it-infrastructure" ]
              | _ => []
              end)
    (fun _ => []) "" (fun _ => None).

Definition devops_page : HtmlElement :=
  listing_page [product_link "/marketplace/a" " A "].

Definition infrastructure_page : HtmlElement :=
  listing_page [product_link "/marketplace/a" "A-dup"; product_link "/marketplace/b" "B"].

(** A detail page with a heading, a median price and a price range. *)
Definition detail_page (name median low high : string) : HtmlElement :=
  mkHtmlElement
    (fun q => match q with
              | price_range_container_xpath =>
                  [ mkHtmlElement (fun _ => [])
                      (fun q' => match q' with
                                 | low_price_xpath_relative => [low]
                                 | high_price_xpath_relative => [high]
                                 | _ => []
                                 end) "" (fun _ => None) ]
              | description_xpath =>
                  [ leaf "What is it? A short teaser." [];
                    leaf "  A managed build service for small teams.  " [] ]
              | _ => []
              end)
    (fun q => match q with
              | product_name_detail_xpath => [name]
              | median_price_xpath => [median]
              | _ => []
              end) "" (fun _ => None).

(** A page on which none of the extractor's queries finds anything. *)
Definition bare_page : HtmlElement := leaf "" [].

(** The site: bodies are named by their url; /marketplace/b answers 404. *)
Definition example_net : Net :=
  {| session_get := fun full_url =>
       if String.eqb full_url "https://example.test/marketplace/b"
       then Ok (mkResponse 404 "")
       else if startswith "https://example.test" full_url
       then Ok (mkResponse 200 full_url)
       else Raise (RequestException "MissingSchema");
     html_fromstring := fun body =>
       if String.eqb body "https://example.test" then Ok main_page
       else if String.eqb body "https://example.test/categories/devops" then Ok devops_page
       else if String.eqb body "https://example.test/categories/it-infrastructure"
       then Ok infrastructure_page
       else if String.eqb body "https://example.test/marketplace/a"
       then Ok (detail_page " Product A " "$10" "$5" "$20")
       else Ok bare_page |}.

Definition example_config (threads : Z) : Config :=
  {| SCRAPER_BASE_URL := "https://example.test";
     SCRAPER_NEEDED_CATEGORIES := ["devops"; "it-infrastructure"; "data-analytics-and-management"];
     SCRAPER_TEST_MODE := false;
     TEST_PRODUCT_LIMIT := 3;
     SLEEP_BETWEEN_CATEGORY_PAGES := 1;
     SLEEP_BETWEEN_PRODUCT_PAGES := 1;
     SCRAPER_THREAD_COUNT := threads |}.

(** The collaborators [main.py] wires in: WebScraper, ProductExtractor and
    a database server that accepts everything. *)
Definition example_world : World :=
  {| urljoin := urljoin_simple;
     scraper_fetch_page := fun url sleep_time =>
       snd (fetch_page example_urljoin example_net "https://example.test" (Some url)
              sleep_time);
     extractor_extract_product_details := fun tree name category =>
       Ok (extract_product_details tree name category);
     pg_connect := fun _ => Ok tt;
     pg_create_table := Ok tt;
     pg_execute := fun _ => Ok tt |}.

Definition empty_database : Database := mkDatabase [] None 0.

(** ** Bookkeeping used in the invariants *)

(** A worker that popped an item and has not marked it processed. *)
Definition holding (w : wpc) : nat :=
  match w with
  | WGotNone | WFetch _ | WExtract _ _ | WPut _ _ | WTaskDone _ | WExcept _
  | WBreak (Some _) | WReturned (Some _) => 1
  | WGet | WBreak None | WReturned None | WRaised _ => 0
  end.

Definition indicator (b : bool) : nat := if b then 1%nat else 0%nat.

(** ... and the ProductRef it holds, counted when it satisfies [P]. *)
Definition held (P : ProductInfo -> bool) (w : wpc) : nat :=
  match w with
  | WFetch p | WExtract p _ | WPut p _ | WTaskDone p | WExcept (Some p)
  | WBreak (Some p) | WReturned (Some p) => indicator (P p)
  | _ => 0
  end.

(** ProductRefs satisfying [P] that wait in the product queue. *)
Definition queued (P : ProductInfo -> bool) (l : list (option ProductInfo)) : nat :=
  sum_list_with (fun x => match x with Some p => indicator (P p) | None => 0%nat end) l.

(** The ProductRef whose queue slot an event marks processed, with the
    worker that did it. *)
Definition marks_processed (ev : event) : option (nat * ProductInfo) :=
  match ev with
  | EvTaskDone i (Some p) | EvHandlerTaskDone i (Some p) => Some (i, p)
  | _ => None
  end.

Definition processed (P : ProductInfo -> bool) (h : list event) : nat :=
  sum_list_with (fun ev => match marks_processed ev with
                           | Some (_, p) => indicator (P p)
                           | None => 0%nat
                           end) h.

Definition enqueued (P : ProductInfo -> bool) (h : list event) : nat :=
  sum_list_with (fun ev => match ev with
                           | EvPutProduct p => indicator (P p)
                           | _ => 0%nat
                           end) h.

Definition count_events (f : event -> bool) (h : list event) : nat :=
  sum_list_with (fun ev => indicator (f ev)) h.

Definition is_product_sentinel (ev : event) : bool :=
  match ev with EvPutProductSentinel => true | _ => false end.
Definition is_record_sentinel (ev : event) : bool :=
  match ev with EvPutRecordSentinel => true | _ => false end.
Definition is_record_put (ev : event) : bool :=
  match ev with EvPutRecord _ _ => true | _ => false end.
Definition is_submit (ev : event) : bool :=
  match ev with EvSubmit _ => true | _ => false end.

(** Worker [i] has left [scrape_product_worker]. *)
Definition exit_of (i : nat) (ev : event) : bool :=
  match ev with
  | EvWorkerFinished j | EvWorkerRaised j _ => bool_decide (i = j)
  | _ => false
  end.

(** [unfinished_tasks] of the product queue counts exactly the waiting
    items and the items held by workers. *)
Definition slots_accounted (s : System) : Prop :=
  unfinished_tasks (product_url_queue s) =
  (length (items (product_url_queue s)) + sum_list_with holding (workers s))%nat.

(** Of [total] ProductRefs satisfying [P], each is waiting, held, or marked
    processed. *)
Definition refs_accounted (P : ProductInfo -> bool) (total : nat) (s : System) : Prop :=
  total =
  (queued P (items (product_url_queue s)) + sum_list_with (held P) (workers s)
   + processed P (history s))%nat.

(** Every enqueued ProductRef has been marked processed. *)
Definition all_processed (h : list event) : Prop :=
  forall P, processed P h = enqueued P h.

Definition all_finished (ws : list wpc) : Prop :=
  forallb worker_finished ws = true.

(** What the main thread's program counter says about the run so far. *)
Definition orch_inv (N : nat) (s : System) : Prop :=
  let ps := count_events is_product_sentinel (history s) in
  let rs := count_events is_record_sentinel (history s) in
  let nw := length (workers s) in
  match orch s with
  | OStartWriter | OCreatePool => ps = 0%nat /\ rs = 0%nat /\ nw = 0%nat
  | OSubmit i => ps = 0%nat /\ rs = 0%nat /\ nw = i /\ (i < N)%nat
  | OJoinProducts => ps = 0%nat /\ rs = 0%nat /\ nw = N /\ (0 < N)%nat
  | OPutSentinel i =>
      ps = i /\ rs = 0%nat /\ nw = N /\ (i < N)%nat /\ all_processed (history s)
  | OJoinWorkers => ps = N /\ rs = 0%nat /\ nw = N /\ all_processed (history s)
  | OPutRecordSentinel =>
      ps = N /\ rs = 0%nat /\ nw = N /\ all_processed (history s)
      /\ all_finished (workers s)
  | OJoinWriter =>
      ps = N /\ rs = 1%nat /\ nw = N /\ all_processed (history s)
      /\ all_finished (workers s)
  | OExcept _ => ps = 0%nat /\ rs = 0%nat
  | OFinally | OTiming | OReturned =>
      (ps = 0%nat /\ rs = 0%nat)
      \/ (ps = N /\ rs = 1%nat /\ nw = N /\ all_processed (history s)
          /\ all_finished (workers s))
  end.

(** A finished worker has left its exit event in the history. *)
Definition exits_recorded (s : System) : Prop :=
  forall i w, workers s !! i = Some w -> worker_finished w = true ->
    exists ev, ev ∈ history s /\ exit_of i ev = true.

(** What was true when a sentinel was enqueued. *)
Definition sentinels_in_order (N : nat) (s : System) : Prop :=
  (forall later earlier, history s = later ++ EvPutProductSentinel :: earlier ->
     all_processed earlier /\ forall P, enqueued P later = 0%nat)
  /\ (forall later earlier, history s = later ++ EvPutRecordSentinel :: earlier ->
        forall i, (i < N)%nat -> exists ev, ev ∈ earlier /\ exit_of i ev = true).

(** The invariant of the concurrent phase. *)
Definition run_inv (N : nat) (s : System) : Prop :=
  slots_accounted s
  /\ (forall P, refs_accounted P (enqueued P (history s)) s)
  /\ orch_inv N s
  /\ exits_recorded s
  /\ sentinels_in_order N s.


(** The events of the sequential part of [run_scraping]. *)
Definition is_discovery_event (ev : event) : bool :=
  match ev with
  | EvCreateTable | EvDiscoverCategories | EvCategoryPage _ _ | EvPutProduct _ => true
  | _ => false
  end.

(** A complete interleaving for two workers, up to the join of the writer:
    worker 0 scrapes /marketplace/a, worker 1 meets the 404 of
    /marketplace/b, and the writer thread has not been scheduled yet. *)
Definition example_schedule : list label :=
  [ LOrch; LOrch; LOrch; LOrch;
    LWorker 0; LWorker 1; LWorker 0; LWorker 1; LWorker 0; LWorker 1;
    LWorker 0; LWorker 0;
    LOrch; LOrch; LOrch;
    LWorker 1; LWorker 0; LWorker 1; LWorker 0; LWorker 1; LWorker 0;
    LOrch; LOrch ].

(** The state that schedule leads to. *)
Definition example_state : System :=
  Eval vm_compute in
    match exec example_world (example_config 2) example_schedule
            (init_system example_world (example_config 2) empty_database) with
    | Some s => s
    | None => init_system example_world (example_config 2) empty_database
    end.

(** Three listing entries with distinct urls, and the duplicates of the
    specification's scenario. *)
Definition ref_a : ProductInfo := mkProductInfo "A" "/marketplace/a" "devops".
Definition ref_a_dup : ProductInfo :=
  mkProductInfo "A-dup" "/marketplace/a" "it-infrastructure".
Definition ref_b : ProductInfo := mkProductInfo "B" "/marketplace/b" "it-infrastructure".
Definition ref_c : ProductInfo := mkProductInfo "C" "/marketplace/c" "devops".

(** The same collaborators with the site unreachable: every request fails. *)
Definition offline_net : Net :=
  {| session_get := fun _ => Raise (RequestException "ConnectionError");
     html_fromstring := fun _ => Ok bare_page |}.

Definition offline_world : World :=
  {| urljoin := urljoin_simple;
     scraper_fetch_page := fun url sleep_time =>
       snd (fetch_page example_urljoin offline_net "https://example.test" (Some url)
              sleep_time);
     extractor_extract_product_details := fun tree name category =>
       Ok (extract_product_details tree name category);
     pg_connect := fun _ => Ok tt;
     pg_create_table := Ok tt;
     pg_execute := fun _ => Ok tt |}.

(** ** The worker pool on a pre-loaded queue *)


(** The collaborators never raise [queue.Empty] themselves. *)
Definition no_queue_empty (W : World) : Prop :=
  (forall u sl e, scraper_fetch_page W u sl = Raise e -> is_queue_empty e = false)
  /\ (forall tree name category e,
        extractor_extract_product_details W tree name category = Raise e ->
        is_queue_empty e = false).

(** How far a worker is from the end of its current iteration. *)
Definition weight (w : wpc) : nat :=
  match w with
  | WReturned _ | WRaised _ => 0
  | WBreak _ => 1
  | WGet => 2
  | WExcept _ => 3
  | WTaskDone _ | WGotNone => 4
  | WPut _ _ => 5
  | WExtract _ _ => 6
  | WFetch _ => 7
  end.

(** A bound on the steps the workers can still take. *)
Definition work_left (s : System) : nat :=
  (6 * length (items (product_url_queue s)) + sum_list_with weight (workers s))%nat.




(** A worker that is in its loop and will come back to the get. *)
Definition pre_sentinel (w : wpc) : nat :=
  match w with
  | WGet | WFetch _ | WExtract _ _ | WPut _ _ | WTaskDone _ | WExcept _ => 1
  | _ => 0
  end.

Definition sentinels_waiting (l : list (option ProductInfo)) : nat :=
  sum_list_with (fun x => match x with None => 1%nat | Some _ => 0%nat end) l.

(** States a worker reaches only by a timeout, by dropping an item or by
    an exception that escapes it. *)
Definition on_track (w : wpc) : bool :=
  match w with
  | WExcept None | WBreak (Some _) | WReturned (Some _) | WRaised _ => false
  | _ => true
  end.







(** A worker that can move without a timeout. *)
Definition can_progress (q : Work) (w : wpc) : bool :=
  match w with
  | WReturned _ | WRaised _ => false
  | WGet => match items q with [] => false | _ :: _ => true end
  | _ => true
  end.

(** ** Before the sentinels *)

(** The main thread has not passed [product_url_queue.join()]. *)
Definition orch_feeding (o : opc) : bool :=
  match o with
  | OStartWriter | OCreatePool | OSubmit _ | OJoinProducts => true
  | _ => false
  end.

(** The worker is still in its loop. *)
Definition alive (w : wpc) : bool :=
  match w with WBreak _ | WReturned _ | WRaised _ => false | _ => true end.

(** The worker has neither dropped an item nor seen a sentinel. *)
Definition no_sentinel_seen (w : wpc) : bool :=
  match w with WGotNone => false | _ => on_track w end.

(** Until the join returns the product queue holds ProductRefs only, and a
    worker leaves its loop only on an empty queue. *)
Definition feeding_inv (s : System) : Prop :=
  orch_feeding (orch s) = true ->
  Forall (fun x : option ProductInfo => is_Some x) (items (product_url_queue s))
  /\ Forall (fun w => no_sentinel_seen w = true) (workers s)
  /\ (items (product_url_queue s) = [] \/ Forall (fun w => alive w = true) (workers s)).

(** What the worker does after an exception of the loop body was caught
    with [product_info = p]: the handler marks the slot processed and the
    loop goes on. *)
Definition recovers (W : World) (cfg : Config) (s : System) (i : nat)
    (p : ProductInfo) (caught : event) : Prop :=
  exists s',
    exec W cfg [LWorker i; LWorker i] s = Some s'
    /\ history s' = EvHandlerTaskDone i (Some p) :: caught :: history s
    /\ workers s' !! i = Some WGet
    /\ S (unfinished_tasks (product_url_queue s'))
       = unfinished_tasks (product_url_queue s)
    /\ items (product_url_queue s') = items (product_url_queue s).

(** A pool of two workers on the two ProductRefs of the example site. *)
Definition example_refs : list ProductInfo :=
  [ mkProductInfo "A-dup" "https://example.test/marketplace/a" "it-infrastructure";
    mkProductInfo "B" "https://example.test/marketplace/b" "it-infrastructure" ].



(** ** The writer on a given stream of records *)

(** The upsert of this record succeeds on an open connection. *)
Definition accepted (W : World) (product_data : pydict string) : bool :=
  match dict_get "url" product_data, pg_execute W product_data with
  | Some _, Ok _ => true
  | _, _ => false
  end.

(** The table after the accepted upserts of [rs], in order. *)
Definition writes (W : World) (rs : list (pydict string)) (t : table) : table :=
  foldl (fun t r => if accepted W r then upsert r t else t) t rs.

(** The open transaction after [insert_product_data] was called on [r]. *)
Definition attempt (W : World) (c : Connection) (r : pydict string) : Connection :=
  if tx_aborted c then c
  else if accepted W r then mkConnection (upsert r (tx_rows c)) false
  else mkConnection (tx_rows c) true.

Definition attempts (W : World) (rs : list (pydict string)) (c : Connection)
  : Connection :=
  foldl (attempt W) c rs.

(** What the commit that ends the writer's with block leaves on the server
    when the upserts of [rs] were attempted on the rows [t]: all of them if
    the server accepted every one, and the rows as they were if it refused
    one, because that upsert aborted the transaction. *)
Definition committed (W : World) (rs : list (pydict string)) (t : table) : table :=
  if forallb (accepted W) rs then writes W rs t else t.

Definition is_rollback (ev : event) : bool :=
  match ev with EvRollback _ => true | _ => false end.

Definition is_record_task_done (ev : event) : bool :=
  match ev with EvRecordTaskDone => true | _ => false end.

(** The example site with a fetcher that breaks on /marketplace/a. *)
Definition faulty_world : World :=
  {| urljoin := urljoin_simple;
     scraper_fetch_page := fun url sleep_time =>
       if String.eqb url "https://example.test/marketplace/a"
       then Raise (OtherException "connection reset")
       else scraper_fetch_page example_world url sleep_time;
     extractor_extract_product_details :=
       extractor_extract_product_details example_world;
     pg_connect := fun _ => Ok tt;
     pg_create_table := Ok tt;
     pg_execute := fun _ => Ok tt |}.

(** Both workers have popped their ProductRef and are about to fetch. *)
Definition fetch_schedule : list label :=
  [LOrch; LOrch; LOrch; LOrch; LWorker 0; LWorker 1].

Definition fetch_state : System :=
  Eval vm_compute in
    match exec example_world (example_config 2) fetch_schedule
            (init_system example_world (example_config 2) empty_database) with
    | Some s => s
    | None => init_system example_world (example_config 2) empty_database
    end.

Definition faulty_state : System :=
  Eval vm_compute in
    match exec faulty_world (example_config 2) fetch_schedule
            (init_system faulty_world (example_config 2) empty_database) with
    | Some s => s
    | None => init_system faulty_world (example_config 2) empty_database
    end.

(** ** Completing a run *)

Definition reachable (W : World) (cfg : Config) (d : Database) (s : System) : Prop :=
  exists schedule, exec W cfg schedule (init_system W cfg d) = Some s.

(** Some continuation of the schedule brings [run_scraping] to its end. *)
Definition completes (W : World) (cfg : Config) (s : System) : Prop :=
  exists schedule' s', exec W cfg schedule' s = Some s' /\ orch s' = OReturned.

(** Once the join has returned there are enough sentinels, waiting or
    still to be put, for every worker that is in its loop. *)
Definition sentinels_suffice (N : nat) (s : System) : Prop :=
  match orch s with
  | OPutSentinel i =>
      (sum_list_with pre_sentinel (workers s)
       <= sentinels_waiting (items (product_url_queue s)) + (N - i))%nat
  | OJoinWorkers =>
      (sum_list_with pre_sentinel (workers s)
       <= sentinels_waiting (items (product_url_queue s)))%nat
  | _ => True
  end.

Definition is_put_product (ev : event) : bool :=
  match ev with EvPutProduct _ => true | _ => false end.

Definition is_join_writer (ev : event) : bool :=
  match ev with EvJoinWriter _ _ => true | _ => false end.

Definition is_close_session (ev : event) : bool :=
  match ev with EvCloseSession => true | _ => false end.

(** With products on the queue and a positive thread count the main thread
    never enters the except clause, and it reaches the teardown only through
    the join of the writer. *)
Definition normal_path (N : nat) (s : System) : Prop :=
  (0 < count_events is_put_product (history s))%nat -> (0 < N)%nat ->
  match orch s with
  | OExcept _ => False
  | OFinally | OTiming | OReturned =>
      count_events is_product_sentinel (history s) = N
      /\ count_events is_record_sentinel (history s) = 1%nat
      /\ count_events is_join_writer (history s) = 1%nat
  | _ => count_events is_join_writer (history s) = 0%nat
  end.

Definition is_timing_log (ev : event) : bool :=
  match ev with EvTimingLog => true | _ => false end.

(** The teardown happens once, at the very end. *)
Definition teardown_recorded (s : System) : Prop :=
  match orch s with
  | OTiming =>
      count_events is_close_session (history s) = 1%nat
      /\ count_events is_timing_log (history s) = 0%nat
  | OReturned =>
      count_events is_close_session (history s) = 1%nat
      /\ count_events is_timing_log (history s) = 1%nat
  | _ =>
      count_events is_close_session (history s) = 0%nat
      /\ count_events is_timing_log (history s) = 0%nat
  end.

(** The number of steps the main thread still takes once nothing can block
    it any more. *)
Definition orch_rank (o : opc) : option nat :=
  match o with
  | OReturned => Some 0%nat
  | OTiming => Some 1%nat
  | OFinally => Some 2%nat
  | OExcept _ | OJoinWriter => Some 3%nat
  | OPutRecordSentinel => Some 4%nat
  | _ => None
  end.

(** Everything that holds in every reachable state. *)
Definition full_inv (W : World) (cfg : Config) (s : System) : Prop :=
  run_inv (thread_count cfg) s
  /\ sentinels_suffice (thread_count cfg) s
  /\ normal_path (thread_count cfg) s
  /\ teardown_recorded s
  /\ (no_queue_empty W -> feeding_inv s).

(** ** Configuration values read from the environment (config.py) *)

(** [s.split(sep)] for a one-character separator: the pieces between the
    separators, always at least one. *)
Fixpoint split_on (sep : ascii) (s : string) : list string :=
  match s with
  | EmptyString => [EmptyString]
  | String c s' =>
      if Ascii.eqb c sep then EmptyString :: split_on sep s'
      else match split_on sep s' with
           | piece :: pieces => String c piece :: pieces
           | [] => [String c EmptyString]
           end
  end.

(** The number of occurrences of a character. *)
Fixpoint count_char (sep : ascii) (s : string) : nat :=
  match s with
  | EmptyString => 0
  | String c s' => ((if Ascii.eqb c sep then 1 else 0) + count_char sep s')%nat
  end.

(** The default of [os.getenv("SCRAPER_NEEDED_CATEGORIES", ...)], line 23. *)
Definition default_needed_categories : string :=
  "devops,it-infrastructure,data-analytics-and-management".

(** [os.getenv("SCRAPER_NEEDED_CATEGORIES", ...).split(',')], lines 21-24;
    [env_value] is None when the variable is not set. *)
Definition needed_categories_pieces (env_value : option string) : list string :=
  split_on ","%char (default default_needed_categories env_value).

(** [SCRAPER_NEEDED_CATEGORIES], lines 20-25: the [set] of those pieces. *)
Definition config_needed_categories (env_value : option string) : gset string :=
  list_to_set (needed_categories_pieces env_value).

(** [all_links] of [_get_category_links], orchestrator.py lines 79-84. *)
Definition all_links (main_page_tree : HtmlElement) : list (option string) :=
  flat_map (fun btn =>
              match xpath_elements btn button_anchor_xpath with
              | a :: _ => [get_attr a "href"]
              | [] => []
              end)
           (xpath_elements main_page_tree category_buttons_xpath).

(** [p] occurs in [s] as a substring. *)
Definition occurs_in (p s : string) : Prop :=
  exists pre post, s = pre +:+ p +:+ post.

(** The example configuration with another category set. *)
Definition example_config_with (categories : list string) : Config :=
  {| SCRAPER_BASE_URL := "https://example.test";
     SCRAPER_NEEDED_CATEGORIES := categories;
     SCRAPER_TEST_MODE := false;
     TEST_PRODUCT_LIMIT := 3;
     SLEEP_BETWEEN_CATEGORY_PAGES := 1;
     SLEEP_BETWEEN_PRODUCT_PAGES := 1;
     SCRAPER_THREAD_COUNT := 2 |}.

(** ** Reading a category page *)

(** The name a listing entry gets from its link element, orchestrator.py
    lines 110-111. *)
Definition listing_name (product_link_elem : HtmlElement) : string :=
  match xpath_elements product_link_elem listing_name_xpath with
  | name_element :: _ => strip (text_content name_element)
  | [] => "Unknown Product Name"
  end.

(** What one category link contributes in phase 2 (lines 147-153): the
    listing entries of its page, nothing when the page could not be
    fetched. *)
Definition products_of_link (W : World) (cfg : Config) (link : string)
  : list ProductInfo :=
  match scraper_fetch_page W link (SLEEP_BETWEEN_CATEGORY_PAGES cfg) with
  | Ok (Some category_page_tree) =>
      _get_product_links_from_category_page W cfg link category_page_tree
  | _ => []
  end.

Definition category_page_event (W : World) (cfg : Config) (link : string) : event :=
  EvCategoryPage link
    (match scraper_fetch_page W link (SLEEP_BETWEEN_CATEGORY_PAGES cfg) with
     | Ok (Some _) => true
     | _ => false
     end).

(** ** Runs that start no thread *)

(** Neither the writer thread nor a worker was started, both queues are
    empty, and the main thread is in its except or finally clause. *)
Definition nothing_started (s : System) : Prop :=
  workers s = [] /\ writer s = DNotStarted
  /\ product_url_queue s = empty_queue /\ data_to_write_queue s = empty_queue
  /\ match orch s with
     | OExcept _ | OFinally | OTiming | OReturned => True
     | _ => False
     end.

(** The steps the main thread still takes from its except or finally
    clause. *)
Definition teardown_steps (o : opc) : nat :=
  match o with OExcept _ => 3 | OFinally => 2 | OTiming => 1 | _ => 0 end.

Definition is_thread_start (ev : event) : bool :=
  match ev with EvStartWriter | EvSubmit _ => true | _ => false end.

(** ** Fetches of product pages *)

(** The [fetch_page] calls of the workers that returned, for ProductRefs
    satisfying [P]. *)
Definition fetches (P : ProductInfo -> bool) (h : list event) : nat :=
  sum_list_with (fun ev => match ev with
                           | EvFetched _ p _ => indicator (P p)
                           | _ => 0%nat
                           end) h.

Definition about_to_fetch (P : ProductInfo -> bool) (w : wpc) : nat :=
  match w with WFetch p => indicator (P p) | _ => 0%nat end.

(** Every fetch, done or still to come, is paid for by one put on the
    product queue. *)
Definition fetch_budget (P : ProductInfo -> bool) (s : System) : Prop :=
  (fetches P (history s) + sum_list_with (about_to_fetch P) (workers s)
   + queued P (items (product_url_queue s)) <= enqueued P (history s))%nat.

Definition has_url (u : string) (p : ProductInfo) : bool := String.eqb (url p) u.

(** The example configuration in test mode. *)
Definition example_test_config (limit : Z) : Config :=
  {| SCRAPER_BASE_URL := "https://example.test";
     SCRAPER_NEEDED_CATEGORIES := ["devops"; "it-infrastructure"];
     SCRAPER_TEST_MODE := true;
     TEST_PRODUCT_LIMIT := limit;
     SLEEP_BETWEEN_CATEGORY_PAGES := 1;
     SLEEP_BETWEEN_PRODUCT_PAGES := 1;
     SCRAPER_THREAD_COUNT := 2 |}.

(** A database server that refuses connections. *)
Definition unreachable_db_world : World :=
  {| urljoin := urljoin_simple;
     scraper_fetch_page := scraper_fetch_page example_world;
     extractor_extract_product_details := extractor_extract_product_details example_world;
     pg_connect := fun _ => Raise (DatabaseError "OperationalError");
     pg_create_table := Ok tt;
     pg_execute := fun _ => Ok tt |}.

(** ** The products table *)

(** The rows are keyed by their url column and no url occurs twice: the
    UNIQUE NOT NULL constraint of the table. *)
Definition table_ok (t : table) : Prop :=
  NoDup (dict_keys t)
  /\ forall u row, dict_get u t = Some row -> dict_get "url" row = Some u.

(** A record as the workers build it, for the examples. *)
Definition record_a : pydict string :=
  [ ("product_name", "Product A"); ("category", "devops"); ("price_median", "$10");
    ("url", "https://example.test/marketplace/a") ].

(** A later scrape of the same product, with another price and one more
    column. *)
Definition record_a_later : pydict string :=
  [ ("product_name", "Product A"); ("price_median", "$12"); ("price_low", "$5");
    ("url", "https://example.test/marketplace/a") ].

(** A server that enforces the column width of [product_name],
    VARCHAR(255) NOT NULL. *)
Definition strict_db_world : World :=
  {| urljoin := urljoin_simple;
     scraper_fetch_page := scraper_fetch_page example_world;
     extractor_extract_product_details := extractor_extract_product_details example_world;
     pg_connect := fun _ => Ok tt;
     pg_create_table := Ok tt;
     pg_execute := fun product_data =>
       match dict_get "product_name" product_data with
       | Some product_name =>
           if (255 <? String.length product_name)%nat
           then Raise (DatabaseError "StringDataRightTruncation")
           else Ok tt
       | None => Raise (DatabaseError "NotNullViolation")
       end |}.

Fixpoint repeat_char (c : ascii) (n : nat) : string :=
  match n with
  | O => EmptyString
  | S n' => String c (repeat_char c n')
  end.

(** A product whose name has 256 characters, and one more ordinary
    product. *)
Definition record_long_name : pydict string :=
  [ ("product_name", repeat_char "x" 256); ("category", "devops");
    ("price_median", "$7"); ("url", "https://example.test/marketplace/long") ].

Definition record_c : pydict string :=
  [ ("product_name", "Product C"); ("category", "devops"); ("price_median", "$3");
    ("url", "https://example.test/marketplace/c") ].

(** The writer thread just started, the three records and the sentinel
    waiting on the record queue, the products table empty. *)
Definition failed_upsert_system : System :=
  {| product_url_queue := empty_queue;
     data_to_write_queue :=
       mkQueue [Some record_a; Some record_long_name; Some record_c; None] 4;
     workers := [];
     writer := DEnter;
     database := empty_database;
     orch := OJoinWriter;
     history := [] |}.

(** Where the writer's fourteen steps lead from there. *)
Definition failed_upsert_outcome : System :=
  Eval vm_compute in
    match exec strict_db_world (example_config 2) (replicate 14 LWriter)
            failed_upsert_system with
    | Some s => s
    | None => failed_upsert_system
    end.

Definition open_database (rows : table) : Database :=
  mkDatabase rows (Some (mkConnection rows false)) 1.

(** ** The writer's transaction in a run *)

(** The records handed to [insert_product_data] so far, oldest first. *)
Definition inserted (h : list event) : list (pydict string) :=
  omap (fun ev => match ev with EvInsert r _ => Some r | _ => None end) (reverse h).

Definition is_commit (ev : event) : bool :=
  match ev with EvCommit => true | _ => false end.

(** The events of the writer's with block. *)
Definition is_session_event (ev : event) : bool :=
  match ev with
  | EvRecordGet _ | EvRecordGetTimeout | EvInsert _ _ | EvRecordTaskDone
  | EvRecordTaskDoneRaised | EvCommit | EvRollback _ => true
  | _ => false
  end.

(** The writer is inside its with block. *)
Definition in_session (w : dpc) : bool :=
  match w with
  | DGet | DGotNone | DInsert _ | DFinally _ | DExit _ => true
  | _ => false
  end.

(** What the writer's program counter says about the database, for a run
    that started with the committed rows [rows0] after [c0] connection
    attempts. *)
Definition writer_inv (W : World) (rows0 : table) (c0 : nat) (s : System) : Prop :=
  let d := database s in
  let h := history s in
  (orch s = OStartWriter -> writer s = DNotStarted)
  /\ (forall e, pg_connect W c0 = Raise e ->
        count_events is_session_event h = 0%nat /\ in_session (writer s) = false)
  /\ match writer s with
     | DNotStarted | DEnter =>
         conn d = None /\ server_rows d = rows0 /\ connects d = c0
         /\ count_events is_session_event h = 0%nat
     | DGet | DGotNone | DInsert _ | DFinally _ | DExit _ =>
         server_rows d = rows0 /\ count_events is_commit h = 0%nat
         /\ conn d = Some (attempts W (inserted h) (mkConnection rows0 false))
     | DOuter _ | DReturned =>
         conn d = None
         /\ ((count_events is_commit h = 0%nat /\ server_rows d = rows0)
             \/ (count_events is_commit h = 1%nat
                 /\ server_rows d = committed W (inserted h) rows0))
     end.

(** The example run continued until the writer has returned. *)
Definition commit_schedule : list label := example_schedule ++ replicate 8 LWriter.

Definition commit_state : System :=
  Eval vm_compute in
    match exec example_world (example_config 2) commit_schedule
            (init_system example_world (example_config 2) empty_database) with
    | Some s => s
    | None => init_system example_world (example_config 2) empty_database
    end.

(** A database server that accepts the first connection of the run (table
    creation) and refuses the later ones. *)
Definition flaky_db_world : World :=
  {| urljoin := urljoin_simple;
     scraper_fetch_page := scraper_fetch_page example_world;
     extractor_extract_product_details := extractor_extract_product_details example_world;
     pg_connect := fun n =>
       match n with O => Ok tt | S _ => Raise (DatabaseError "OperationalError") end;
     pg_create_table := Ok tt;
     pg_execute := fun _ => Ok tt |}.

Definition flaky_schedule : list label := example_schedule ++ [LWriter; LWriter].

Definition flaky_state : System :=
  Eval vm_compute in
    match exec flaky_db_world (example_config 2) flaky_schedule
            (init_system flaky_db_world (example_config 2) empty_database) with
    | Some s => s
    | None => init_system flaky_db_world (example_config 2) empty_database
    end.

(** ** The writer thread on its own *)

(** The steps the writer needs at most to finish its current iteration. *)
Definition writer_fuel (w : dpc) : nat :=
  match w with
  | DNotStarted | DReturned => 0
  | DOuter _ => 1
  | DExit _ => 2
  | DGet | DGotNone => 3
  | DEnter | DFinally _ => 4
  | DInsert _ => 5
  end.

Definition writer_work_left (s : System) : nat :=
  (3 * length (items (data_to_write_queue s)) + writer_fuel (writer s))%nat.

(** ** Closing the session *)

(** Once the main thread is in its except or finally clause no worker is
    running. *)
Definition pool_done (s : System) : Prop :=
  match orch s with
  | OExcept _ | OFinally | OTiming | OReturned => all_finished (workers s)
  | _ => True
  end.

(** ** The collaborators main.py hands to the orchestrator

    Lines 27-39: a [WebScraper] on the configured base url and a
    [ProductExtractor]; the network and the database server stay those of
    [W0], and [requests_urljoin] is the join of web_scraper.py line 51 with
    its ValueError. *)
Definition shipped_world (requests_urljoin : string -> string -> result string)
    (net : Net) (cfg : Config) (W0 : World) : World :=
  {| urljoin := urljoin W0;
     scraper_fetch_page := fun url sleep_time =>
       (fetch_page requests_urljoin net (SCRAPER_BASE_URL cfg) (Some url) sleep_time).2;
     extractor_extract_product_details := fun product_tree name category =>
       Ok (extract_product_details product_tree name category);
     pg_connect := pg_connect W0;
     pg_create_table := pg_create_table W0;
     pg_execute := pg_execute W0 |}.

(** The columns of a record as a worker puts it on the record queue. *)
Definition record_columns : list string :=
  ["product_name"; "category"; "price_median"; "price_low"; "price_high";
   "description"; "url"].

(** The events of the workers' exception handling. *)
Definition is_handler_event (ev : event) : bool :=
  match ev with
  | EvCaught _ _ _ | EvCaughtEmpty _ _ | EvHandlerTaskDone _ _ | EvWorkerRaised _ _ => true
  | _ => false
  end.

(** An item of the product queue whose url [fetch_page] requests as it
    stands, without a join. *)
Definition absolute (x : option ProductInfo) : Prop :=
  match x with
  | Some p => startswith "/" (url p) = false
  | None => True
  end.

(** A worker on the regular path of its loop. *)
Definition regular (w : wpc) : Prop :=
  match w with
  | WExcept _ | WRaised _ | WBreak (Some _) | WReturned (Some _) => False
  | WFetch p => absolute (Some p)
  | WPut p product_data =>
      dict_keys product_data = record_columns
      /\ dict_get "url" product_data = Some (url p)
  | _ => True
  end.

Definition record_ok (x : option (pydict string)) : Prop :=
  match x with
  | Some product_data =>
      dict_keys product_data = record_columns
      /\ exists u, dict_get "url" product_data = Some u
  | None => True
  end.

Definition record_event_ok (ev : event) : Prop :=
  match ev with
  | EvPutRecord _ product_data => record_ok (Some product_data)
  | _ => True
  end.

Definition regular_run (s : System) : Prop :=
  Forall regular (workers s)
  /\ count_events is_handler_event (history s) = 0%nat
  /\ Forall record_ok (items (data_to_write_queue s))
  /\ Forall record_event_ok (history s)
  /\ Forall absolute (items (product_url_queue s)).

(** ** Whitespace *)

Fixpoint all_space (s : string) : bool :=
  match s with
  | EmptyString => true
  | String c s' => is_space c && all_space s'
  end.

Definition starts_with_space (s : string) : bool :=
  match s with
  | EmptyString => false
  | String c _ => is_space c
  end.

Definition ends_with_space (s : string) : bool := starts_with_space (string_rev s).

(** [v] is the text [t] of the page without the whitespace around it. *)
Definition stripped_of (t v : string) : Prop :=
  (exists pre post,
     t = pre +:+ v +:+ post /\ all_space pre = true /\ all_space post = true)
  /\ starts_with_space v = false
  /\ ends_with_space v = false.

(** The descriptions [extract_product_details] keeps, lines 55-61. *)
Definition extracted_descriptions (product_tree : HtmlElement) : list string :=
  List.filter is_description
    ((fun elem => strip (text_content elem)) <$>
       xpath_elements product_tree description_xpath).

(** ** The record queue's counter *)

(** The writer has taken an item and not yet marked it processed. *)
Definition writer_holding (w : dpc) : nat :=
  match w with
  | DGotNone | DInsert _ | DFinally _ => 1
  | _ => 0
  end.

Definition is_enter_ok (ev : event) : bool :=
  match ev with EvDbEnter true => true | _ => false end.

Definition is_writer_failure (ev : event) : bool :=
  match ev with EvRollback _ | EvRecordTaskDoneRaised => true | _ => false end.

(** [unfinished_tasks] of the record queue counts the waiting items and the
    one the writer holds; the writer leaves its with block only without an
    exception. *)
Definition records_accounted (s : System) : Prop :=
  (orch s = OStartWriter -> writer s = DNotStarted)
  /\ unfinished_tasks (data_to_write_queue s)
     = (length (items (data_to_write_queue s)) + writer_holding (writer s))%nat
  /\ count_events is_writer_failure (history s) = 0%nat
  /\ match writer s with
     | DNotStarted | DEnter =>
         count_events is_enter_ok (history s) = 0%nat
         /\ count_events is_commit (history s) = 0%nat
     | DExit (Some _) => False
     | DGet | DGotNone | DInsert _ | DFinally _ | DExit None =>
         count_events is_enter_ok (history s) = 1%nat
         /\ count_events is_commit (history s) = 0%nat
     | DOuter _ | DReturned =>
         count_events is_enter_ok (history s) = count_events is_commit (history s)
     end.

(** ** From the workers to the table *)

(** The records put on the record queue so far, oldest first. *)
Definition puts (h : list event) : list (pydict string) :=
  omap (fun ev => match ev with EvPutRecord _ r => Some r | _ => None end) (reverse h).

(** The record the writer has taken and not yet handed to the database. *)
Definition in_hand (w : dpc) : list (pydict string) :=
  match w with DInsert product_data => [product_data] | _ => [] end.

Definition is_sentinel_taken (ev : event) : bool :=
  match ev with EvRecordGet None => true | _ => false end.

(** The record queue is first in, first out: what was put is what was
    inserted, then what the writer holds, then what waits; a sentinel comes
    last, and once the writer took it nothing waits. *)
Definition fifo_inv (s : System) : Prop :=
  puts (history s)
  = inserted (history s) ++ in_hand (writer s)
    ++ omap id (items (data_to_write_queue s))
  /\ (count_events is_sentinel_taken (history s)
      <= count_events is_enter_ok (history s))%nat
  /\ exists waiting k,
       items (data_to_write_queue s) = (Some <$> waiting) ++ replicate k None
       /\ (k + count_events is_sentinel_taken (history s)
           = count_events is_record_sentinel (history s))%nat
       /\ ((0 < count_events is_sentinel_taken (history s))%nat -> waiting = []).

(** * Properties *)

(** ** Python dicts *)

Lemma dict_get_set_eq {V} k (v : V) d : dict_get k (dict_set k v d) = Some v.
Proof.
  induction d as [|[k' v'] d IH]; simpl.
  - by rewrite String.eqb_refl.
  - destruct (String.eqb k k') eqn:E; simpl; rewrite E; auto.
Qed.

Lemma dict_get_set_ne {V} k k' (v : V) d :
  k <> k' -> dict_get k' (dict_set k v d) = dict_get k' d.
Proof.
  intros Hne. induction d as [|[k0 v0] d IH]; simpl.
  - destruct (String.eqb k' k) eqn:E; [apply String.eqb_eq in E; congruence | done].
  - destruct (String.eqb k k0) eqn:E; simpl.
    + apply String.eqb_eq in E. subst k0.
      destruct (String.eqb k' k) eqn:E'; [apply String.eqb_eq in E'; congruence | done].
    + by rewrite IH.
Qed.

Lemma dict_keys_set {V} k (v : V) d :
  dict_keys (dict_set k v d) =
  if bool_decide (k ∈ dict_keys d) then dict_keys d else dict_keys d ++ [k].
Proof.
  unfold dict_keys. induction d as [|[k' v'] d IH]; [done|].
  cbn [dict_set]. destruct (String.eqb k k') eqn:E; rewrite !fmap_cons; cbn [fst].
  - apply String.eqb_eq in E. subst. rewrite bool_decide_eq_true_2; [done | left].
  - apply String.eqb_neq in E. rewrite IH.
    destruct (bool_decide (k ∈ d.*1)) eqn:B.
    + apply bool_decide_eq_true in B. rewrite bool_decide_eq_true_2; [done | by right].
    + apply bool_decide_eq_false in B. rewrite bool_decide_eq_false_2; [done |].
      rewrite elem_of_cons. tauto.
Qed.

Lemma dict_get_None {V} k (d : pydict V) : dict_get k d = None <-> k ∉ dict_keys d.
Proof.
  unfold dict_keys. induction d as [|[k' v'] d IH]; simpl.
  - split; [intros _; apply not_elem_of_nil | done].
  - rewrite not_elem_of_cons. destruct (String.eqb k k') eqn:E.
    + apply String.eqb_eq in E. split; [done | tauto].
    + apply String.eqb_neq in E. tauto.
Qed.

Lemma dict_get_elem {V} k (v : V) d :
  NoDup (dict_keys d) -> (k, v) ∈ d -> dict_get k d = Some v.
Proof.
  unfold dict_keys. induction d as [|[k' v'] d IH]; simpl; intros Hnd Hin.
  - by apply elem_of_nil in Hin.
  - apply NoDup_cons in Hnd as [Hk' Hnd]. apply elem_of_cons in Hin as [Heq|Hin].
    + inversion Heq; subst. by rewrite String.eqb_refl.
    + destruct (String.eqb k k') eqn:E; [|auto].
      apply String.eqb_eq in E. subst k'. exfalso. apply Hk'.
      apply list_elem_of_fmap. by exists (k, v).
Qed.

(** ** Deduplication by url *)

Lemma dict_by_url_snoc ps p :
  dict_by_url (ps ++ [p]) = dict_set (url p) p (dict_by_url ps).
Proof. unfold dict_by_url. by rewrite foldl_app. Qed.

Lemma first_occurrences_snoc seen l x :
  first_occurrences seen (l ++ [x]) =
  first_occurrences seen l ++
    (if bool_decide (x ∈ seen ++ l) then [] else [x]).
Proof.
  revert seen. induction l as [|y l IH]; intros seen; simpl.
  - rewrite app_nil_r. by destruct (bool_decide (x ∈ seen)).
  - destruct (bool_decide (y ∈ seen)) eqn:B.
    + rewrite IH. apply bool_decide_eq_true in B.
      replace (bool_decide (x ∈ seen ++ y :: l)) with (bool_decide (x ∈ seen ++ l));
        [done|].
      apply bool_decide_ext. rewrite !elem_of_app, elem_of_cons.
      split; [tauto|]. intros [?|[->|?]]; tauto.
    + simpl. rewrite IH.
      replace (bool_decide (x ∈ seen ++ y :: l))
        with (bool_decide (x ∈ (y :: seen) ++ l)); [done|].
      apply bool_decide_ext. rewrite !elem_of_app, !elem_of_cons. tauto.
Qed.

Lemma elem_of_first_occurrences seen l x :
  x ∈ first_occurrences seen l <-> x ∈ l /\ x ∉ seen.
Proof.
  revert seen. induction l as [|y l IH]; intros seen; simpl.
  - split; [intros H; by apply elem_of_nil in H | intros [H _]; by apply elem_of_nil in H].
  - destruct (bool_decide (y ∈ seen)) eqn:B.
    + apply bool_decide_eq_true in B. rewrite IH, elem_of_cons.
      split; [tauto|]. intros [[->|?] ?]; tauto.
    + apply bool_decide_eq_false in B.
      rewrite !elem_of_cons, IH, not_elem_of_cons.
      split.
      * intros [->|[? [? ?]]]; tauto.
      * intros [[->|?] ?]; [tauto|].
        destruct (decide (x = y)); tauto.
Qed.

Lemma NoDup_first_occurrences seen l : NoDup (first_occurrences seen l).
Proof.
  revert seen. induction l as [|y l IH]; intros seen; simpl; [constructor|].
  destruct (bool_decide (y ∈ seen)); [apply IH|].
  apply NoDup_cons. split; [|apply IH].
  rewrite elem_of_first_occurrences, not_elem_of_cons. tauto.
Qed.

Lemma dict_by_url_keys ps :
  dict_keys (dict_by_url ps) = first_occurrences [] (url <$> ps).
Proof.
  induction ps as [|p ps IH] using rev_ind; [done|].
  rewrite dict_by_url_snoc, dict_keys_set, fmap_app, IH. simpl.
  rewrite first_occurrences_snoc. simpl.
  destruct (bool_decide (url p ∈ url <$> ps)) eqn:B.
  - apply bool_decide_eq_true in B. rewrite bool_decide_eq_true_2, app_nil_r; [done|].
    apply elem_of_first_occurrences. split; [done | apply not_elem_of_nil].
  - apply bool_decide_eq_false in B. rewrite bool_decide_eq_false_2; [done|].
    rewrite elem_of_first_occurrences. tauto.
Qed.

Lemma dict_by_url_keyed ps k q : (k, q) ∈ dict_by_url ps -> k = url q.
Proof.
  revert k q. induction ps as [|p ps IH] using rev_ind; intros k q.
  - intros H. by apply elem_of_nil in H.
  - rewrite dict_by_url_snoc. generalize (dict_by_url ps) IH. clear IH.
    intros d IH. induction d as [|[k' v'] d IHd]; simpl.
    + intros H. apply list_elem_of_singleton in H. by inversion H.
    + destruct (String.eqb (url p) k') eqn:E.
      * apply String.eqb_eq in E. subst k'. intros H.
        apply elem_of_cons in H as [H|H]; [by inversion H|].
        apply IH. by right.
      * intros H. apply elem_of_cons in H as [H|H].
        -- apply IH. rewrite H. left.
        -- apply IHd; [|done]. intros k0 q0 H0. apply IH. by right.
Qed.

Lemma dict_by_url_urls ps :
  url <$> unique_products_to_process ps = first_occurrences [] (url <$> ps).
Proof.
  rewrite <- dict_by_url_keys. unfold unique_products_to_process, dict_values, dict_keys.
  pose proof (dict_by_url_keyed ps) as Hk. revert Hk.
  generalize (dict_by_url ps). intros d Hk.
  induction d as [|[k v] d IH]; simpl; [done|].
  f_equal.
  - symmetry. apply Hk. left.
  - apply IH. intros k0 q0 H0. apply Hk. by right.
Qed.

Lemma last_with_url_snoc u ps p :
  last_with_url u (ps ++ [p]) =
  if String.eqb u (url p) then Some p else last_with_url u ps.
Proof. unfold last_with_url. by rewrite reverse_snoc. Qed.

Lemma dict_by_url_get u ps : dict_get u (dict_by_url ps) = last_with_url u ps.
Proof.
  induction ps as [|p ps IH] using rev_ind; [done|].
  rewrite dict_by_url_snoc, last_with_url_snoc.
  destruct (String.eqb u (url p)) eqn:E.
  - apply String.eqb_eq in E. subst u. apply dict_get_set_eq.
  - apply String.eqb_neq in E. rewrite dict_get_set_ne; [done | congruence].
Qed.

Lemma unique_products_last ps q :
  q ∈ unique_products_to_process ps -> last_with_url (url q) ps = Some q.
Proof.
  unfold unique_products_to_process, dict_values. intros Hq.
  apply list_elem_of_fmap in Hq as [[k v] [-> Hin]]. simpl.
  rewrite <- dict_by_url_get.
  pose proof (dict_by_url_keyed _ _ _ Hin) as ->.
  apply dict_get_elem; [|done].
  rewrite dict_by_url_keys. apply NoDup_first_occurrences.
Qed.

Lemma slice_to_nonneg {A} k (l : list A) : 0 <= k -> slice_to k l = take (Z.to_nat k) l.
Proof. intros H. unfold slice_to. destruct (Z.ltb_spec k 0); [lia | done]. Qed.

Lemma slice_to_neg {A} k (l : list A) :
  k < 0 -> slice_to k l = take (length l - Z.to_nat (- k)) l.
Proof.
  intros H. unfold slice_to. destruct (Z.ltb_spec k 0); [|lia]. f_equal. lia.
Qed.

(** ** Deduplication and the test-mode cap (C3, C10) *)

(** C3 (amended).  The deduplicated collection has exactly one entry per
    distinct url of the discovered sequence, and that entry is the last
    ProductRef discovered with that url (so its name and category are the
    last-seen ones); in test mode with a non-negative configured maximum the
    products put on the queue are the first that-many deduplicated entries,
    hence at most that many. *)
Theorem dedup_last_wins_and_cap (ps : list ProductInfo) (test_product_limit : Z)
    (Hlimit : 0 <= test_product_limit) :
  NoDup (url <$> unique_products_to_process ps)
  /\ (forall u, u ∈ url <$> unique_products_to_process ps <-> u ∈ url <$> ps)
  /\ (forall q, q ∈ unique_products_to_process ps <->
                  q ∈ ps /\ last_with_url (url q) ps = Some q)
  /\ products_to_queue true test_product_limit ps =
       take (Z.to_nat test_product_limit) (unique_products_to_process ps)
  /\ Z.of_nat (length (products_to_queue true test_product_limit ps))
       <= test_product_limit.
Proof.
  assert (Hq : products_to_queue true test_product_limit ps =
               take (Z.to_nat test_product_limit) (unique_products_to_process ps)).
  { unfold products_to_queue. by apply slice_to_nonneg. }
  split; [|split; [|split; [|split]]].
  - rewrite dict_by_url_urls. apply NoDup_first_occurrences.
  - intros u. rewrite dict_by_url_urls, elem_of_first_occurrences.
    split; [tauto|]. intros H. split; [done | apply not_elem_of_nil].
  - intros q. split.
    + intros Hin. pose proof (unique_products_last _ _ Hin) as Hlast.
      split; [|done]. unfold last_with_url in Hlast.
      apply find_some in Hlast as [Hlast _].
      apply list_elem_of_In in Hlast. by rewrite elem_of_reverse in Hlast.
    + intros [Hin Hlast]. rewrite <- dict_by_url_get in Hlast.
      unfold unique_products_to_process, dict_values.
      apply list_elem_of_fmap. exists (url q, q). split; [done|].
      clear Hin. induction (dict_by_url ps) as [|[k v] dct IH]; simpl in Hlast; [done|].
      destruct (String.eqb (url q) k) eqn:E.
      * apply String.eqb_eq in E. inversion Hlast; subst. left.
      * right. auto.
  - exact Hq.
  - rewrite Hq, length_take. lia.
Qed.

Lemma dedup_last_wins_and_cap_witness :
  unique_products_to_process [ref_a; ref_a_dup; ref_b] = [ref_a_dup; ref_b]
  /\ Z.of_nat (length (products_to_queue true 1 [ref_a; ref_a_dup; ref_b])) <= 1.
Proof.
  split; [reflexivity|].
  apply (dedup_last_wins_and_cap [ref_a; ref_a_dup; ref_b] 1). lia.
Defined.

(** C3 as stated fails for a negative configured maximum: with the limit
    set to -1 the slice drops only the last entry, and two products are
    queued. *)
Lemma dedup_cap_negative_limit_counterexample :
  ~ (Z.of_nat (length (products_to_queue true (-1) [ref_a; ref_b; ref_c])) <= -1).
Proof. vm_compute. intros H. apply H. reflexivity. Qed.

(** C10 (amended).  The deduplicated collection lists the distinct urls in
    the order of their first discovery, each with the fields of its last
    occurrence, and the test-mode truncation keeps a prefix of that order:
    the first cap-many urls for a non-negative cap (all of them when there
    are fewer), and all but the last |cap| for a negative cap. *)
Theorem dedup_keeps_discovery_order (ps : list ProductInfo) (cap : Z) :
  let firsts := first_occurrences [] (url <$> ps) in
  url <$> unique_products_to_process ps = firsts
  /\ (forall q, q ∈ unique_products_to_process ps -> last_with_url (url q) ps = Some q)
  /\ url <$> products_to_queue true cap ps =
       take (if cap <? 0 then length firsts - Z.to_nat (- cap) else Z.to_nat cap) firsts
  /\ url <$> products_to_queue false cap ps = firsts.
Proof.
  simpl. split; [apply dict_by_url_urls|]. split; [apply unique_products_last|].
  split; [|apply dict_by_url_urls].
  unfold products_to_queue. rewrite <- dict_by_url_urls, length_fmap.
  destruct (Z.ltb_spec cap 0).
  - by rewrite slice_to_neg, fmap_take.
  - by rewrite slice_to_nonneg, fmap_take.
Qed.

(** C10 as stated fails for a negative cap: with cap -1 the queue holds the
    first two of three distinct urls, which is not the first cap-many. *)
Lemma dedup_order_negative_cap_counterexample :
  ~ (url <$> products_to_queue true (-1) [ref_a; ref_b; ref_c] =
     take (Z.to_nat (-1)) (first_occurrences [] (url <$> [ref_a; ref_b; ref_c]))).
Proof. vm_compute. discriminate. Qed.

(** ** The extractor (C9) *)

(** C9.  [extract_product_details] is a total function of the parsed page
    and the two fallbacks (the embedding is a plain function, with no error
    result and no state): the record it returns always has exactly the six
    string-valued fields; product_name and category are the listing
    fallbacks when the page has no heading, respectively no breadcrumb; the
    three prices are "Not specified" and the description is "No detailed
    description found." when their elements are absent. *)
Theorem extract_product_details_defaults (product_tree : HtmlElement)
    (listing_product_name listing_category : string) :
  let r := extract_product_details product_tree listing_product_name listing_category in
  dict_keys r =
    ["product_name"; "category"; "price_median"; "price_low"; "price_high";
     "description"]
  /\ (forall k, k ∈ dict_keys r -> exists v : string, dict_get k r = Some v)
  /\ (xpath_text product_tree product_name_detail_xpath = [] ->
      dict_get "product_name" r = Some listing_product_name)
  /\ (xpath_text product_tree category_detail_xpath = [] ->
      dict_get "category" r = Some listing_category)
  /\ (xpath_text product_tree median_price_xpath = [] ->
      dict_get "price_median" r = Some "Not specified")
  /\ (xpath_elements product_tree price_range_container_xpath = [] ->
      dict_get "price_low" r = Some "Not specified"
      /\ dict_get "price_high" r = Some "Not specified")
  /\ (forall container rest,
        xpath_elements product_tree price_range_container_xpath = container :: rest ->
        (xpath_text container low_price_xpath_relative = [] ->
         dict_get "price_low" r = Some "Not specified")
        /\ (xpath_text container high_price_xpath_relative = [] ->
            dict_get "price_high" r = Some "Not specified"))
  /\ (xpath_elements product_tree description_xpath = [] ->
      dict_get "description" r = Some "No detailed description found.").
Proof.
  intros r.
  assert (Hkeys : dict_keys r =
    ["product_name"; "category"; "price_median"; "price_low"; "price_high";
     "description"]).
  { subst r. unfold extract_product_details. repeat case_match; reflexivity. }
  split; [exact Hkeys|]. split.
  { intros k Hk. destruct (dict_get k r) as [v|] eqn:E; [eauto|].
    apply dict_get_None in E. done. }
  subst r. unfold extract_product_details.
  repeat split; intros;
    repeat match goal with H : _ = _ |- _ => progress rewrite H end; simpl;
    repeat case_match; simplify_eq; try reflexivity; congruence.
Qed.

Lemma extract_product_details_defaults_witness :
  let r := extract_product_details bare_page "Listed name" "devops" in
  dict_get "product_name" r = Some "Listed name"
  /\ dict_get "category" r = Some "devops"
  /\ dict_get "price_median" r = Some "Not specified"
  /\ dict_get "price_low" r = Some "Not specified"
  /\ dict_get "price_high" r = Some "Not specified"
  /\ dict_get "description" r = Some "No detailed description found.".
Proof.
  destruct (extract_product_details_defaults bare_page "Listed name" "devops")
    as (_ & _ & Hn & Hc & Hm & Hr & _ & Hd).
  intros r. subst r.
  split; [apply Hn; reflexivity|]. split; [apply Hc; reflexivity|].
  split; [apply Hm; reflexivity|]. split; [apply Hr; reflexivity|].
  split; [apply Hr | apply Hd]; reflexivity.
Defined.

(** On a page that has the elements, the fields are read from it and
    stripped; a description box that opens with "what is" is skipped. *)
Example extract_product_details_detail_page :
  extract_product_details (detail_page " Product A " "$10" "$5" "$20") "A-dup" "devops" =
    [ ("product_name", "Product A"); ("category", "devops");
      ("price_median", "$10"); ("price_low", "$5"); ("price_high", "$20");
      ("description", "A managed build service for small teams.") ].
Proof. vm_compute. reflexivity. Qed.

(** ** The fetcher (C8) *)

(** C8 (amended).  [fetch_page] sleeps for the pacing delay, when it is
    positive, before anything else.  A url that begins with a slash is
    resolved by joining it to the configured base, every other url is taken
    as given.  When the url resolves, [fetch_page] issues exactly one
    request, to the resolved url and with a timeout of 10 seconds, and it
    does not raise: it returns None when the request raises, when the
    status is 4xx or 5xx and when the parser raises, and the parsed tree
    otherwise. *)
Theorem fetch_page_contract (urljoin : string -> string -> result string) (net : Net)
    (base_url url : string) (sleep_time : Z) :
  let slept := if 0 <? sleep_time then [IoSleep sleep_time] else [] in
  let out := fetch_page urljoin net base_url (Some url) sleep_time in
  (exists rest, out.1 = slept ++ rest)
  /\ (startswith "/" url = true ->
      full_url_of urljoin base_url (Some url) = urljoin base_url url)
  /\ (startswith "/" url = false -> full_url_of urljoin base_url (Some url) = Ok url)
  /\ (forall full_url, full_url_of urljoin base_url (Some url) = Ok full_url ->
        (exists log, out.1 = slept ++ [IoGet full_url 10; log])
        /\ (forall e, out.2 <> Raise e)
        /\ (forall e, session_get net full_url = Raise e -> out.2 = Ok None)
        /\ (forall response, session_get net full_url = Ok response ->
              400 <= status_code response < 600 -> out.2 = Ok None)
        /\ (forall response e, session_get net full_url = Ok response ->
              html_fromstring net (content response) = Raise e -> out.2 = Ok None)
        /\ (forall response tree, session_get net full_url = Ok response ->
              ~ (400 <= status_code response < 600) ->
              html_fromstring net (content response) = Ok tree ->
              out.2 = Ok (Some tree))).
Proof.
  intros slept out. subst out slept. unfold fetch_page, request_timeout.
  split.
  { destruct (full_url_of urljoin base_url (Some url)) as [full_url|e];
      [|exists []; simpl; by rewrite app_nil_r].
    destruct (fetch_page_try net _) as [tree|[]]; simpl; eauto. }
  split; [unfold full_url_of; by intros ->|].
  split; [unfold full_url_of; by intros ->|].
  intros full_url ->. split.
  { destruct (fetch_page_try net _) as [tree|[]]; simpl; eauto. }
  split.
  { intros e. destruct (fetch_page_try net _) as [tree|[]]; simpl; discriminate. }
  unfold fetch_page_try, raise_for_status.
  repeat split.
  - intros e ->. by destruct e.
  - intros response -> [Hlo Hhi].
    apply Z.leb_le in Hlo. apply Z.ltb_lt in Hhi. by rewrite Hlo, Hhi.
  - intros response e -> ->.
    destruct ((400 <=? status_code response) && (status_code response <? 600));
      simpl; by destruct e.
  - intros response tree -> Hstatus ->.
    destruct ((400 <=? status_code response) && (status_code response <? 600)) eqn:E;
      [|done].
    apply andb_true_iff in E as [Hlo Hhi].
    apply Z.leb_le in Hlo. apply Z.ltb_lt in Hhi. lia.
Qed.

Lemma fetch_page_contract_witness :
  (fetch_page example_urljoin example_net "https://example.test" (Some "/marketplace/b")
     2).2
  = Ok None.
Proof.
  destruct (fetch_page_contract example_urljoin example_net "https://example.test"
              "/marketplace/b" 2) as (_ & _ & _ & Hresolved).
  destruct (Hresolved "https://example.test/marketplace/b")
    as (_ & _ & _ & Hstatus & _); [vm_compute; reflexivity|].
  apply (Hstatus (mkResponse 404 "")); [vm_compute; reflexivity | simpl; lia].
Defined.

(** The whole trace of that call: the sleep, the request, the error log. *)
Example fetch_page_not_found :
  fetch_page example_urljoin example_net "https://example.test" (Some "/marketplace/b") 2 =
    ([IoSleep 2; IoGet "https://example.test/marketplace/b" 10; IoLogNetworkError],
     Ok None).
Proof. vm_compute. reflexivity. Qed.

(** C8 as stated fails for a relative url without a leading slash: it is
    requested as it stands, not joined to the base. *)
Lemma fetch_page_relative_url_counterexample :
  ~ (full_url_of example_urljoin "https://example.test" (Some "marketplace/a") =
     example_urljoin "https://example.test" "marketplace/a").
Proof. vm_compute. discriminate. Qed.

(** What then happens: requests rejects the url and the fetch fails. *)
Example fetch_page_relative_url :
  fetch_page example_urljoin example_net "https://example.test" (Some "marketplace/a") 0 =
    ([IoGet "marketplace/a" 10; IoLogNetworkError], Ok None).
Proof. vm_compute. reflexivity. Qed.

(** When the url does not resolve, the except clause that catches the
    error reads [full_url] before it was bound: [fetch_page] raises, after
    the sleep and without a request. *)
Lemma fetch_page_unresolved urljoin net base_url url sleep_time e :
  full_url_of urljoin base_url url = Raise e ->
  fetch_page urljoin net base_url url sleep_time
  = (if 0 <? sleep_time then [IoSleep sleep_time] else [],
     Raise (OtherException "UnboundLocalError")).
Proof. intros H. unfold fetch_page. by rewrite H. Qed.

(** The only exception [fetch_page] raises. *)
Lemma fetch_page_raises urljoin net base_url url sleep_time e :
  (fetch_page urljoin net base_url url sleep_time).2 = Raise e ->
  e = OtherException "UnboundLocalError"
  /\ exists e', full_url_of urljoin base_url url = Raise e'.
Proof.
  unfold fetch_page. destruct (full_url_of urljoin base_url url) as [full_url|e'].
  - by destruct (fetch_page_try net full_url) as [tree|[]].
  - simpl. intros [= <-]. eauto.
Qed.

(** A reference that urljoin cannot parse, and a url that is None. *)
Example fetch_page_bad_reference :
  fetch_page (fun _ _ => Raise ValueError) example_net "https://example.test"
    (Some "//[devops") 2
  = ([IoSleep 2], Raise (OtherException "UnboundLocalError")).
Proof. vm_compute. reflexivity. Qed.

Example fetch_page_none :
  fetch_page example_urljoin example_net "https://example.test" None 0
  = ([], Raise (OtherException "UnboundLocalError")).
Proof. vm_compute. reflexivity. Qed.

(** ** Schedules and invariants *)

Lemma exec_app W cfg l1 l2 s :
  exec W cfg (l1 ++ l2) s =
  match exec W cfg l1 s with Some s' => exec W cfg l2 s' | None => None end.
Proof.
  revert s. induction l1 as [|l l1 IH]; intros s; simpl; [done|].
  destruct (step W cfg l s); [apply IH | done].
Qed.

Lemma exec_invariant W cfg (Inv : System -> Prop) :
  (forall l s s', Inv s -> step W cfg l s = Some s' -> Inv s') ->
  forall schedule s s', Inv s -> exec W cfg schedule s = Some s' -> Inv s'.
Proof.
  intros Hstep schedule. induction schedule as [|l ls IH]; intros s s' Hs He; simpl in He.
  - by inversion He; subst.
  - destruct (step W cfg l s) as [s1|] eqn:E; [|done]. eauto.
Qed.

Lemma sum_list_with_insert {A} (f : A -> nat) (l : list A) i x y :
  l !! i = Some x ->
  (sum_list_with f (<[i:=y]> l) + f x = sum_list_with f l + f y)%nat.
Proof.
  revert i. induction l as [|a l IH]; intros i Hi; [done|].
  destruct i as [|i]; simpl in *.
  - inversion Hi; subst. lia.
  - specialize (IH i Hi). lia.
Qed.

Lemma sum_list_with_snoc {A} (f : A -> nat) (l : list A) x :
  sum_list_with f (l ++ [x]) = (sum_list_with f l + f x)%nat.
Proof. rewrite sum_list_with_app. simpl. lia. Qed.

Lemma held_le_holding P w : (held P w <= holding w)%nat.
Proof.
  destruct w as [| |p|p t|p r|p|[p|]|[p|]|[p|]|e]; simpl;
    try destruct (P p); simpl; lia.
Qed.

Lemma sum_held_le_holding P ws :
  (sum_list_with (held P) ws <= sum_list_with holding ws)%nat.
Proof.
  induction ws as [|w ws IH]; simpl; [lia|].
  pose proof (held_le_holding P w). lia.
Qed.

Lemma queued_le_length P l : (queued P l <= length l)%nat.
Proof.
  unfold queued. induction l as [|[p|] l IH]; simpl; try destruct (P p); simpl; lia.
Qed.

(** Inverting one step of a thread. *)
Ltac invert_worker_step H :=
  match type of H with
  | scrape_product_worker _ _ _ ?pc _ _ = Some _ =>
      destruct pc as [| |?p|?p ?tree|?p ?r|?p|?x|?x|?x|?e];
      cbn [scrape_product_worker] in H; unfold body_raised, get, task_done in H;
      repeat case_match; simplify_eq
  end.

Ltac use_items :=
  repeat match goal with
         | H : items ?q = _ |- context [items ?q] => rewrite H
         | H : items ?q = _, H' : context [items ?q] |- _ => rewrite H in H'
         end.

Lemma step_worker_inv W cfg i s s' :
  step W cfg (LWorker i) s = Some s' ->
  exists pc pc' q r ev,
    workers s !! i = Some pc
    /\ scrape_product_worker W (SLEEP_BETWEEN_PRODUCT_PAGES cfg) i pc
         (product_url_queue s) (data_to_write_queue s) = Some (pc', q, r, ev)
    /\ s' = mkSystem q r (<[i := pc']> (workers s)) (writer s) (database s) (orch s)
              (ev :: history s).
Proof.
  simpl. destruct (workers s !! i) as [pc|] eqn:E; [|done].
  destruct (scrape_product_worker _ _ _ _ _ _) as [[[[pc' q] r] ev]|] eqn:E2; [|done].
  intros H. inversion H; subst. by exists pc, pc', q, r, ev.
Qed.

Lemma step_writer_inv W cfg s s' :
  step W cfg LWriter s = Some s' ->
  exists pc' r d ev,
    database_writer_worker W (writer s) (data_to_write_queue s) (database s)
      = Some (pc', r, d, ev)
    /\ s' = mkSystem (product_url_queue s) r (workers s) pc' d (orch s) (ev :: history s).
Proof.
  simpl. destruct (database_writer_worker _ _ _ _) as [[[[pc' r] d] ev]|] eqn:E; [|done].
  intros H. inversion H; subst. by exists pc', r, d, ev.
Qed.

(** The writer's events are none of those the bookkeeping counts. *)
Lemma writer_event_neutral W pc r d pc' r' d' ev :
  database_writer_worker W pc r d = Some (pc', r', d', ev) ->
  marks_processed ev = None
  /\ is_product_sentinel ev = false /\ is_record_sentinel ev = false
  /\ is_record_put ev = false /\ (forall i, exit_of i ev = false)
  /\ (forall P, enqueued P [ev] = 0%nat).
Proof.
  destruct pc; simpl; intros H;
    repeat (match type of H with
            | context [match ?c with _ => _ end] => destruct c eqn:?; simpl in H
            end);
    try discriminate H; inversion H; subst; done.
Qed.

Lemma step_slots_accounted W cfg l s s' :
  slots_accounted s -> step W cfg l s = Some s' -> slots_accounted s'.
Proof.
  unfold slots_accounted. intros Hs Hstep. destruct l as [|i|].
  - simpl in Hstep. unfold run_scraping in Hstep.
    destruct (orch s); simpl in Hstep;
      repeat (match type of Hstep with
              | context [if ?c then _ else _] => destruct c eqn:?; simpl in Hstep
              end);
      try discriminate Hstep; inversion Hstep; subst; clear Hstep; simpl;
      rewrite ?sum_list_with_snoc, ?length_app; simpl; lia.
  - apply step_worker_inv in Hstep as (pc & pc' & q & r & ev & Hi & Hw & ->). simpl.
    pose proof (sum_list_with_insert holding _ _ _ pc' Hi) as Hsum.
    invert_worker_step Hw; simpl in *; simplify_eq/=; use_items; simpl in *; lia.
  - apply step_writer_inv in Hstep as (pc' & r & d & ev & Hw & ->). simpl. done.
Qed.

Ltac invert_orch_step H :=
  match type of H with
  | run_scraping _ ?s = Some _ =>
      unfold run_scraping in H;
      let Ho := fresh "Horch" in
      destruct (orch s) eqn:Ho; simpl in H;
      repeat case_match; simplify_eq
  end.

Ltac invert_writer_step H :=
  match type of H with
  | database_writer_worker _ ?pc _ _ = Some _ =>
      destruct pc; cbn [database_writer_worker] in H;
      unfold get, task_done in H; repeat case_match; simplify_eq
  end.

Lemma holding_of_member ws i pc :
  ws !! i = Some pc -> (holding pc <= sum_list_with holding ws)%nat.
Proof.
  intros Hi. apply sum_list_with_in. apply list_elem_of_lookup. by exists i.
Qed.

Lemma step_refs_accounted W cfg P total l s s' :
  slots_accounted s -> refs_accounted P total s ->
  step W cfg l s = Some s' -> refs_accounted P total s'.
Proof.
  unfold slots_accounted, refs_accounted. intros Hslots Hs Hstep. destruct l as [|i|].
  - simpl in Hstep. invert_orch_step Hstep; simpl;
      unfold queued in *; rewrite ?sum_list_with_snoc; simpl; lia.
  - apply step_worker_inv in Hstep as (pc & pc' & q & r & ev & Hi & Hw & ->). simpl.
    pose proof (sum_list_with_insert (held P) _ _ _ pc' Hi) as Hsum.
    pose proof (holding_of_member _ _ _ Hi) as Hmem.
    unfold queued, processed in *.
    invert_worker_step Hw; simpl in *; repeat case_match; simplify_eq/=;
      use_items; simpl in *; lia.
  - apply step_writer_inv in Hstep as (pc' & r & d & ev & Hw & ->). simpl.
    apply writer_event_neutral in Hw as (Hm & _). unfold processed in *. simpl.
    rewrite Hm. lia.
Qed.

(** No step of the concurrent phase enqueues a ProductRef. *)
Lemma step_history W cfg l s s' :
  step W cfg l s = Some s' ->
  exists ev, history s' = ev :: history s /\ forall P, enqueued P [ev] = 0%nat.
Proof.
  intros Hstep. destruct l as [|i|].
  - simpl in Hstep. invert_orch_step Hstep; eexists; split; simpl; done.
  - apply step_worker_inv in Hstep as (pc & pc' & q & r & ev & Hi & Hw & ->).
    exists ev. split; [done|]. intros P.
    invert_worker_step Hw; done.
  - apply step_writer_inv in Hstep as (pc' & r & d & ev & Hw & ->).
    exists ev. split; [done|]. by apply writer_event_neutral in Hw as (_ & _ & _ & _ & _ & ?).
Qed.

Lemma enqueued_cons P ev h :
  enqueued P (ev :: h) = (enqueued P [ev] + enqueued P h)%nat.
Proof. unfold enqueued. simpl. lia. Qed.

Lemma processed_cons_ge P ev h : (processed P h <= processed P (ev :: h))%nat.
Proof. unfold processed. simpl. lia. Qed.

Lemma all_finished_lookup ws i pc :
  all_finished ws -> ws !! i = Some pc -> worker_finished pc = true.
Proof.
  unfold all_finished. rewrite forallb_forall. intros H Hi. apply H.
  apply list_elem_of_In, list_elem_of_lookup. by exists i.
Qed.

Lemma finished_no_step W sl i pc q r :
  worker_finished pc = true -> scrape_product_worker W sl i pc q r = None.
Proof. by destruct pc. Qed.

Lemma cons_split_inv {A} (ev x : A) h later earlier :
  ev :: h = later ++ x :: earlier ->
  (later = [] /\ ev = x /\ h = earlier)
  \/ (exists later', later = ev :: later' /\ h = later' ++ x :: earlier).
Proof.
  destruct later as [|y later]; simpl; intros H; inversion H; subst; eauto.
Qed.

Lemma all_processed_step W cfg l s s' :
  (forall P, refs_accounted P (enqueued P (history s')) s') ->
  step W cfg l s = Some s' ->
  all_processed (history s) -> all_processed (history s').
Proof.
  intros Hrefs Hstep Hall P.
  destruct (step_history _ _ _ _ _ Hstep) as (ev & Hh & Hev).
  specialize (Hrefs P). unfold refs_accounted in Hrefs.
  rewrite Hh in *. rewrite enqueued_cons, Hev in *. simpl in *.
  pose proof (processed_cons_ge P ev (history s)). specialize (Hall P). lia.
Qed.

Lemma joined_all_processed P s :
  slots_accounted s -> refs_accounted P (enqueued P (history s)) s ->
  unfinished_tasks (product_url_queue s) = 0%nat ->
  processed P (history s) = enqueued P (history s).
Proof.
  unfold slots_accounted, refs_accounted. intros Hs Hr H0.
  pose proof (queued_le_length P (items (product_url_queue s))).
  pose proof (sum_held_le_holding P (workers s)). lia.
Qed.

Lemma count_events_cons f ev h :
  count_events f (ev :: h) = (indicator (f ev) + count_events f h)%nat.
Proof. done. Qed.

Lemma step_orch_inv W cfg l s s' :
  slots_accounted s ->
  (forall P, refs_accounted P (enqueued P (history s)) s) ->
  (forall P, refs_accounted P (enqueued P (history s')) s') ->
  orch_inv (thread_count cfg) s ->
  step W cfg l s = Some s' -> orch_inv (thread_count cfg) s'.
Proof.
  intros Hslots Hrefs Hrefs' Hinv Hstep.
  pose proof (all_processed_step _ _ _ _ _ Hrefs' Hstep) as Hall.
  destruct l as [|i|].
  - simpl in Hstep.
    invert_orch_step Hstep; unfold orch_inv in *; simpl in *; rewrite Horch in Hinv;
      rewrite ?count_events_cons; simpl; rewrite ?length_app; simpl;
      repeat match goal with
             | H : (_ <? _)%nat = true |- _ => apply Nat.ltb_lt in H
             | H : (_ <? _)%nat = false |- _ => apply Nat.ltb_ge in H
             | H : (_ <=? _) = true |- _ => apply Z.leb_le in H
             | H : (_ <=? _) = false |- _ => apply Z.leb_gt in H
             end;
      unfold thread_count in *; try (intuition (auto; lia)).
    + (* join() returned *)
      destruct Hinv as (? & ? & ? & ?). repeat split; try lia.
      intros P. change (processed P (EvProductsJoined :: history s))
        with (processed P (history s)).
      rewrite enqueued_cons. simpl. apply (joined_all_processed P s); auto.
      unfold join_ready in *. by apply bool_decide_eq_true in H.
  - pose proof Hstep as Hstep0.
    apply step_worker_inv in Hstep as (pc & pc' & q & r & ev & Hi & Hw & ->).
    assert (Hev : is_product_sentinel ev = false /\ is_record_sentinel ev = false).
    { clear -Hw. invert_worker_step Hw; done. }
    destruct Hev as [Hev1 Hev2].
    assert (Hnf : all_finished (workers s) -> False).
    { intros Hf. pose proof (all_finished_lookup _ _ _ Hf Hi) as Hfin.
      rewrite (finished_no_step _ _ _ _ _ _ Hfin) in Hw. done. }
    unfold orch_inv in *. cbn [history workers orch] in *.
    rewrite !count_events_cons, Hev1, Hev2, length_insert. simpl.
    destruct (orch s); intuition.
  - pose proof Hstep as Hstep0.
    apply step_writer_inv in Hstep as (pc' & r & d & ev & Hw & ->).
    apply writer_event_neutral in Hw as (_ & Hev1 & Hev2 & _).
    unfold orch_inv in *. cbn [history workers orch] in *.
    rewrite !count_events_cons, Hev1, Hev2. simpl.
    destruct (orch s); intuition.
Qed.

Lemma step_exits_recorded W cfg l s s' :
  exits_recorded s -> step W cfg l s = Some s' -> exits_recorded s'.
Proof.
  unfold exits_recorded. intros Hs Hstep. destruct l as [|i|].
  - simpl in Hstep.
    assert (Hh : exists ev, history s' = ev :: history s
                 /\ (workers s' = workers s \/ workers s' = workers s ++ [WGet])).
    { invert_orch_step Hstep; simpl; eauto. }
    destruct Hh as (ev & Hh & Hws). intros j w Hj Hfin. rewrite Hh.
    destruct Hws as [Hws|Hws]; rewrite Hws in Hj.
    + destruct (Hs j w Hj Hfin) as (ev' & ? & ?). exists ev'. split; [by right | done].
    + apply lookup_app_Some in Hj as [Hj|[_ Hj]].
      * destruct (Hs j w Hj Hfin) as (ev' & ? & ?). exists ev'. split; [by right | done].
      * apply list_lookup_singleton_Some in Hj as [_ <-]. done.
  - apply step_worker_inv in Hstep as (pc & pc' & q & r & ev & Hi & Hw & ->). simpl.
    intros j w Hj Hfin. destruct (decide (i = j)) as [->|Hne].
    + rewrite list_lookup_insert_eq in Hj by (by eapply lookup_lt_Some).
      inversion Hj; subst w. exists ev. split; [left|].
      invert_worker_step Hw; simpl in *; try done; by apply bool_decide_eq_true.
    + rewrite list_lookup_insert_ne in Hj by done.
      destruct (Hs j w Hj Hfin) as (ev' & ? & ?). exists ev'. split; [by right | done].
  - apply step_writer_inv in Hstep as (pc' & r & d & ev & Hw & ->). simpl.
    intros j w Hj Hfin. destruct (Hs j w Hj Hfin) as (ev' & ? & ?).
    exists ev'. split; [by right | done].
Qed.

Lemma step_sentinels_in_order W cfg l s s' :
  orch_inv (thread_count cfg) s -> exits_recorded s ->
  sentinels_in_order (thread_count cfg) s ->
  step W cfg l s = Some s' -> sentinels_in_order (thread_count cfg) s'.
Proof.
  intros Hinv Hex [Hp Hr] Hstep.
  assert (Hh : exists ev, history s' = ev :: history s
     /\ (forall P, enqueued P [ev] = 0%nat)
     /\ (ev = EvPutProductSentinel -> all_processed (history s))
     /\ (ev = EvPutRecordSentinel ->
         length (workers s) = thread_count cfg /\ all_finished (workers s))).
  { destruct l as [|i|].
    - simpl in Hstep.
      invert_orch_step Hstep; unfold orch_inv in Hinv; rewrite Horch in Hinv; simpl;
        eexists; (split; [done|]); (split; [done|]); split; intros; try done; tauto.
    - apply step_worker_inv in Hstep as (pc & pc' & q & r & ev & Hi & Hw & ->).
      exists ev. split; [done|]. clear -Hw.
      invert_worker_step Hw; (split; [done|]); split; intros; done.
    - apply step_writer_inv in Hstep as (pc' & r & d & ev & Hw & ->).
      exists ev. split; [done|]. clear -Hw.
      invert_writer_step Hw; (split; [done|]); split; intros; done. }
  destruct Hh as (ev & Hh & Henq & Hevp & Hevr). unfold sentinels_in_order.
  rewrite Hh. split.
  - intros later earlier Hsplit.
    apply cons_split_inv in Hsplit as [(-> & -> & <-)|(later' & -> & Hsplit)]; eauto.
    destruct (Hp _ _ Hsplit) as [Hall Hlater]. split; [done|].
    intros P. by rewrite enqueued_cons, Henq, Hlater.
  - intros later earlier Hsplit i Hi.
    apply cons_split_inv in Hsplit as [(-> & -> & <-)|(later' & -> & Hsplit)]; eauto.
    destruct (Hevr eq_refl) as [Hlen Hfin].
    destruct (lookup_lt_is_Some_2 (workers s) i) as [w Hw]; [lia|].
    eapply Hex; [done|]. by eapply all_finished_lookup.
Qed.

Lemma step_run_inv W cfg l s s' :
  run_inv (thread_count cfg) s -> step W cfg l s = Some s' ->
  run_inv (thread_count cfg) s'.
Proof.
  intros (Hslots & Hrefs & Hinv & Hex & Hord) Hstep.
  assert (Hrefs' : forall P, refs_accounted P (enqueued P (history s')) s').
  { intros P. destruct (step_history _ _ _ _ _ Hstep) as (ev & Hh & Hev).
    rewrite Hh, enqueued_cons, Hev. simpl. eapply step_refs_accounted; eauto. }
  split; [|split; [|split; [|split]]].
  - eapply step_slots_accounted; eauto.
  - done.
  - eapply step_orch_inv; eauto.
  - eapply step_exits_recorded; eauto.
  - eapply step_sentinels_in_order; eauto.
Qed.

(** ** The state after discovery satisfies the invariant *)

Lemma scrape_category_pages_events W cfg links evs r :
  scrape_category_pages W cfg links = (evs, r) ->
  Forall (fun ev => exists link found, ev = EvCategoryPage link found) evs.
Proof.
  revert evs r. induction links as [|link links IH]; intros evs r; simpl.
  - intros H. inversion H; subst. constructor.
  - destruct (scraper_fetch_page W link _) as [[tree|]|e].
    + destruct (scrape_category_pages W cfg links) as [evs' r'].
      intros H. inversion H; subst. constructor; eauto.
    + destruct (scrape_category_pages W cfg links) as [evs' r'].
      intros H. inversion H; subst. constructor; eauto.
    + intros H. inversion H; subst. constructor.
Qed.

Lemma sum_list_with_zero {A} (f : A -> nat) (Q : A -> Prop) l :
  Forall Q l -> (forall x, Q x -> f x = 0%nat) -> sum_list_with f l = 0%nat.
Proof.
  intros Hl Hf. induction Hl as [|x l Hx Hl IH]; simpl; [done|].
  rewrite (Hf x Hx), IH. done.
Qed.

Lemma enqueued_put_products P ps :
  enqueued P (EvPutProduct <$> ps) = queued P (Some <$> ps).
Proof.
  unfold enqueued, queued. induction ps as [|p ps IH]; csimpl; [done|]. by rewrite IH.
Qed.

Lemma discovery_events W cfg d evs d1 out :
  discovery W cfg d = (evs, d1, out) ->
  Forall (fun ev => is_discovery_event ev = true) evs
  /\ forall P, enqueued P evs =
       match out with Queued ps => queued P (Some <$> ps) | _ => 0%nat end.
Proof.
  unfold discovery.
  destruct (create_products_table W d) as [d1' [[]|e]].
  2: { intros H; inversion H; subst. split; [repeat constructor | done]. }
  destruct (_get_category_links W cfg) as [[|link links]|e].
  1,3: intros H; inversion H; subst; split; [repeat constructor | done].
  destruct (scrape_category_pages W cfg (link :: links)) as [cevs [all|e]] eqn:E;
    apply scrape_category_pages_events in E; intros H; inversion H; subst; clear H.
  - split.
    + repeat constructor. apply Forall_app. split.
      * eapply Forall_impl; [exact E|]. by intros ev (? & ? & ->).
      * apply Forall_fmap, Forall_true. done.
    + intros P. unfold enqueued at 1. simpl. rewrite sum_list_with_app.
      rewrite (sum_list_with_zero _ _ _ E) by (by intros ev (? & ? & ->)).
      fold (enqueued P (EvPutProduct <$>
        products_to_queue (SCRAPER_TEST_MODE cfg) (TEST_PRODUCT_LIMIT cfg) all)).
      rewrite enqueued_put_products.
      by destruct (products_to_queue _ _ all).
  - split; [|intros P; unfold enqueued; simpl;
             by rewrite (sum_list_with_zero _ _ _ E) by (by intros ev (? & ? & ->))].
    repeat constructor. eapply Forall_impl; [exact E|]. by intros ev (? & ? & ->).
Qed.

Lemma count_events_split f h later ev earlier :
  h = later ++ ev :: earlier -> f ev = true -> (0 < count_events f h)%nat.
Proof.
  intros -> Hf. unfold count_events. rewrite sum_list_with_app. simpl.
  rewrite Hf. simpl. lia.
Qed.

Lemma init_system_inv W cfg d :
  run_inv (thread_count cfg) (init_system W cfg d).
Proof.
  unfold init_system. destruct (discovery W cfg d) as [[evs d1] out] eqn:E.
  apply discovery_events in E as [Hev Henq].
  assert (Hz : forall f, (forall ev, is_discovery_event ev = true -> f ev = 0%nat) ->
                 sum_list_with f (reverse evs) = 0%nat).
  { intros f Hf. rewrite sum_list_with_reverse.
    eapply sum_list_with_zero; [exact Hev | done]. }
  assert (Hps : count_events is_product_sentinel (reverse evs) = 0%nat).
  { apply Hz. by intros []. }
  assert (Hrs : count_events is_record_sentinel (reverse evs) = 0%nat).
  { apply Hz. by intros []. }
  split; [|split; [|split; [|split; [|split]]]]; simpl.
  - unfold slots_accounted. destruct out; simpl; rewrite ?length_fmap; lia.
  - intros P. unfold refs_accounted. simpl.
    unfold enqueued at 1. rewrite sum_list_with_reverse. fold (enqueued P evs).
    rewrite Henq. unfold processed. rewrite Hz by (by intros []).
    destruct out; simpl; lia.
  - unfold orch_inv. destruct out; simpl; auto.
  - intros i w Hi. done.
  - intros later earlier Hsplit.
    eapply (count_events_split is_product_sentinel) in Hsplit; [lia | done].
  - intros later earlier Hsplit.
    eapply (count_events_split is_record_sentinel) in Hsplit; [lia | done].
Qed.

Lemma exec_run_inv W cfg d schedule s :
  exec W cfg schedule (init_system W cfg d) = Some s ->
  run_inv (thread_count cfg) s.
Proof.
  apply exec_invariant; [|apply init_system_inv].
  intros l s1 s2. apply step_run_inv.
Qed.

Lemma sum_list_with_pos {A} (f : A -> nat) l :
  (0 < sum_list_with f l)%nat -> exists x, x ∈ l /\ (0 < f x)%nat.
Proof.
  induction l as [|a l IH]; simpl; [lia|]. intros H.
  destruct (f a) eqn:E.
  - destruct IH as (x & ? & ?); [lia|]. exists x. split; [by right | done].
  - exists a. split; [left | lia].
Qed.



Lemma orch_inv_sentinel_counts N s :
  orch_inv N s ->
  (count_events is_product_sentinel (history s) <= N)%nat
  /\ (count_events is_record_sentinel (history s) <= 1)%nat.
Proof. unfold orch_inv. destruct (orch s); intros H; intuition lia. Qed.

(** ** An empty category set (C7) *)

Lemma landing_page_failure_no_categories W cfg :
  scraper_fetch_page W (SCRAPER_BASE_URL cfg) 0 = Ok None ->
  _get_category_links W cfg = Ok [].
Proof. unfold _get_category_links. by intros ->. Qed.

(** C7.  When category discovery returns the empty list (as it does when
    the landing page cannot be fetched), [run_scraping] returns at line 140:
    after discovery both queues are empty, no worker was submitted and the
    writer thread was not started; under every schedule only the main thread
    can move, it closes the session and logs the timing, and nothing is ever
    put on a queue, no worker starts and the writer is never invoked. *)
Theorem no_categories_aborts_early (W : World) (cfg : Config) (d : Database)
    (Htable : (create_products_table W d).2 = Ok tt)
    (Hnone : _get_category_links W cfg = Ok []) :
  let s0 := init_system W cfg d in
  let s1 := mkSystem empty_queue empty_queue [] DNotStarted (database s0) OTiming
              (EvCloseSession :: history s0) in
  let s2 := mkSystem empty_queue empty_queue [] DNotStarted (database s0) OReturned
              (EvTimingLog :: EvCloseSession :: history s0) in
  s0 = mkSystem empty_queue empty_queue [] DNotStarted
         (create_products_table W d).1 OFinally [EvDiscoverCategories; EvCreateTable]
  /\ exec W cfg [LOrch; LOrch] s0 = Some s2
  /\ (forall schedule s, exec W cfg schedule s0 = Some s ->
        (s = s0 /\ schedule = [])
        \/ (s = s1 /\ schedule = [LOrch])
        \/ (s = s2 /\ schedule = [LOrch; LOrch]))
  /\ (forall l, step W cfg l s2 = None).
Proof.
  intros s0 s1 s2.
  assert (Hs0 : s0 = mkSystem empty_queue empty_queue [] DNotStarted
         (create_products_table W d).1 OFinally [EvDiscoverCategories; EvCreateTable]).
  { subst s0. unfold init_system, discovery.
    destruct (create_products_table W d) as [d1 r]. simpl in Htable. subst r.
    by rewrite Hnone. }
  assert (Hstep0 : forall l s, step W cfg l s0 = Some s -> l = LOrch /\ s = s1).
  { intros l s. subst s1. rewrite Hs0. destruct l as [|i|]; simpl; [|done|done].
    unfold run_scraping. simpl. by intros [= <-]. }
  assert (Hstep1 : forall l s, step W cfg l s1 = Some s -> l = LOrch /\ s = s2).
  { intros l s. subst s1 s2. destruct l as [|i|]; simpl; [|done|done].
    unfold run_scraping. simpl. by intros [= <-]. }
  assert (Hstep2 : forall l, step W cfg l s2 = None).
  { intros l. subst s2. by destruct l as [|i|]. }
  split; [exact Hs0|]. split; [|split; [|exact Hstep2]].
  - subst s1 s2. rewrite Hs0. reflexivity.
  - intros schedule s Hexec.
    destruct schedule as [|l1 schedule]; simpl in Hexec.
    { left. by inversion Hexec. }
    destruct (step W cfg l1 s0) as [sa|] eqn:E1; [|done].
    apply Hstep0 in E1 as [-> ->].
    destruct schedule as [|l2 schedule]; simpl in Hexec.
    { right. left. by inversion Hexec. }
    destruct (step W cfg l2 s1) as [sb|] eqn:E2; [|done].
    apply Hstep1 in E2 as [-> ->].
    destruct schedule as [|l3 schedule]; simpl in Hexec.
    { right. right. by inversion Hexec. }
    by rewrite Hstep2 in Hexec.
Qed.

Lemma no_categories_aborts_early_witness :
  exec offline_world (example_config 2) [LOrch; LOrch]
    (init_system offline_world (example_config 2) empty_database)
  = Some (mkSystem empty_queue empty_queue [] DNotStarted
            (mkDatabase [] None 1) OReturned
            [EvTimingLog; EvCloseSession; EvDiscoverCategories; EvCreateTable]).
Proof.
  destruct (no_categories_aborts_early offline_world (example_config 2) empty_database)
    as (Hs0 & Hrun & _); [reflexivity | reflexivity |].
  rewrite Hrun. f_equal.
Defined.

(** ** The worker pool on a pre-loaded queue (C2) *)


Lemma step_worker_work_left W cfg i s s' :
  step W cfg (LWorker i) s = Some s' ->
  orch s' = orch s /\ (1 + work_left s' <= work_left s)%nat.
Proof.
  intros Hstep. unfold work_left.
  apply step_worker_inv in Hstep as (pc & pc' & q & r & ev & Hi & Hw & ->). simpl.
  split; [done|].
  pose proof (sum_list_with_insert weight _ _ _ pc' Hi) as Hsum.
  invert_worker_step Hw; simpl in *; repeat case_match; simplify_eq/=;
    use_items; simpl in *; lia.
Qed.








(** A worker that has not returned can always take its next step. *)
Lemma worker_step_enabled W cfg i w s :
  workers s !! i = Some w -> worker_finished w = false ->
  is_Some (step W cfg (LWorker i) s).
Proof.
  intros Hi Hw. simpl. rewrite Hi.
  destruct w; simpl in *; try done; unfold get, task_done, body_raised;
    repeat (case_match; simpl); simplify_eq; eauto.
Qed.

(** Letting the workers run, without any timeout, until none can move. *)
Lemma drain W cfg n s :
  (work_left s <= n)%nat ->
  exists schedule s',
    exec W cfg schedule s = Some s'
    /\ orch s' = orch s
    /\ Forall (fun w => can_progress (product_url_queue s') w = false) (workers s').
Proof.
  revert s. induction n as [|n IH]; intros s Hn.
  - exists [], s. split; [done|]. split; [done|].
    apply Forall_forall. intros w Hw.
    pose proof (sum_list_with_in w weight (workers s) Hw) as Hle.
    unfold work_left in Hn. destruct w; simpl in *; done || lia.
  - destruct (list_find (fun w => can_progress (product_url_queue s) w = true)
                (workers s)) as [[i w]|] eqn:E.
    + apply list_find_Some in E as (Hi & Hw & _).
      assert (Hnf : worker_finished w = false) by (by destruct w).
      destruct (worker_step_enabled W cfg i w s Hi Hnf) as [s1 Hs1].
      destruct (step_worker_work_left _ _ _ _ _ Hs1) as [Ho Hle].
      destruct (IH s1) as (schedule & s' & Hexec & Ho' & Hall); [lia|].
      exists (LWorker i :: schedule), s'. split; [|split; [congruence | done]].
      cbn [exec]. by rewrite Hs1.
    + apply list_find_None in E.
      exists [], s. split; [done|]. split; [done|].
      eapply Forall_impl; [exact E|]. intros w Hw. simpl in Hw.
      by destruct (can_progress (product_url_queue s) w).
Qed.






Lemma exec_singleton W cfg l s : exec W cfg [l] s = step W cfg l s.
Proof. cbn [exec]. by destruct (step W cfg l s). Qed.



Lemma fetch_page_not_queue_empty urljoin net base_url url sleep_time e :
  (fetch_page urljoin net base_url url sleep_time).2 = Raise e ->
  is_queue_empty e = false.
Proof. by intros [-> _]%fetch_page_raises. Qed.

(** The join of the examples does not raise, so neither does the fetch. *)
Lemma example_fetch_never_raises net base_url url sleep_time e :
  (fetch_page example_urljoin net base_url (Some url) sleep_time).2 <> Raise e.
Proof.
  intros (_ & e' & He')%fetch_page_raises. unfold full_url_of, example_urljoin in He'.
  by destruct (startswith "/" url).
Qed.



(** ** Worker errors and the completion count (C4, C6) *)

Lemma step_feeding_inv W cfg l s s' :
  no_queue_empty W -> slots_accounted s -> feeding_inv s ->
  step W cfg l s = Some s' -> feeding_inv s'.
Proof.
  intros [Hnf Hne] Hslots Hinv Hstep Hfeed'. unfold feeding_inv in Hinv.
  destruct l as [|i|].
  - simpl in Hstep.
    invert_orch_step Hstep; simpl in *; try discriminate Hfeed';
      destruct (Hinv eq_refl) as (H1 & H2 & H3);
      (split; [done|]); split; try done;
      try (apply Forall_app; split; [done | by repeat constructor]);
      try (destruct H3 as [H3|H3];
           [by left | right; apply Forall_app; split; [done | by repeat constructor]]).
  - apply step_worker_inv in Hstep as (pc & pc' & q & r & ev & Hi & Hw & ->).
    simpl in *. destruct (Hinv Hfeed') as (H1 & H2 & H3).
    pose proof (Forall_lookup_1 _ _ _ _ H2 Hi) as Hpc. simpl in Hpc.
    pose proof (holding_of_member _ _ _ Hi) as Hmem.
    unfold slots_accounted in Hslots.
    assert (Hal : items (product_url_queue s) = [] \/ alive pc = true).
    { destruct H3 as [|H3]; [by left | right].
      exact (Forall_lookup_1 _ _ _ _ H3 Hi). }
    assert (Hcases :
      Forall (fun x : option ProductInfo => is_Some x) (items q)
      /\ no_sentinel_seen pc' = true
      /\ (items q = [] \/ (items (product_url_queue s) <> [] /\ alive pc' = true))).
    { clear H2 H3 Hinv.
      invert_worker_step Hw; simpl in *; try discriminate Hpc;
        repeat match goal with
               | H : scraper_fetch_page W _ _ = Raise _ |- _ =>
                   pose proof (Hnf _ _ _ H); clear H
               | H : extractor_extract_product_details W _ _ _ = Raise _ |- _ =>
                   pose proof (Hne _ _ _ _ H); clear H
               end;
        try congruence; try lia;
        repeat match goal with
               | H : items ?q = _, H' : context [items ?q] |- _ => rewrite H in H'
               end;
        try (apply Forall_cons in H1 as [Hhd Htl]);
        try (by destruct Hhd);
        use_items; (split; [done|]); (split; [done|]);
        first [ by left
              | by right; split
              | destruct Hal as [Hal|Hal]; [by left | done]
              | destruct (items (product_url_queue s)); [by left | by right; split] ]. }
    destruct Hcases as (Hc1 & Hc2 & Hc3).
    split; [done|]. split; [by apply Forall_insert|].
    destruct Hc3 as [Hc3|[Hne' Hc3]]; [by left | right].
    destruct H3 as [H3|H3]; [done|]. by apply Forall_insert.
  - apply step_writer_inv in Hstep as (pc' & r & d & ev & Hw & ->). simpl in *. auto.
Qed.

Lemma init_feeding_inv W cfg d : feeding_inv (init_system W cfg d).
Proof.
  unfold feeding_inv, init_system.
  destruct (discovery W cfg d) as [[evs d1] [e| | |ps]]; simpl; try done.
  intros _. split; [|split; [apply Forall_nil_2 | right; apply Forall_nil_2]].
  apply Forall_fmap, Forall_forall. intros p _. by eexists.
Qed.

Lemma exec_feeding_inv W cfg d schedule s :
  no_queue_empty W ->
  exec W cfg schedule (init_system W cfg d) = Some s ->
  run_inv (thread_count cfg) s /\ feeding_inv s.
Proof.
  intros HW.
  apply (exec_invariant W cfg (fun s => run_inv (thread_count cfg) s /\ feeding_inv s)).
  - intros l s1 s2 [Hrun Hfeed] Hstep. split; [by eapply step_run_inv|].
    eapply step_feeding_inv; eauto. apply Hrun.
  - split; [apply init_system_inv | apply init_feeding_inv].
Qed.

(** With collaborators that do not raise queue.Empty, the workers can
    always bring the completion count of the product queue to zero, at which
    point [product_url_queue.join()] returns. *)
Lemma join_eventually_returns W cfg d schedule s :
  no_queue_empty W ->
  exec W cfg schedule (init_system W cfg d) = Some s ->
  orch s = OJoinProducts ->
  exists schedule' s',
    exec W cfg schedule' s = Some s'
    /\ orch s' = OJoinProducts
    /\ unfinished_tasks (product_url_queue s') = 0%nat
    /\ is_Some (step W cfg LOrch s').
Proof.
  intros HW Hexec Ho.
  destruct (drain W cfg (work_left s) s) as (sched1 & s1 & He1 & Ho1 & Hall); [done|].
  assert (Hexec1 : exec W cfg (schedule ++ sched1) (init_system W cfg d) = Some s1).
  { by rewrite exec_app, Hexec. }
  destruct (exec_feeding_inv _ _ _ _ _ HW Hexec1) as [Hrun Hfeed].
  destruct Hrun as (Hslots & _ & Hinv & _).
  unfold orch_inv in Hinv. rewrite Ho1, Ho in Hinv. destruct Hinv as (_ & _ & Hlen & HN).
  unfold feeding_inv in Hfeed. rewrite Ho1, Ho in Hfeed.
  destruct (Hfeed eq_refl) as (_ & Hseen & Halive).
  assert (Hitems : items (product_url_queue s1) = []).
  { destruct Halive as [|Halive]; [done|].
    destruct (lookup_lt_is_Some_2 (workers s1) 0) as [w Hw]; [lia|].
    pose proof (Forall_lookup_1 _ _ _ _ Halive Hw) as Ha.
    pose proof (Forall_lookup_1 _ _ _ _ Hall Hw) as Hc. simpl in Ha, Hc.
    destruct w; simpl in *; try done.
    by destruct (items (product_url_queue s1)). }
  assert (Hhold : sum_list_with holding (workers s1) = 0%nat).
  { apply (sum_list_with_zero _
             (fun w => can_progress (product_url_queue s1) w = false
                       /\ no_sentinel_seen w = true)).
    - apply Forall_and. split; done.
    - intros w [Hc Hs]. by destruct w as [| | | | | |[]|[]|[]|]. }
  assert (Hzero : unfinished_tasks (product_url_queue s1) = 0%nat).
  { unfold slots_accounted in Hslots. rewrite Hslots, Hitems, Hhold. done. }
  exists sched1, s1. split; [done|]. split; [congruence|]. split; [done|].
  simpl. unfold run_scraping. rewrite Ho1, Ho. unfold join_ready.
  rewrite bool_decide_eq_true_2 by done. eauto.
Qed.

Lemma held_slot_open W cfg d schedule s i w :
  exec W cfg schedule (init_system W cfg d) = Some s ->
  workers s !! i = Some w -> holding w = 1%nat ->
  exists n, unfinished_tasks (product_url_queue s) = S n.
Proof.
  intros Hexec Hi Hw. apply exec_run_inv in Hexec as (Hslots & _).
  pose proof (holding_of_member _ _ _ Hi) as Hmem.
  unfold slots_accounted in Hslots.
  destruct (unfinished_tasks (product_url_queue s)) as [|n]; [lia | eauto].
Qed.

(** Two consecutive steps of the same worker. *)
Lemma exec_worker_twice W cfg i s pc1 q1 r1 ev1 pc2 q2 r2 ev2 pc0 :
  workers s !! i = Some pc0 ->
  scrape_product_worker W (SLEEP_BETWEEN_PRODUCT_PAGES cfg) i pc0
    (product_url_queue s) (data_to_write_queue s) = Some (pc1, q1, r1, ev1) ->
  scrape_product_worker W (SLEEP_BETWEEN_PRODUCT_PAGES cfg) i pc1 q1 r1
    = Some (pc2, q2, r2, ev2) ->
  exec W cfg [LWorker i; LWorker i] s =
    Some (mkSystem q2 r2 (<[i := pc2]> (workers s)) (writer s) (database s) (orch s)
            (ev2 :: ev1 :: history s)).
Proof.
  intros Hi H1 H2. cbn [exec step]. rewrite Hi, H1. cbn [workers product_url_queue
    data_to_write_queue writer database orch history].
  rewrite list_lookup_insert_eq by (by eapply lookup_lt_Some).
  rewrite H2. by rewrite list_insert_insert_eq.
Qed.

(** C4.  Take any reachable state in which worker i has just popped
    ProductRef p.  If the fetch returns None, the worker's next two steps
    are the warning and task_done: nothing is put on the record queue, p is
    not put back, the slot is marked processed and the loop goes on.  If
    the fetch returns a tree and the extractor a record, the next four
    steps put exactly that record, with url set to p's url, on the record
    queue and afterwards mark the slot processed. *)
Theorem fetch_outcome_decides_record (W : World) (cfg : Config) (d : Database)
    (schedule : list label) (s : System) (i : nat) (p : ProductInfo) :
  exec W cfg schedule (init_system W cfg d) = Some s ->
  workers s !! i = Some (WFetch p) ->
  (scraper_fetch_page W (url p) (SLEEP_BETWEEN_PRODUCT_PAGES cfg) = Ok None ->
   exists s',
     exec W cfg [LWorker i; LWorker i] s = Some s'
     /\ history s' = EvTaskDone i (Some p) :: EvFetched i p false :: history s
     /\ data_to_write_queue s' = data_to_write_queue s
     /\ items (product_url_queue s') = items (product_url_queue s)
     /\ S (unfinished_tasks (product_url_queue s'))
        = unfinished_tasks (product_url_queue s)
     /\ workers s' !! i = Some WGet)
  /\ (forall tree product_data,
        scraper_fetch_page W (url p) (SLEEP_BETWEEN_PRODUCT_PAGES cfg) = Ok (Some tree) ->
        extractor_extract_product_details W tree (name_on_listing p)
          (category_on_listing p) = Ok product_data ->
        let record := dict_set "url" (url p) product_data in
        dict_get "url" record = Some (url p)
        /\ exists s' done_event,
             exec W cfg [LWorker i; LWorker i; LWorker i; LWorker i] s = Some s'
             /\ history s' =
                  done_event :: EvPutRecord i record :: EvExtracted i p
                  :: EvFetched i p true :: history s
             /\ marks_processed done_event = Some (i, p)
             /\ data_to_write_queue s' = put (Some record) (data_to_write_queue s)
             /\ items (product_url_queue s') = items (product_url_queue s)
             /\ S (unfinished_tasks (product_url_queue s'))
                = unfinished_tasks (product_url_queue s)
             /\ workers s' !! i = Some WGet).
Proof.
  intros Hexec Hi.
  destruct (held_slot_open _ _ _ _ _ _ _ Hexec Hi eq_refl) as [n Hn].
  pose proof (lookup_lt_Some _ _ _ Hi) as Hlt.
  split.
  - intros Hfetch.
    eexists. split.
    { eapply exec_worker_twice; [exact Hi | |].
      - cbn [scrape_product_worker]. rewrite Hfetch. reflexivity.
      - cbn [scrape_product_worker]. unfold task_done. rewrite Hn. reflexivity. }
    cbn [history data_to_write_queue product_url_queue workers items unfinished_tasks].
    rewrite list_lookup_insert_eq by done. by rewrite Hn.
  - intros tree product_data Hfetch Hextract record.
    split; [apply dict_get_set_eq|].
    set (next := match dict_get "product_name" record with
                 | Some _ => WTaskDone p
                 | None => WExcept (Some p)
                 end).
    set (done_event := match dict_get "product_name" record with
                       | Some _ => EvTaskDone i (Some p)
                       | None => EvHandlerTaskDone i (Some p)
                       end).
    assert (H12 : exec W cfg [LWorker i; LWorker i] s =
              Some (mkSystem (product_url_queue s) (data_to_write_queue s)
                      (<[i := WPut p record]> (workers s)) (writer s) (database s)
                      (orch s) (EvExtracted i p :: EvFetched i p true :: history s))).
    { eapply exec_worker_twice; [exact Hi | |].
      - cbn [scrape_product_worker]. rewrite Hfetch. reflexivity.
      - cbn [scrape_product_worker]. rewrite Hextract. reflexivity. }
    assert (H34 : exec W cfg [LWorker i; LWorker i]
              (mkSystem (product_url_queue s) (data_to_write_queue s)
                 (<[i := WPut p record]> (workers s)) (writer s) (database s)
                 (orch s) (EvExtracted i p :: EvFetched i p true :: history s)) =
              Some (mkSystem (mkQueue (items (product_url_queue s)) n)
                      (put (Some record) (data_to_write_queue s))
                      (<[i := WGet]> (<[i := WPut p record]> (workers s)))
                      (writer s) (database s) (orch s)
                      (done_event :: EvPutRecord i record :: EvExtracted i p
                       :: EvFetched i p true :: history s))).
    { etransitivity; [eapply exec_worker_twice|].
      - cbn [workers]. by apply list_lookup_insert_eq.
      - cbn [scrape_product_worker product_url_queue data_to_write_queue].
        reflexivity.
      - fold next.
        instantiate (1 := done_event).
        instantiate (1 := put (Some record) (data_to_write_queue s)).
        instantiate (1 := mkQueue (items (product_url_queue s)) n).
        instantiate (1 := WGet).
        subst next done_event. destruct (dict_get "product_name" record);
          cbn [scrape_product_worker]; unfold task_done; by rewrite Hn.
      - reflexivity. }
    eexists _, done_event. split.
    { change [LWorker i; LWorker i; LWorker i; LWorker i]
        with ([LWorker i; LWorker i] ++ [LWorker i; LWorker i]).
      rewrite exec_app, H12. exact H34. }
    cbn [history data_to_write_queue product_url_queue workers items unfinished_tasks].
    rewrite list_lookup_insert_eq by (by rewrite length_insert).
    rewrite Hn. subst done_event.
    by destruct (dict_get "product_name" record).
Qed.

(** C6.  In every reachable state the completion count of the product
    queue equals the items waiting plus the items held by workers, and no
    worker has ended by an exception.  When a collaborator call of the loop
    body raises an exception other than queue.Empty (the fetch, the
    extraction, or the KeyError of the debug message after the put), the
    worker logs it, marks the item's slot processed in the handler and is
    back at the get of the next iteration.  With collaborators that do not
    raise queue.Empty the workers can therefore always bring the count to
    zero, so the orchestrator's join returns. *)
Theorem worker_survives_exceptions (W : World) (cfg : Config) (d : Database)
    (schedule : list label) (s : System) :
  exec W cfg schedule (init_system W cfg d) = Some s ->
  unfinished_tasks (product_url_queue s)
    = (length (items (product_url_queue s)) + sum_list_with holding (workers s))%nat
  /\ (forall i w e, workers s !! i = Some w -> w <> WRaised e)
  /\ (forall i p e,
        workers s !! i = Some (WFetch p) ->
        scraper_fetch_page W (url p) (SLEEP_BETWEEN_PRODUCT_PAGES cfg) = Raise e ->
        is_queue_empty e = false ->
        recovers W cfg s i p (EvCaught i (Some p) e))
  /\ (forall i p tree e,
        workers s !! i = Some (WExtract p tree) ->
        extractor_extract_product_details W tree (name_on_listing p)
          (category_on_listing p) = Raise e ->
        is_queue_empty e = false ->
        recovers W cfg s i p (EvCaught i (Some p) e))
  /\ (forall i p record,
        workers s !! i = Some (WPut p record) ->
        dict_get "product_name" record = None ->
        recovers W cfg s i p (EvPutRecord i record))
  /\ (no_queue_empty W -> orch s = OJoinProducts ->
      exists schedule' s',
        exec W cfg schedule' s = Some s'
        /\ unfinished_tasks (product_url_queue s') = 0%nat
        /\ is_Some (step W cfg LOrch s')).
Proof.
  intros Hexec.
  pose proof (exec_run_inv _ _ _ _ _ Hexec) as (Hslots & _).
  split; [exact Hslots|]. split.
  { intros i w e Hi ->.
    (* a worker ends by an exception only when the handler's task_done
       raises, with the count at zero while it still holds its item *)
    revert Hi. revert i e. clear Hslots.
    assert (Hgen : forall sched s0, exec W cfg sched (init_system W cfg d) = Some s0 ->
              Forall (fun w => forall e, w <> WRaised e) (workers s0)).
    { intros sched s0.
      apply (exec_invariant W cfg (fun s0 => run_inv (thread_count cfg) s0
                /\ Forall (fun w => forall e, w <> WRaised e) (workers s0))).
      - intros l s1 s2 [Hrun Hno] Hstep. split; [by eapply step_run_inv|].
        destruct Hrun as (Hsl & _). destruct l as [|i|].
        + simpl in Hstep. invert_orch_step Hstep; simpl; try done;
            (apply Forall_app; split; [done|]; by repeat constructor).
        + apply step_worker_inv in Hstep as (pc & pc' & q & r & ev & Hi & Hw & ->).
          simpl. apply Forall_insert; [done|].
          pose proof (holding_of_member _ _ _ Hi) as Hmem.
          unfold slots_accounted in Hsl.
          pose proof (Forall_lookup_1 _ _ _ _ Hno Hi) as Hpc. simpl in Hpc.
          invert_worker_step Hw; simpl in *; try done; lia.
        + apply step_writer_inv in Hstep as (pc' & r & d' & ev & Hw & ->). done.
      - split; [apply init_system_inv|]. unfold init_system.
        destruct (discovery W cfg d) as [[evs d1] out]. simpl. apply Forall_nil_2. }
    intros i e Hi. specialize (Hgen _ _ Hexec).
    exact (Forall_lookup_1 _ _ _ _ Hgen Hi e eq_refl). }
  split.
  { intros i p e Hi Hfetch He.
    destruct (held_slot_open _ _ _ _ _ _ _ Hexec Hi eq_refl) as [n Hn].
    eexists. split.
    { eapply exec_worker_twice; [exact Hi | |].
      - cbn [scrape_product_worker]. rewrite Hfetch. unfold body_raised. rewrite He.
        reflexivity.
      - cbn [scrape_product_worker]. unfold task_done. rewrite Hn. reflexivity. }
    cbn [history data_to_write_queue product_url_queue workers items unfinished_tasks].
    rewrite list_lookup_insert_eq by (by eapply lookup_lt_Some). by rewrite Hn. }
  split.
  { intros i p tree e Hi Hextract He.
    destruct (held_slot_open _ _ _ _ _ _ _ Hexec Hi eq_refl) as [n Hn].
    eexists. split.
    { eapply exec_worker_twice; [exact Hi | |].
      - cbn [scrape_product_worker]. rewrite Hextract. unfold body_raised. rewrite He.
        reflexivity.
      - cbn [scrape_product_worker]. unfold task_done. rewrite Hn. reflexivity. }
    cbn [history data_to_write_queue product_url_queue workers items unfinished_tasks].
    rewrite list_lookup_insert_eq by (by eapply lookup_lt_Some). by rewrite Hn. }
  split.
  { intros i p record Hi Hkey.
    destruct (held_slot_open _ _ _ _ _ _ _ Hexec Hi eq_refl) as [n Hn].
    eexists. split.
    { eapply exec_worker_twice; [exact Hi | |].
      - cbn [scrape_product_worker]. rewrite Hkey. reflexivity.
      - cbn [scrape_product_worker]. unfold task_done. rewrite Hn. reflexivity. }
    cbn [history data_to_write_queue product_url_queue workers items unfinished_tasks].
    rewrite list_lookup_insert_eq by (by eapply lookup_lt_Some). by rewrite Hn. }
  intros HW Ho.
  destruct (join_eventually_returns _ _ _ _ _ HW Hexec Ho)
    as (sched' & s' & He' & _ & Hzero & Hen).
  by exists sched', s'.
Qed.

Lemma fetch_outcome_decides_record_witness :
  (exists s',
     exec example_world (example_config 2) [LWorker 1; LWorker 1] fetch_state = Some s'
     /\ data_to_write_queue s' = data_to_write_queue fetch_state
     /\ workers s' !! 1%nat = Some WGet)
  /\ (exists s' record,
        exec example_world (example_config 2)
          [LWorker 0; LWorker 0; LWorker 0; LWorker 0] fetch_state = Some s'
        /\ data_to_write_queue s' = put (Some record) (data_to_write_queue fetch_state)
        /\ dict_get "url" record = Some "https://example.test/marketplace/a").
Proof.
  assert (He : exec example_world (example_config 2) fetch_schedule
                 (init_system example_world (example_config 2) empty_database)
               = Some fetch_state) by (vm_compute; reflexivity).
  split.
  - destruct (fetch_outcome_decides_record example_world (example_config 2)
                empty_database fetch_schedule fetch_state 1
                (mkProductInfo "B" "https://example.test/marketplace/b" "it-infrastructure")
                He eq_refl) as [Hfail _].
    destruct Hfail as (s' & Hexec & _ & Hrq & _ & _ & Hw); [vm_compute; reflexivity|].
    exists s'. auto.
  - destruct (fetch_outcome_decides_record example_world (example_config 2)
                empty_database fetch_schedule fetch_state 0
                (mkProductInfo "A-dup" "https://example.test/marketplace/a"
                   "it-infrastructure")
                He eq_refl) as [_ Hok].
    destruct (Hok (detail_page " Product A " "$10" "$5" "$20")
                (extract_product_details (detail_page " Product A " "$10" "$5" "$20")
                   "A-dup" "it-infrastructure"))
      as (Hurl & s' & done_event & Hexec & _ & _ & Hrq & _);
      [vm_compute; reflexivity | reflexivity |].
    exists s'. eexists. split; [exact Hexec|]. split; [exact Hrq | exact Hurl].
Defined.

Lemma worker_survives_exceptions_witness :
  recovers faulty_world (example_config 2) faulty_state 0
    (mkProductInfo "A-dup" "https://example.test/marketplace/a" "it-infrastructure")
    (EvCaught 0
       (Some (mkProductInfo "A-dup" "https://example.test/marketplace/a"
                "it-infrastructure"))
       (OtherException "connection reset")).
Proof.
  assert (He : exec faulty_world (example_config 2) fetch_schedule
                 (init_system faulty_world (example_config 2) empty_database)
               = Some faulty_state) by (vm_compute; reflexivity).
  destruct (worker_survives_exceptions faulty_world (example_config 2) empty_database
              fetch_schedule faulty_state He) as (_ & _ & Hfetch & _).
  apply Hfetch; reflexivity.
Defined.

(** ** The writer and its transaction (C5) *)

Lemma insert_product_data_open W r d c :
  conn d = Some c ->
  insert_product_data W r d =
    (mkDatabase (server_rows d) (Some (attempt W c r)) (connects d),
     if tx_aborted c then Raise (DatabaseError "InFailedSqlTransaction")
     else match dict_get "url" r with
          | None => Raise (DatabaseError "NotNullViolation")
          | Some _ => pg_execute W r
          end).
Proof.
  intros Hc. unfold insert_product_data, attempt, accepted, statement_failed.
  rewrite Hc. destruct (tx_aborted c) eqn:Ea.
  - destruct d; simpl in *; by subst.
  - destruct (dict_get "url" r); [|done]. by destruct (pg_execute W r) as [[]|e].
Qed.

Lemma attempts_snoc W rs r c : attempts W (rs ++ [r]) c = attempt W (attempts W rs c) r.
Proof. unfold attempts. by rewrite foldl_app. Qed.

Lemma attempts_aborted W rs c :
  tx_aborted (attempts W rs c) = tx_aborted c || negb (forallb (accepted W) rs).
Proof.
  revert c. induction rs as [|r rs IH]; intros c; [simpl; by rewrite orb_false_r|].
  change (attempts W (r :: rs) c) with (attempts W rs (attempt W c r)).
  rewrite IH. unfold attempt. cbn [forallb].
  destruct (tx_aborted c) eqn:Ec; [by rewrite Ec|].
  by destruct (accepted W r).
Qed.

Lemma attempts_rows W rs c :
  tx_aborted c = false -> forallb (accepted W) rs = true ->
  tx_rows (attempts W rs c) = writes W rs (tx_rows c).
Proof.
  revert c. induction rs as [|r rs IH]; intros c Hc Hall; [done|].
  simpl in Hall. apply andb_true_iff in Hall as [Hr Hall].
  change (attempts W (r :: rs) c) with (attempts W rs (attempt W c r)).
  unfold writes. cbn [foldl]. unfold attempt. rewrite Hc, Hr.
  by rewrite IH.
Qed.

(** What [__exit__] without an exception leaves on the server. *)
Lemma commit_attempts W rs d rows0 :
  conn d = Some (attempts W rs (mkConnection rows0 false)) ->
  server_rows d = rows0 ->
  db_exit None d = mkDatabase (committed W rs rows0) None (connects d).
Proof.
  intros Hc Hrows. unfold db_exit, commit, _disconnect, committed. rewrite Hc.
  rewrite attempts_aborted. simpl.
  destruct (forallb (accepted W) rs) eqn:Hall; simpl; [|by rewrite Hrows].
  by rewrite attempts_rows.
Qed.

(** C5 fails on the code.  The writer takes three records and the
    sentinel from the record queue: the server accepts the first upsert,
    refuses the second (a product name of 256 characters) and thereby
    aborts the transaction, so the third upsert, of a record the server
    would accept, is refused too.  Each failure is caught, each slot is
    marked processed, the loop goes on to the sentinel and [__exit__] takes
    its commit branch, never the rollback one; yet after that commit the
    products table is as empty as before: the first record, whose upsert
    succeeded and was logged as inserted, is lost with the others. *)
Theorem writer_commit_after_failed_upsert :
  let W := strict_db_world in
  accepted W record_a = true
  /\ accepted W record_long_name = false
  /\ accepted W record_c = true
  /\ exec W (example_config 2) (replicate 14 LWriter) failed_upsert_system
     = Some failed_upsert_outcome
  /\ (let s' := failed_upsert_outcome in
       writer s' = DReturned
       /\ history s'
          = [ EvWriterFinished; EvCommit;
              EvRecordTaskDone; EvRecordGet None;
              EvRecordTaskDone; EvInsert record_c false; EvRecordGet (Some record_c);
              EvRecordTaskDone; EvInsert record_long_name false;
              EvRecordGet (Some record_long_name);
              EvRecordTaskDone; EvInsert record_a true; EvRecordGet (Some record_a);
              EvDbEnter true ]
       /\ data_to_write_queue s' = mkQueue [] 0
       /\ server_rows (database s') = []
       /\ writes W [record_a; record_long_name; record_c] []
          = [ ("https://example.test/marketplace/a", record_a);
              ("https://example.test/marketplace/c", record_c) ]).
Proof.
  intros W. subst W. split; [vm_compute; reflexivity|].
  split; [vm_compute; reflexivity|]. split; [vm_compute; reflexivity|].
  split; [vm_compute; reflexivity|].
  repeat split; vm_compute; reflexivity.
Qed.

(** Without the record the server refuses, the same writer commits both
    upserts. *)
Example writer_commit_without_failure :
  (fun s => server_rows (database s)) <$>
    exec strict_db_world (example_config 2) (replicate 11 LWriter)
      (mkSystem empty_queue (mkQueue [Some record_a; Some record_c; None] 3) [] DEnter
         empty_database OJoinWriter [])
  = Some [ ("https://example.test/marketplace/a", record_a);
           ("https://example.test/marketplace/c", record_c) ].
Proof. vm_compute. reflexivity. Qed.

(** What does hold of [__exit__]: without an exception it commits, which
    publishes the rows of a transaction that is not aborted and nothing of
    one that is; with an exception it rolls back; either way the server's
    rows are the only thing left. *)
Lemma db_exit_spec d c :
  conn d = Some c ->
  db_exit None d
  = mkDatabase (if tx_aborted c then server_rows d else tx_rows c) None (connects d)
  /\ forall e, db_exit (Some e) d = mkDatabase (server_rows d) None (connects d).
Proof.
  intros Hc. unfold db_exit, commit, rollback, _disconnect. rewrite Hc.
  split; [by destruct (tx_aborted c) | done].
Qed.

(** ** Every run can be completed *)

Lemma pre_sentinel_le_length ws : (sum_list_with pre_sentinel ws <= length ws)%nat.
Proof.
  induction ws as [|w ws IH]; simpl; [lia|].
  assert (pre_sentinel w <= 1)%nat by (destruct w; simpl; lia).
  lia.
Qed.

Lemma step_sentinels_suffice W cfg l s s' :
  slots_accounted s ->
  orch_inv (thread_count cfg) s -> sentinels_suffice (thread_count cfg) s ->
  step W cfg l s = Some s' -> sentinels_suffice (thread_count cfg) s'.
Proof.
  intros Hslots Hinv Hs Hstep. destruct l as [|i|].
  - simpl in Hstep.
    invert_orch_step Hstep; unfold sentinels_suffice, orch_inv in *; simpl;
      rewrite Horch in *; try done;
      repeat match goal with
             | H : (_ <? _)%nat = true |- _ => apply Nat.ltb_lt in H
             | H : (_ <? _)%nat = false |- _ => apply Nat.ltb_ge in H
             end;
      unfold sentinels_waiting in *; rewrite ?sum_list_with_snoc; simpl; try lia.
    pose proof (pre_sentinel_le_length (workers s)). lia.
  - apply step_worker_inv in Hstep as (pc & pc' & q & r & ev & Hi & Hw & ->).
    pose proof (sum_list_with_insert pre_sentinel _ _ _ pc' Hi) as Hsum.
    pose proof (holding_of_member _ _ _ Hi) as Hmem. unfold slots_accounted in Hslots.
    unfold sentinels_suffice in *. simpl. unfold sentinels_waiting in *.
    destruct (orch s); try done;
      invert_worker_step Hw; simpl in *; repeat case_match; simplify_eq/=;
        use_items; simpl in *; lia.
  - apply step_writer_inv in Hstep as (pc' & r & d & ev & Hw & ->).
    unfold sentinels_suffice in *. simpl. done.
Qed.

Lemma step_event_kinds W cfg l s s' :
  step W cfg l s = Some s' ->
  exists ev, history s' = ev :: history s
    /\ is_put_product ev = false
    /\ (is_join_writer ev = true -> orch s = OJoinWriter).
Proof.
  intros Hstep. destruct l as [|i|].
  - simpl in Hstep. invert_orch_step Hstep; eexists; (split; [done|]); by split.
  - apply step_worker_inv in Hstep as (pc & pc' & q & r & ev & Hi & Hw & ->).
    exists ev. split; [done|]. invert_worker_step Hw; by split.
  - apply step_writer_inv in Hstep as (pc' & r & d & ev & Hw & ->).
    exists ev. split; [done|]. invert_writer_step Hw; by split.
Qed.

Lemma step_normal_path W cfg l s s' :
  orch_inv (thread_count cfg) s -> normal_path (thread_count cfg) s ->
  step W cfg l s = Some s' -> normal_path (thread_count cfg) s'.
Proof.
  intros Hinv Hn Hstep Hput HN.
  destruct (step_event_kinds _ _ _ _ _ Hstep) as (ev & Hh & Hev1 & Hev2).
  rewrite Hh, count_events_cons, Hev1 in Hput. simpl in Hput.
  specialize (Hn Hput HN).
  destruct l as [|i|].
  - simpl in Hstep. unfold thread_count in HN.
    invert_orch_step Hstep; unfold orch_inv in Hinv; rewrite Horch in *; simpl in *;
      rewrite ?count_events_cons; simpl; try done; try lia.
  - pose proof Hstep as Hstep0.
    apply step_worker_inv in Hstep as (pc & pc' & q & r & ev' & Hi & Hw & ->).
    cbn [history orch] in *. inversion Hh; subst ev'.
    assert (Hev : is_product_sentinel ev = false /\ is_record_sentinel ev = false
                  /\ is_join_writer ev = false).
    { clear -Hw. invert_worker_step Hw; done. }
    destruct Hev as (E1 & E2 & E3). rewrite !count_events_cons, E1, E2, E3. simpl.
    by destruct (orch s).
  - apply step_writer_inv in Hstep as (pc' & r & d & ev' & Hw & ->).
    cbn [history orch] in *. inversion Hh; subst ev'.
    assert (Hev : is_product_sentinel ev = false /\ is_record_sentinel ev = false
                  /\ is_join_writer ev = false).
    { clear -Hw. invert_writer_step Hw; done. }
    destruct Hev as (E1 & E2 & E3). rewrite !count_events_cons, E1, E2, E3. simpl.
    by destruct (orch s).
Qed.

Lemma step_teardown_recorded W cfg l s s' :
  teardown_recorded s -> step W cfg l s = Some s' -> teardown_recorded s'.
Proof.
  intros Ht Hstep. destruct l as [|i|].
  - simpl in Hstep.
    invert_orch_step Hstep; unfold teardown_recorded in *; rewrite Horch in *;
      simpl; rewrite ?count_events_cons; simpl; try done; lia.
  - apply step_worker_inv in Hstep as (pc & pc' & q & r & ev & Hi & Hw & ->).
    assert (Hev : is_close_session ev = false /\ is_timing_log ev = false).
    { clear -Hw. invert_worker_step Hw; done. }
    destruct Hev as [E1 E2]. unfold teardown_recorded in *.
    cbn [history orch]. rewrite !count_events_cons, E1, E2. done.
  - apply step_writer_inv in Hstep as (pc' & r & d & ev & Hw & ->).
    assert (Hev : is_close_session ev = false /\ is_timing_log ev = false).
    { clear -Hw. invert_writer_step Hw; done. }
    destruct Hev as [E1 E2]. unfold teardown_recorded in *.
    cbn [history orch]. rewrite !count_events_cons, E1, E2. done.
Qed.

Lemma step_full_inv W cfg l s s' :
  full_inv W cfg s -> step W cfg l s = Some s' -> full_inv W cfg s'.
Proof.
  intros (Hrun & Hsuf & Hnorm & Htear & Hfeed) Hstep.
  pose proof Hrun as (Hslots & _ & Hinv & _).
  split; [by eapply step_run_inv|]. split; [by eapply step_sentinels_suffice|].
  split; [by eapply step_normal_path|]. split; [by eapply step_teardown_recorded|].
  intros HW. eapply step_feeding_inv; eauto.
Qed.

Lemma init_full_inv W cfg d : full_inv W cfg (init_system W cfg d).
Proof.
  split; [apply init_system_inv|].
  assert (Hev : exists evs d1 out, discovery W cfg d = (evs, d1, out)).
  { destruct (discovery W cfg d) as [[evs d1] out]. eauto. }
  destruct Hev as (evs & d1 & out & E).
  pose proof (discovery_events _ _ _ _ _ _ E) as [Hev Henq].
  assert (Hz : forall f, (forall ev, is_discovery_event ev = true -> f ev = false) ->
                 count_events f (reverse evs) = 0%nat).
  { intros f Hf. unfold count_events. rewrite sum_list_with_reverse.
    eapply sum_list_with_zero; [exact Hev|]. intros ev Hd. by rewrite (Hf ev Hd). }
  assert (Hput : count_events is_put_product (reverse evs)
                 = enqueued (fun _ => true) evs).
  { unfold count_events, enqueued. rewrite sum_list_with_reverse.
    clear. induction evs as [|[] evs IH]; simpl; by rewrite ?IH. }
  pose proof (init_feeding_inv W cfg d) as Hfeed. revert Hfeed.
  unfold sentinels_suffice, normal_path, teardown_recorded, init_system.
  rewrite E. intros Hfeed. simpl. rewrite Hput, Henq.
  rewrite !Hz by (by intros []).
  split; [by destruct out|]. split; [|split; [by destruct out|]].
  - destruct out; simpl; intros; try lia; done.
  - intros _. exact Hfeed.
Qed.

Lemma reachable_full_inv W cfg d s : reachable W cfg d s -> full_inv W cfg s.
Proof.
  intros [schedule Hexec]. revert Hexec.
  apply exec_invariant; [|apply init_full_inv]. intros l s1 s2. apply step_full_inv.
Qed.

Lemma reachable_exec W cfg d s schedule s' :
  reachable W cfg d s -> exec W cfg schedule s = Some s' -> reachable W cfg d s'.
Proof.
  intros [sch0 H0] Hexec. exists (sch0 ++ schedule). by rewrite exec_app, H0.
Qed.

Lemma reachable_step W cfg d s l s' :
  reachable W cfg d s -> step W cfg l s = Some s' -> reachable W cfg d s'.
Proof.
  intros Hr Hstep. eapply reachable_exec; [exact Hr|]. by rewrite exec_singleton.
Qed.

Lemma completes_exec W cfg schedule s s1 :
  exec W cfg schedule s = Some s1 -> completes W cfg s1 -> completes W cfg s.
Proof.
  intros Hexec (sch & s' & H & Ho). exists (schedule ++ sch), s'.
  split; [|done]. by rewrite exec_app, Hexec.
Qed.

Lemma completes_step W cfg l s s1 :
  step W cfg l s = Some s1 -> completes W cfg s1 -> completes W cfg s.
Proof. intros Hstep. apply completes_exec with (schedule := [l]). by rewrite exec_singleton. Qed.

(** From the put of the record sentinel on, and in the except clause, the
    main thread runs to its end without waiting for anyone. *)
Lemma orch_tail_completes W cfg n :
  forall s, orch_rank (orch s) = Some n -> completes W cfg s.
Proof.
  induction (lt_wf n) as [n _ IH]. intros s Hrank.
  destruct (orch s) eqn:Ho; simpl in Hrank; simplify_eq.
  - (* OPutRecordSentinel *)
    eapply (completes_step _ _ LOrch); [simpl; unfold run_scraping; by rewrite Ho|].
    apply (IH 3%nat); [lia | done].
  - eapply (completes_step _ _ LOrch); [simpl; unfold run_scraping; by rewrite Ho|].
    apply (IH 2%nat); [lia | done].
  - eapply (completes_step _ _ LOrch); [simpl; unfold run_scraping; by rewrite Ho|].
    apply (IH 2%nat); [lia | done].
  - eapply (completes_step _ _ LOrch); [simpl; unfold run_scraping; by rewrite Ho|].
    apply (IH 1%nat); [lia | done].
  - eapply (completes_step _ _ LOrch); [simpl; unfold run_scraping; by rewrite Ho|].
    apply (IH 0%nat); [lia | done].
  - exists [], s. done.
Qed.

Lemma join_workers_completes W cfg d s :
  reachable W cfg d s -> orch s = OJoinWorkers -> completes W cfg s.
Proof.
  intros Hr Ho.
  destruct (drain W cfg (work_left s) s) as (sched1 & s1 & He1 & Ho1 & Hall); [done|].
  pose proof (reachable_exec _ _ _ _ _ _ Hr He1) as Hr1.
  destruct (reachable_full_inv _ _ _ _ Hr1) as (_ & Hsuf & _).
  unfold sentinels_suffice in Hsuf. rewrite Ho1, Ho in Hsuf.
  assert (Hfin : forallb worker_finished (workers s1) = true).
  { apply forallb_forall. intros w Hw. apply list_elem_of_In in Hw.
    pose proof (proj1 (Forall_forall _ _) Hall w Hw) as Hcan. simpl in Hcan.
    destruct w; simpl in *; try done.
    destruct (items (product_url_queue s1)); [|done].
    pose proof (sum_list_with_in _ pre_sentinel _ Hw). simpl in *.
    unfold sentinels_waiting in Hsuf. simpl in Hsuf. lia. }
  eapply completes_exec; [exact He1|].
  eapply (completes_step _ _ LOrch).
  { simpl. unfold run_scraping. rewrite Ho1, Ho. by rewrite Hfin. }
  by apply (orch_tail_completes W cfg 4).
Qed.

Lemma put_sentinels_complete W cfg d k :
  forall i s, (thread_count cfg - i = k)%nat ->
    reachable W cfg d s -> orch s = OPutSentinel i -> completes W cfg s.
Proof.
  induction k as [|k IH]; intros i s Hk Hr Ho.
  - destruct (reachable_full_inv _ _ _ _ Hr) as ((_ & _ & Hinv & _) & _).
    unfold orch_inv in Hinv. rewrite Ho in Hinv. lia.
  - assert (Hstep : exists s1, step W cfg LOrch s = Some s1
              /\ orch s1 = (if (S i <? thread_count cfg)%nat
                            then OPutSentinel (S i) else OJoinWorkers)).
    { simpl. unfold run_scraping. rewrite Ho. eauto. }
    destruct Hstep as (s1 & Hstep & Ho1).
    pose proof (reachable_step _ _ _ _ _ _ Hr Hstep) as Hr1.
    eapply completes_step; [exact Hstep|].
    destruct (S i <? thread_count cfg)%nat eqn:E.
    + apply (IH (S i)); [lia | done | done].
    + by eapply join_workers_completes.
Qed.

Lemma join_products_completes W cfg d s :
  no_queue_empty W ->
  reachable W cfg d s -> orch s = OJoinProducts -> completes W cfg s.
Proof.
  intros HW [schedule Hexec] Ho.
  destruct (join_eventually_returns _ _ _ _ _ HW Hexec Ho)
    as (sched1 & s1 & He1 & Ho1 & Hzero & [s2 Hs2]).
  assert (Hr1 : reachable W cfg d s1).
  { eapply reachable_exec; [by exists schedule | exact He1]. }
  pose proof (reachable_step _ _ _ _ _ _ Hr1 Hs2) as Hr2.
  assert (Ho2 : orch s2 = OPutSentinel 0).
  { simpl in Hs2. unfold run_scraping in Hs2. rewrite Ho1 in Hs2.
    destruct (join_ready (product_url_queue s1)); by inversion Hs2. }
  eapply completes_exec; [exact He1|]. eapply completes_step; [exact Hs2|].
  by eapply (put_sentinels_complete W cfg d (thread_count cfg - 0) 0).
Qed.

Lemma submit_completes W cfg d k :
  no_queue_empty W ->
  forall i s, (thread_count cfg - i = k)%nat ->
    reachable W cfg d s -> orch s = OSubmit i -> completes W cfg s.
Proof.
  intros HW. induction k as [|k IH]; intros i s Hk Hr Ho.
  - destruct (reachable_full_inv _ _ _ _ Hr) as ((_ & _ & Hinv & _) & _).
    unfold orch_inv in Hinv. rewrite Ho in Hinv. lia.
  - assert (Hstep : exists s1, step W cfg LOrch s = Some s1
              /\ orch s1 = (if (S i <? thread_count cfg)%nat
                            then OSubmit (S i) else OJoinProducts)).
    { simpl. unfold run_scraping. rewrite Ho. eauto. }
    destruct Hstep as (s1 & Hstep & Ho1).
    pose proof (reachable_step _ _ _ _ _ _ Hr Hstep) as Hr1.
    eapply completes_step; [exact Hstep|].
    destruct (S i <? thread_count cfg)%nat eqn:E.
    + apply (IH (S i)); [lia | done | done].
    + by eapply join_products_completes.
Qed.

(** With collaborators that do not raise queue.Empty, every run can be
    continued until [run_scraping] has returned. *)
Lemma run_completes W cfg d s :
  no_queue_empty W -> reachable W cfg d s -> completes W cfg s.
Proof.
  intros HW Hr.
  assert (Hpool : orch s = OCreatePool -> completes W cfg s).
  { intros Ho.
    assert (Hstep : exists s1, step W cfg LOrch s = Some s1
              /\ (orch s1 = OExcept ValueError \/ orch s1 = OSubmit 0)).
    { simpl. unfold run_scraping. rewrite Ho.
      destruct (SCRAPER_THREAD_COUNT cfg <=? 0); eauto. }
    destruct Hstep as (s1 & Hstep & [Ho1|Ho1]);
      (eapply completes_step; [exact Hstep|]).
    - apply (orch_tail_completes W cfg 3). by rewrite Ho1.
    - eapply (submit_completes W cfg d _ HW 0); eauto.
      by eapply reachable_step. }
  destruct (orch s) eqn:Ho.
  - assert (Hstep : exists s1, step W cfg LOrch s = Some s1 /\ orch s1 = OCreatePool).
    { simpl. unfold run_scraping. rewrite Ho. eauto. }
    destruct Hstep as (s1 & Hstep & Ho1).
    eapply completes_step; [exact Hstep|].
    assert (Hpool1 : orch s1 = OCreatePool -> completes W cfg s1).
    { intros _.
      assert (Hstep2 : exists s2, step W cfg LOrch s1 = Some s2
                /\ (orch s2 = OExcept ValueError \/ orch s2 = OSubmit 0)).
      { simpl. unfold run_scraping. rewrite Ho1.
        destruct (SCRAPER_THREAD_COUNT cfg <=? 0); eauto. }
      destruct Hstep2 as (s2 & Hstep2 & [Ho2|Ho2]);
        (eapply completes_step; [exact Hstep2|]).
      - apply (orch_tail_completes W cfg 3). by rewrite Ho2.
      - eapply (submit_completes W cfg d _ HW 0); eauto.
        eapply reachable_step; [|exact Hstep2]. by eapply reachable_step. }
    by apply Hpool1.
  - by apply Hpool.
  - by eapply (submit_completes W cfg d _ HW i).
  - by eapply join_products_completes.
  - by eapply (put_sentinels_complete W cfg d _ i).
  - by eapply join_workers_completes.
  - apply (orch_tail_completes W cfg 4). by rewrite Ho.
  - apply (orch_tail_completes W cfg 3). by rewrite Ho.
  - apply (orch_tail_completes W cfg 3). by rewrite Ho.
  - apply (orch_tail_completes W cfg 2). by rewrite Ho.
  - apply (orch_tail_completes W cfg 1). by rewrite Ho.
  - apply (orch_tail_completes W cfg 0). by rewrite Ho.
Qed.


(** ** The completion handshake (C1) *)



(** With a thread count of zero the pool constructor raises: the run logs
    the error and tears down, and no sentinel is ever put. *)
Example zero_threads_run :
  (history <$> exec example_world (example_config 0) [LOrch; LOrch; LOrch; LOrch; LOrch]
                 (init_system example_world (example_config 0) empty_database))
  = Some ([EvTimingLog; EvCloseSession; EvCritical ValueError; EvPoolCreated;
           EvStartWriter]
          ++ history (init_system example_world (example_config 0) empty_database)).
Proof. vm_compute. reflexivity. Qed.

(** * Further properties of the code *)

(** ** Strings *)

Lemma prefix_spec p s : String.prefix p s = true <-> exists post, s = p +:+ post.
Proof.
  revert s. induction p as [|c p IH]; intros s.
  - split; [intros _; by exists s | by destruct s].
  - destruct s as [|c' s]; cbn.
    + split; [done | intros [post H]; discriminate].
    + destruct (Ascii.ascii_dec c c') as [->|Hne].
      * rewrite IH. split; intros [post H]; exists post.
        -- by rewrite H.
        -- by inversion H.
      * split; [done | intros [post H]; inversion H; congruence].
Qed.

Lemma str_contains_unfold p s :
  str_contains p s =
  String.prefix p s
  || match s with EmptyString => false | String _ s' => str_contains p s' end.
Proof. by destruct s. Qed.

Lemma str_contains_spec p s : str_contains p s = true <-> occurs_in p s.
Proof.
  unfold occurs_in. split.
  - induction s as [|c s IH]; rewrite str_contains_unfold, orb_true_iff; intros [H|H].
    + apply prefix_spec in H as [post H]. by exists EmptyString, post.
    + done.
    + apply prefix_spec in H as [post H]. by exists EmptyString, post.
    + destruct (IH H) as (pre & post & ->). by exists (String c pre), post.
  - intros (pre & post & ->). induction pre as [|c pre IH].
    + rewrite str_contains_unfold.
      replace (String.prefix p (EmptyString +:+ p +:+ post)) with true; [done|].
      symmetry. apply prefix_spec. by exists post.
    + change (String c pre +:+ p +:+ post) with (String c (pre +:+ p +:+ post)).
      rewrite str_contains_unfold, IH. apply orb_true_r.
Qed.

Lemma split_on_nonempty sep s : split_on sep s <> [].
Proof.
  destruct s as [|c s]; simpl; [done|].
  destruct (Ascii.eqb c sep); [done|]. by destruct (split_on sep s).
Qed.

Lemma concat_cons_char sep c piece pieces :
  String.concat sep (String c piece :: pieces)
  = String c (String.concat sep (piece :: pieces)).
Proof. by destruct pieces. Qed.

Lemma split_on_join sep s :
  String.concat (String sep EmptyString) (split_on sep s) = s.
Proof.
  induction s as [|c s IH]; [done|]. cbn [split_on].
  pose proof (split_on_nonempty sep s) as Hne.
  destruct (split_on sep s) as [|piece pieces] eqn:Es; [done|].
  destruct (Ascii.eqb c sep) eqn:E.
  - apply Ascii.eqb_eq in E as ->.
    change (String.concat (String sep EmptyString) (EmptyString :: piece :: pieces))
      with (String sep (String.concat (String sep EmptyString) (piece :: pieces))).
    by rewrite IH.
  - by rewrite concat_cons_char, IH.
Qed.

Lemma split_on_length sep s : length (split_on sep s) = S (count_char sep s).
Proof.
  induction s as [|c s IH]; [done|]. cbn [split_on count_char].
  pose proof (split_on_nonempty sep s) as Hne.
  destruct (Ascii.eqb c sep); simpl.
  - by rewrite IH.
  - destruct (split_on sep s) as [|piece pieces]; [done|]. simpl in *. lia.
Qed.

Lemma split_on_pieces sep s :
  Forall (fun piece => count_char sep piece = 0%nat) (split_on sep s).
Proof.
  induction s as [|c s IH]; cbn [split_on].
  - by constructor.
  - destruct (Ascii.eqb c sep) eqn:E.
    + by constructor.
    + destruct (split_on sep s) as [|piece pieces].
      * constructor; [|done]. simpl. by rewrite E.
      * inversion IH; subst. constructor; [|done]. simpl. by rewrite E.
Qed.

Lemma split_on_trailing sep v :
  exists pieces, split_on sep (v +:+ String sep EmptyString) = pieces ++ [EmptyString]
                 /\ pieces <> [].
Proof.
  induction v as [|c v (pieces & IH & Hne)].
  - exists [EmptyString].
    change (EmptyString +:+ String sep EmptyString) with (String sep EmptyString).
    cbn [split_on]. by rewrite Ascii.eqb_refl.
  - change (String c v +:+ String sep EmptyString)
      with (String c (v +:+ String sep EmptyString)).
    cbn [split_on]. rewrite IH.
    destruct (Ascii.eqb c sep).
    + by exists (EmptyString :: pieces).
    + destruct pieces as [|piece pieces]; [done|]. by exists (String c piece :: pieces).
Qed.

Lemma split_on_app sep a b :
  split_on sep (a +:+ String sep b) = split_on sep a ++ split_on sep b.
Proof.
  induction a as [|c a IH].
  - change (EmptyString +:+ String sep b) with (String sep b).
    cbn [split_on]. by rewrite Ascii.eqb_refl.
  - change (String c a +:+ String sep b) with (String c (a +:+ String sep b)).
    cbn [split_on]. rewrite IH.
    pose proof (split_on_nonempty sep a) as Hne.
    destruct (Ascii.eqb c sep); [done|].
    by destruct (split_on sep a) as [|piece pieces].
Qed.

Lemma size_list_to_set_le (l : list string) :
  (size (list_to_set l : gset string) <= length l)%nat.
Proof.
  induction l as [|x l IH]; [done|].
  cbn [list_to_set length]. rewrite size_union_alt, size_singleton.
  assert (Hsub : (size (list_to_set l ∖ {[x]} : gset string)
                  <= size (list_to_set l : gset string))%nat)
    by (apply subseteq_size; intros y [Hy _]%elem_of_difference; exact Hy).
  lia.
Qed.

(** ** Configuration values (config.py) *)

(** X1.  [SCRAPER_NEEDED_CATEGORIES] is the set of the pieces of the
    variable's value between its commas: the keywords are the members of a
    list of comma-free strings that, joined with commas, give the value
    back.  The set is never empty and has at most one keyword more than the
    value has commas; pieces that repeat count once, whatever their order.
    Nothing is trimmed or dropped: an empty value gives the one keyword
    [""]. *)
Theorem needed_categories_split (env_value : string) :
  let keywords := config_needed_categories (Some env_value) in
  (exists pieces,
     String.concat "," pieces = env_value
     /\ Forall (fun piece => count_char "," piece = 0%nat) pieces
     /\ forall keyword, keyword ∈ keywords <-> keyword ∈ pieces)
  /\ keywords <> ∅
  /\ (size keywords <= S (count_char "," env_value))%nat
  /\ (forall keyword, keyword ∈ keywords -> count_char "," keyword = 0%nat)
  /\ config_needed_categories (Some "") = {[ EmptyString ]}
  /\ (forall a b, config_needed_categories (Some (a +:+ "," +:+ b))
                  = config_needed_categories (Some a) ∪ config_needed_categories (Some b)).
Proof.
  unfold config_needed_categories, needed_categories_pieces. cbn [default]. unfold id.
  split; [|split; [|split; [|split; [|split]]]].
  - exists (split_on "," env_value).
    split; [apply split_on_join|]. split; [apply split_on_pieces|].
    intros keyword. apply elem_of_list_to_set.
  - pose proof (split_on_nonempty "," env_value) as Hne.
    destruct (split_on "," env_value) as [|piece pieces]; [done|].
    intros Hempty. apply (not_elem_of_empty (C := gset string) piece).
    rewrite <- Hempty. apply elem_of_list_to_set. left.
  - rewrite <- split_on_length. apply size_list_to_set_le.
  - intros keyword Hin%elem_of_list_to_set.
    pose proof (split_on_pieces "," env_value) as Hall.
    rewrite Forall_forall in Hall. by apply Hall.
  - apply set_eq. intros k. rewrite elem_of_list_to_set, elem_of_singleton.
    cbn [split_on]. by rewrite list_elem_of_singleton.
  - intros a b. rewrite <- list_to_set_app_L. f_equal.
    change ("," +:+ b) with (String ","%char b). apply split_on_app.
Qed.

(** ** Category discovery *)

Lemma get_category_links_fetched W cfg main_page_tree :
  scraper_fetch_page W (SCRAPER_BASE_URL cfg) 0 = Ok (Some main_page_tree) ->
  _get_category_links W cfg
  = needed_links (SCRAPER_NEEDED_CATEGORIES cfg) (all_links main_page_tree).
Proof. unfold _get_category_links. by intros ->. Qed.

Lemma existsb_str_contains categories link :
  existsb (fun category_keyword => str_contains category_keyword link) categories = true
  <-> exists category_keyword,
        category_keyword ∈ categories /\ occurs_in category_keyword link.
Proof.
  rewrite existsb_exists. split; intros (k & Hin & Hk); exists k.
  - split; [by apply list_elem_of_In | by apply str_contains_spec].
  - split; [by apply list_elem_of_In | by apply str_contains_spec].
Qed.

Lemma needed_links_selects categories hrefs links :
  needed_links categories hrefs = Ok links ->
  (Some <$> links) `sublist_of` hrefs
  /\ forall link, link ∈ links <->
       Some link ∈ hrefs
       /\ exists category_keyword,
            category_keyword ∈ categories /\ occurs_in category_keyword link.
Proof.
  revert links. induction hrefs as [|[href|] hrefs IH]; intros links; cbn [needed_links].
  - intros [= <-]. split; [constructor|]. intros link. split.
    + by intros ?%elem_of_nil.
    + by intros [?%elem_of_nil _].
  - destruct (needed_links categories hrefs) as [links'|e]; [|done].
    destruct (IH links' eq_refl) as [Hsub Hmem].
    destruct (existsb _ categories) eqn:E; intros [= <-].
    + split; [by constructor|]. intros link. rewrite !elem_of_cons, Hmem. split.
      * intros [->|[Hin Hk]]; [|by auto].
        split; [by left | by apply existsb_str_contains].
      * intros [[[= ->]|Hin] Hk]; [by left | right; auto].
    + split; [by constructor|]. intros link. rewrite elem_of_cons, Hmem. split.
      * intros [Hin Hk]; auto.
      * intros [[[= ->]|Hin] Hk]; [|by auto].
        apply existsb_str_contains in Hk. congruence.
  - destruct categories as [|k ks]; [|done]. intros Hl.
    destruct (IH links Hl) as [Hsub Hmem].
    split; [by constructor|]. intros link. rewrite elem_of_cons, Hmem. split.
    + intros [Hin Hk]; auto.
    + intros [[?|Hin] Hk]; [done | auto].
Qed.

(** X2.  When the landing page was fetched, the category links returned
    are hrefs of the first anchor of the category buttons, in page order and
    without reordering or invention, and a button's href is returned exactly
    when one of the needed category keywords occurs in it as a substring. *)
Theorem get_category_links_selects (W : World) (cfg : Config)
    (main_page_tree : HtmlElement) (links : list string) :
  scraper_fetch_page W (SCRAPER_BASE_URL cfg) 0 = Ok (Some main_page_tree) ->
  _get_category_links W cfg = Ok links ->
  (Some <$> links) `sublist_of` all_links main_page_tree
  /\ forall link, link ∈ links <->
       Some link ∈ all_links main_page_tree
       /\ exists category_keyword,
            category_keyword ∈ SCRAPER_NEEDED_CATEGORIES cfg
            /\ occurs_in category_keyword link.
Proof.
  intros Hfetch. rewrite (get_category_links_fetched _ _ _ Hfetch).
  apply needed_links_selects.
Qed.

Lemma get_category_links_selects_witness :
  _get_category_links example_world (example_config 2)
    = Ok ["/categories/devops"; "/categories/it-infrastructure"]
  /\ ~ "/categories/security" ∈
         ["/categories/devops"; "/categories/it-infrastructure"]
  /\ ("/categories/devops" ∈ ["/categories/devops"; "/categories/it-infrastructure"] <->
      Some "/categories/devops" ∈ all_links main_page
      /\ exists category_keyword,
           category_keyword ∈ SCRAPER_NEEDED_CATEGORIES (example_config 2)
           /\ occurs_in category_keyword "/categories/devops").
Proof.
  assert (Hfetch : scraper_fetch_page example_world
                     (SCRAPER_BASE_URL (example_config 2)) 0 = Ok (Some main_page))
    by (vm_compute; reflexivity).
  assert (Hlinks : _get_category_links example_world (example_config 2)
                   = Ok ["/categories/devops"; "/categories/it-infrastructure"])
    by (vm_compute; reflexivity).
  split; [exact Hlinks|]. split.
  - intros Hin. apply elem_of_cons in Hin as [Hin|Hin]; [discriminate|].
    apply elem_of_cons in Hin as [Hin|Hin]; [discriminate|]. by apply elem_of_nil in Hin.
  - exact (proj2 (get_category_links_selects example_world (example_config 2) main_page
                    _ Hfetch Hlinks) "/categories/devops").
Defined.

Lemma needed_links_ext categories1 categories2 hrefs :
  (forall k, k ∈ categories1 <-> k ∈ categories2) ->
  needed_links categories1 hrefs = needed_links categories2 hrefs.
Proof.
  intros Hsame. induction hrefs as [|[href|] hrefs IH]; cbn [needed_links].
  - done.
  - rewrite IH. destruct (needed_links categories2 hrefs) as [links|e]; [|done].
    f_equal.
    replace (existsb (fun k => str_contains k href) categories1)
      with (existsb (fun k => str_contains k href) categories2); [done|].
    apply eq_true_iff_eq. rewrite !existsb_exists.
    split; intros (k & Hin & Hk); exists k; (split; [|done]);
      apply list_elem_of_In; apply Hsame; by apply list_elem_of_In.
  - rewrite IH. destruct categories1 as [|k1 ks1], categories2 as [|k2 ks2]; try done.
    + exfalso. eapply elem_of_nil. apply Hsame. left.
    + exfalso. eapply elem_of_nil. apply Hsame. left.
Qed.

(** X3.  The needed categories act as a set: two configurations with the
    same base url whose keyword collections have the same elements, in
    whatever order and with whatever repetitions, select the same category
    links (and fail alike). *)
Theorem category_keywords_as_set (W : World) (cfg1 cfg2 : Config) :
  SCRAPER_BASE_URL cfg1 = SCRAPER_BASE_URL cfg2 ->
  (forall k, k ∈ SCRAPER_NEEDED_CATEGORIES cfg1 <-> k ∈ SCRAPER_NEEDED_CATEGORIES cfg2) ->
  _get_category_links W cfg1 = _get_category_links W cfg2.
Proof.
  intros Hbase Hsame. unfold _get_category_links. rewrite Hbase.
  destruct (scraper_fetch_page W _ 0) as [[tree|]|e]; try done.
  by apply needed_links_ext.
Qed.

Lemma category_keywords_as_set_witness :
  _get_category_links example_world
    (example_config_with ["it-infrastructure"; "devops"; "it-infrastructure"])
  = _get_category_links example_world (example_config_with ["devops"; "it-infrastructure"]).
Proof.
  apply category_keywords_as_set; [reflexivity|].
  intros k. simpl. rewrite !elem_of_cons. pose proof (elem_of_nil k). tauto.
Defined.

Lemma needed_links_all categories hrefs :
  EmptyString ∈ categories ->
  needed_links categories (Some <$> hrefs) = Ok hrefs.
Proof.
  intros Hin. induction hrefs as [|href hrefs IH]; [done|].
  cbn [fmap list_fmap needed_links]. fold (Some <$> hrefs). rewrite IH.
  replace (existsb _ categories) with true; [done|].
  symmetry. apply existsb_exists. exists EmptyString.
  split; [by apply list_elem_of_In|]. by destruct href.
Qed.

(** X4.  An empty keyword selects everything: when the variable
    SCRAPER_NEEDED_CATEGORIES is set to the empty string or its value ends
    in a comma, the keyword set contains [""], which occurs in every href,
    so every category button of the landing page is followed. *)
Theorem empty_keyword_selects_every_category (W : World) (cfg : Config)
    (env_value : string) (main_page_tree : HtmlElement) (hrefs : list string) :
  env_value = EmptyString \/ (exists v, env_value = v +:+ ",") ->
  (forall k, k ∈ SCRAPER_NEEDED_CATEGORIES cfg
             <-> k ∈ config_needed_categories (Some env_value)) ->
  scraper_fetch_page W (SCRAPER_BASE_URL cfg) 0 = Ok (Some main_page_tree) ->
  all_links main_page_tree = Some <$> hrefs ->
  _get_category_links W cfg = Ok hrefs.
Proof.
  intros Henv Hcfg Hfetch Hall.
  rewrite (get_category_links_fetched _ _ _ Hfetch), Hall.
  apply needed_links_all. apply Hcfg.
  unfold config_needed_categories, needed_categories_pieces. cbn [default]. unfold id.
  apply elem_of_list_to_set.
  destruct Henv as [->|[v ->]].
  - left.
  - destruct (split_on_trailing ","%char v) as (pieces & -> & _).
    apply elem_of_app. right. left.
Qed.

Lemma empty_keyword_selects_every_category_witness :
  _get_category_links example_world
    (example_config_with (elements (config_needed_categories (Some "devops,"))))
  = Ok ["/categories/devops"; "/categories/security"; "/categories/it-infrastructure"].
Proof.
  apply (empty_keyword_selects_every_category example_world _ "devops," main_page).
  - right. by exists "devops".
  - intros k. unfold example_config_with. cbn [SCRAPER_NEEDED_CATEGORIES].
    apply elem_of_elements.
  - vm_compute; reflexivity.
  - vm_compute; reflexivity.
Defined.

(** ** Category pages *)

Lemma last_segment_from_spec acc s :
  (count_char "/" s = 0%nat /\ last_segment_from acc s = acc)
  \/ (count_char "/" (last_segment_from acc s) = 0%nat
      /\ exists pre, s = pre +:+ "/" +:+ last_segment_from acc s).
Proof.
  revert acc. induction s as [|c s IH]; intros acc; cbn [last_segment_from count_char].
  - by left.
  - destruct (Ascii.eqb c "/") eqn:E.
    + apply Ascii.eqb_eq in E as ->. right.
      destruct (IH s) as [[Hnone ->]|[Hnone [pre Hpre]]].
      * split; [done|]. by exists EmptyString.
      * split; [done|]. exists (String "/" pre).
        change (String "/" s = String "/" (pre +:+ "/" +:+ last_segment_from s s)).
        by f_equal.
    + destruct (IH acc) as [[Hnone ->]|[Hnone [pre Hpre]]].
      * left. split; [lia | done].
      * right. split; [done|]. exists (String c pre).
        change (String c s = String c (pre +:+ "/" +:+ last_segment_from acc s)).
        by f_equal.
Qed.

Lemma last_segment_from_trailing acc s :
  last_segment_from acc (s +:+ "/") = EmptyString.
Proof.
  revert acc. induction s as [|c s IH]; intros acc.
  - reflexivity.
  - change (String c s +:+ "/") with (String c (s +:+ "/")). cbn [last_segment_from].
    destruct (Ascii.eqb c "/"); apply IH.
Qed.

(** X5.  The category slug given to every product of a category page is
    what follows the last slash of the category link: it contains no slash,
    it is the whole link when the link has no slash, and it is empty when
    the link ends in a slash. *)
Theorem category_slug_after_last_slash (category_url : string) :
  let current_category_slug := last_segment category_url in
  count_char "/" current_category_slug = 0%nat
  /\ ((count_char "/" category_url = 0%nat /\ current_category_slug = category_url)
      \/ exists pre, category_url = pre +:+ "/" +:+ current_category_slug)
  /\ last_segment (category_url +:+ "/") = EmptyString.
Proof.
  unfold last_segment. split; [|split].
  - destruct (last_segment_from_spec category_url category_url) as [[H ->]|[H _]]; done.
  - destruct (last_segment_from_spec category_url category_url) as [[H ?]|[? H]]; auto.
  - apply last_segment_from_trailing.
Qed.

(** X6.  Every listing entry read from a category page comes from one
    product link element of that page with a non-empty href: its url is
    that href joined to the base url, its name is the stripped text of the
    element's first name span, or "Unknown Product Name" when there is
    none, and its category is the slug of the category link.  Elements
    without an href are skipped, so there are at most as many entries as
    link elements; when every element has an href the entries correspond to
    the elements one to one, in page order. *)
Theorem product_links_from_category_page (W : World) (cfg : Config)
    (category_url : string) (page_tree : HtmlElement) :
  let entries := _get_product_links_from_category_page W cfg category_url page_tree in
  let elements := xpath_elements page_tree product_links_xpath in
  (length entries <= length elements)%nat
  /\ (forall p, p ∈ entries ->
        category_on_listing p = last_segment category_url
        /\ exists product_link_elem href,
             product_link_elem ∈ elements
             /\ get_attr product_link_elem "href" = Some href
             /\ href <> EmptyString
             /\ url p = urljoin W (SCRAPER_BASE_URL cfg) href
             /\ name_on_listing p = listing_name product_link_elem)
  /\ (Forall (fun product_link_elem =>
                exists href, get_attr product_link_elem "href" = Some href
                             /\ href <> EmptyString) elements ->
      entries =
        (fun product_link_elem =>
           {| name_on_listing := listing_name product_link_elem;
              url := urljoin W (SCRAPER_BASE_URL cfg)
                       (default EmptyString (get_attr product_link_elem "href"));
              category_on_listing := last_segment category_url |}) <$> elements).
Proof.
  unfold _get_product_links_from_category_page.
  induction (xpath_elements page_tree product_links_xpath) as [|elem elems IH];
    cbn [flat_map].
  - split; [done|]. split; [|done]. by intros p ?%elem_of_nil.
  - destruct IH as (Hlen & Hmem & Hall).
    split; [|split].
    + rewrite length_app. destruct (get_attr elem "href") as [[|]|]; simpl; lia.
    + intros p Hin. apply elem_of_app in Hin as [Hin|Hin].
      * destruct (get_attr elem "href") as [[|c href]|] eqn:Ehref;
          try by apply elem_of_nil in Hin.
        apply list_elem_of_singleton in Hin as ->. split; [done|].
        exists elem, (String c href). split; [left|]. done.
      * destruct (Hmem p Hin) as (Hcat & e & href & He & Hrest).
        split; [done|]. exists e, href. split; [by right | done].
    + intros Hok. inversion Hok as [|? ? (href & Ehref & Hne) Hok']; subst.
      rewrite fmap_cons, <- (Hall Hok'). cbn beta. rewrite Ehref.
      destruct href; [congruence | reflexivity].
Qed.

Lemma scrape_category_pages_ok W cfg category_links :
  (forall link e, link ∈ category_links ->
     scraper_fetch_page W link (SLEEP_BETWEEN_CATEGORY_PAGES cfg) <> Raise e) ->
  scrape_category_pages W cfg category_links
  = (category_page_event W cfg <$> category_links,
     Ok (flat_map (products_of_link W cfg) category_links)).
Proof.
  induction category_links as [|link links IH]; intros Hfetch; [done|].
  cbn [scrape_category_pages flat_map fmap list_fmap].
  unfold products_of_link at 1, category_page_event at 1.
  rewrite IH by (intros l e Hl; apply Hfetch; by right).
  destruct (scraper_fetch_page W link _) as [[tree|]|e] eqn:E; [done | done |].
  exfalso. eapply (Hfetch link e); [left | done].
Qed.

(** X7.  Phase 2 with a scraper that does not raise: the category links
    are visited once each, in order; a link whose page could not be fetched
    is skipped without stopping the scan; and the listing entries collected
    are those of the fetched pages, page after page in link order. *)
Theorem scrape_category_pages_skips_failures (W : World) (cfg : Config)
    (category_links : list string) :
  (forall link e, link ∈ category_links ->
     scraper_fetch_page W link (SLEEP_BETWEEN_CATEGORY_PAGES cfg) <> Raise e) ->
  (scrape_category_pages W cfg category_links).1
    = category_page_event W cfg <$> category_links
  /\ (scrape_category_pages W cfg category_links).2
     = Ok (flat_map (products_of_link W cfg) category_links)
  /\ (forall link, link ∈ category_links ->
        scraper_fetch_page W link (SLEEP_BETWEEN_CATEGORY_PAGES cfg) = Ok None ->
        products_of_link W cfg link = []
        /\ EvCategoryPage link false ∈ (scrape_category_pages W cfg category_links).1).
Proof.
  intros Hfetch. rewrite (scrape_category_pages_ok _ _ _ Hfetch).
  split; [done|]. split; [done|].
  intros link Hin Hnone. unfold products_of_link. rewrite Hnone. split; [done|].
  cbn [fst]. apply list_elem_of_fmap. exists link. split; [|done].
  unfold category_page_event. by rewrite Hnone.
Qed.

Lemma scrape_category_pages_skips_failures_witness :
  scrape_category_pages example_world (example_config 2)
    ["/marketplace/b"; "/categories/devops"]
  = ([EvCategoryPage "/marketplace/b" false; EvCategoryPage "/categories/devops" true],
     Ok [mkProductInfo "A" "https://example.test/marketplace/a" "devops"]).
Proof.
  destruct (scrape_category_pages_skips_failures example_world (example_config 2)
              ["/marketplace/b"; "/categories/devops"]) as (Hevs & Hres & _).
  - intros link e _. apply example_fetch_never_raises.
  - destruct (scrape_category_pages example_world (example_config 2)
                ["/marketplace/b"; "/categories/devops"]) as [evs res].
    cbn [fst snd] in Hevs, Hres. rewrite Hevs, Hres. vm_compute. reflexivity.
Defined.

(** ** Runs that start no thread *)

Lemma step_nothing_started W cfg l s s' :
  nothing_started s -> step W cfg l s = Some s' ->
  l = LOrch /\ nothing_started s' /\ database s' = database s
  /\ teardown_steps (orch s) = S (teardown_steps (orch s'))
  /\ (forall f, (forall e, f (EvCritical e) = false) -> f EvCloseSession = false ->
        f EvTimingLog = false -> count_events f (history s') = count_events f (history s)).
Proof.
  intros (Hws & Hwr & Hq & Hr & Ho) Hstep. destruct l as [|i|].
  - simpl in Hstep. invert_orch_step Hstep; try done;
      (split; [done|]); (split; [by repeat split|]); (split; [done|]);
      (split; [done|]); intros f He Hc Ht; cbn [history];
      by rewrite count_events_cons, ?He, ?Hc, ?Ht.
  - simpl in Hstep. by rewrite Hws in Hstep.
  - simpl in Hstep. by rewrite Hwr in Hstep.
Qed.

Lemma exec_nothing_started W cfg schedule s s' :
  nothing_started s -> exec W cfg schedule s = Some s' ->
  nothing_started s' /\ Forall (fun l => l = LOrch) schedule
  /\ database s' = database s
  /\ (length schedule + teardown_steps (orch s') = teardown_steps (orch s))%nat
  /\ (forall f, (forall e, f (EvCritical e) = false) -> f EvCloseSession = false ->
        f EvTimingLog = false -> count_events f (history s') = count_events f (history s)).
Proof.
  revert s. induction schedule as [|l ls IH]; intros s Hs Hexec; simpl in Hexec.
  - inversion Hexec; subst. split; [done|]. split; [constructor|]. by repeat split.
  - destruct (step W cfg l s) as [s1|] eqn:E; [|done].
    destruct (step_nothing_started _ _ _ _ _ Hs E) as (-> & Hs1 & Hd1 & Ht1 & Hc1).
    destruct (IH _ Hs1 Hexec) as (Hs' & Hls & Hd' & Ht' & Hc').
    split; [done|]. split; [by constructor|]. split; [congruence|].
    split; [simpl; lia|]. intros f He Hc Ht. rewrite Hc', Hc1 by done. done.
Qed.

Lemma teardown_runs W cfg s :
  nothing_started s ->
  exists s', exec W cfg (replicate (teardown_steps (orch s)) LOrch) s = Some s'
             /\ orch s' = OReturned.
Proof.
  intros (Hws & Hwr & Hq & Hr & Ho).
  destruct s as [q r ws w d o h]; simpl in *.
  destruct o; try done; simpl; unfold run_scraping; simpl;
    eexists; split; reflexivity.
Qed.

Lemma enqueued_all h :
  enqueued (fun _ => true) h = count_events is_put_product h.
Proof.
  unfold enqueued, count_events.
  induction h as [|ev h IH]; [done|]. cbn [sum_list_with]. rewrite IH. by destruct ev.
Qed.

Lemma count_events_reverse f h : count_events f (reverse h) = count_events f h.
Proof. unfold count_events. apply sum_list_with_reverse. Qed.

Lemma count_events_app f h1 h2 :
  count_events f (h1 ++ h2) = (count_events f h1 + count_events f h2)%nat.
Proof. unfold count_events. apply sum_list_with_app. Qed.

Lemma count_events_none f (Q : event -> Prop) h :
  Forall Q h -> (forall ev, Q ev -> f ev = false) -> count_events f h = 0%nat.
Proof.
  intros Hh Hf. unfold count_events. eapply sum_list_with_zero; [exact Hh|].
  intros ev Hev. by rewrite (Hf ev Hev).
Qed.

(** After discovery no thread has been started; the events so far are
    discovery events. *)
Lemma init_system_not_queued W cfg d :
  (forall ps, (discovery W cfg d).2 <> Queued ps) ->
  nothing_started (init_system W cfg d)
  /\ count_events is_put_product (history (init_system W cfg d)) = 0%nat.
Proof.
  intros Hout. unfold init_system.
  destruct (discovery W cfg d) as [[evs d1] out] eqn:E. simpl in Hout.
  apply discovery_events in E as [Hev Henq].
  split.
  - destruct out; try done. by specialize (Hout ps).
  - cbn [history]. rewrite count_events_reverse, <- enqueued_all, Henq.
    destruct out; try done. by specialize (Hout ps).
Qed.

Lemma init_system_history_discovery W cfg d :
  Forall (fun ev => is_discovery_event ev = true) (history (init_system W cfg d)).
Proof.
  unfold init_system. destruct (discovery W cfg d) as [[evs d1] out] eqn:E.
  apply discovery_events in E as [Hev _]. cbn [history].
  by apply Forall_reverse.
Qed.

(** X8.  Test mode with a product limit of zero scrapes nothing: whatever
    the site holds, nothing is put on the product queue, and under every
    schedule no worker and no writer thread is ever started, the database is
    left as table creation left it, and the main thread returns within three
    steps, the last two being the closing of the session and the timing
    log. *)
Theorem test_limit_zero_scrapes_nothing (W : World) (cfg : Config) (d : Database)
    (schedule : list label) (s : System) :
  SCRAPER_TEST_MODE cfg = true ->
  TEST_PRODUCT_LIMIT cfg = 0 ->
  exec W cfg schedule (init_system W cfg d) = Some s ->
  workers s = [] /\ writer s = DNotStarted
  /\ product_url_queue s = empty_queue /\ data_to_write_queue s = empty_queue
  /\ count_events is_put_product (history s) = 0%nat
  /\ count_events is_thread_start (history s) = 0%nat
  /\ database s = (create_products_table W d).1
  /\ Forall (fun l => l = LOrch) schedule /\ (length schedule <= 3)%nat
  /\ exists s', exec W cfg (replicate (teardown_steps (orch s)) LOrch) s = Some s'
                /\ orch s' = OReturned.
Proof.
  intros Hmode Hlimit Hexec.
  assert (Hout : forall ps, (discovery W cfg d).2 <> Queued ps).
  { intros ps. unfold discovery.
    destruct (create_products_table W d) as [d1 [[]|e]]; [|done].
    destruct (_get_category_links W cfg) as [[|link links]|e]; [done| |done].
    destruct (scrape_category_pages W cfg (link :: links)) as [evs [all|e]]; [|done].
    cbn [snd]. unfold products_to_queue. rewrite Hmode, Hlimit.
    unfold slice_to. simpl. done. }
  destruct (init_system_not_queued _ _ _ Hout) as [Hidle Hput].
  destruct (exec_nothing_started _ _ _ _ _ Hidle Hexec) as (Hs & Hsched & Hdb & Hlen & Hcount).
  pose proof Hs as (Hws & Hwr & Hq & Hr & Ho).
  split; [done|]. split; [done|]. split; [done|]. split; [done|].
  split; [by rewrite Hcount|].
  split.
  { rewrite Hcount by done.
    eapply count_events_none; [apply init_system_history_discovery|]. by intros []. }
  split.
  { rewrite Hdb. unfold init_system, discovery.
    destruct (create_products_table W d) as [d1 [[]|e]]; [|done].
    destruct (_get_category_links W cfg) as [[|link links]|e]; try done.
    by destruct (scrape_category_pages W cfg (link :: links)) as [evs [all|e]]. }
  split; [done|]. split.
  { destruct (orch (init_system W cfg d)); simpl in Hlen; lia. }
  by apply teardown_runs.
Qed.

Lemma test_limit_zero_scrapes_nothing_witness :
  exists s,
    exec example_world (example_test_config 0) [LOrch; LOrch]
      (init_system example_world (example_test_config 0) empty_database) = Some s
    /\ workers s = [] /\ writer s = DNotStarted
    /\ count_events is_put_product (history s) = 0%nat.
Proof.
  assert (He : exec example_world (example_test_config 0) [LOrch; LOrch]
                 (init_system example_world (example_test_config 0) empty_database)
               = Some (mkSystem empty_queue empty_queue [] DNotStarted
                         (mkDatabase [] None 1) OReturned
                         [EvTimingLog; EvCloseSession;
                          EvCategoryPage "/categories/it-infrastructure" true;
                          EvCategoryPage "/categories/devops" true;
                          EvDiscoverCategories; EvCreateTable]))
    by (vm_compute; reflexivity).
  eexists. split; [exact He|].
  destruct (test_limit_zero_scrapes_nothing example_world (example_test_config 0)
              empty_database _ _ eq_refl eq_refl He) as (H1 & H2 & _ & _ & H3 & _).
  split; [exact H1|]. split; [exact H2 | exact H3].
Defined.

(** X9.  When creating the products table fails, [run_scraping] fetches
    nothing: the exception is caught at line 226, logged as critical, the
    session is closed and the timing logged; no page is requested, nothing
    is queued and no thread is started, under every schedule. *)
Theorem table_failure_aborts (W : World) (cfg : Config) (d : Database) (e : exn) :
  (create_products_table W d).2 = Raise e ->
  let s0 := init_system W cfg d in
  s0 = mkSystem empty_queue empty_queue [] DNotStarted
         (create_products_table W d).1 (OExcept e) [EvCreateTable]
  /\ exec W cfg [LOrch; LOrch; LOrch] s0
     = Some (mkSystem empty_queue empty_queue [] DNotStarted
               (create_products_table W d).1 OReturned
               [EvTimingLog; EvCloseSession; EvCritical e; EvCreateTable])
  /\ (forall schedule s, exec W cfg schedule s0 = Some s ->
        Forall (fun l => l = LOrch) schedule /\ (length schedule <= 3)%nat
        /\ workers s = [] /\ writer s = DNotStarted
        /\ database s = (create_products_table W d).1).
Proof.
  intros Hfail s0.
  assert (Hs0 : s0 = mkSystem empty_queue empty_queue [] DNotStarted
                       (create_products_table W d).1 (OExcept e) [EvCreateTable]).
  { subst s0. unfold init_system, discovery.
    destruct (create_products_table W d) as [d1 r]. simpl in Hfail. by subst r. }
  split; [exact Hs0|]. split; [by rewrite Hs0|].
  intros schedule s Hexec.
  assert (Hidle : nothing_started s0) by (by rewrite Hs0).
  destruct (exec_nothing_started _ _ _ _ _ Hidle Hexec) as (Hs & Hsched & Hdb & Hlen & _).
  destruct Hs as (Hws & Hwr & _).
  split; [done|]. split; [rewrite Hs0 in Hlen; simpl in Hlen; lia|].
  split; [done|]. split; [done|]. by rewrite Hdb, Hs0.
Qed.

Lemma table_failure_aborts_witness :
  exec unreachable_db_world (example_config 2) [LOrch; LOrch; LOrch]
    (init_system unreachable_db_world (example_config 2) empty_database)
  = Some (mkSystem empty_queue empty_queue [] DNotStarted (mkDatabase [] None 1) OReturned
            [EvTimingLog; EvCloseSession; EvCritical (DatabaseError "OperationalError");
             EvCreateTable]).
Proof.
  destruct (table_failure_aborts unreachable_db_world (example_config 2) empty_database
              (DatabaseError "OperationalError") eq_refl) as (_ & Hrun & _).
  exact Hrun.
Defined.

(** ** What is put on the product queue *)

Lemma slice_to_take {A} k (l : list A) : exists n, slice_to k l = take n l.
Proof. unfold slice_to. destruct (k <? 0); eauto. Qed.

Lemma products_to_queue_NoDup test_mode limit ps :
  NoDup (url <$> products_to_queue test_mode limit ps).
Proof.
  assert (Hall : NoDup (url <$> unique_products_to_process ps)).
  { rewrite dict_by_url_urls. apply NoDup_first_occurrences. }
  unfold products_to_queue. destruct test_mode; [|done].
  destruct (slice_to_take limit (unique_products_to_process ps)) as [n ->].
  rewrite fmap_take. eapply sublist_NoDup; [exact Hall | apply sublist_take].
Qed.

Lemma discovery_queued W cfg d ps :
  (discovery W cfg d).2 = Queued ps ->
  exists all_products_from_categories,
    ps = products_to_queue (SCRAPER_TEST_MODE cfg) (TEST_PRODUCT_LIMIT cfg)
           all_products_from_categories
    /\ ps <> [].
Proof.
  unfold discovery.
  destruct (create_products_table W d) as [d1 [[]|e]]; [|done].
  destruct (_get_category_links W cfg) as [[|link links]|e]; [done| |done].
  destruct (scrape_category_pages W cfg (link :: links)) as [evs [all|e]]; [|done].
  cbn [snd]. destruct (products_to_queue _ _ all) as [|p qs] eqn:E; [done|].
  intros [= <-]. exists all. by rewrite E.
Qed.

(** X10.  When the sequential part of [run_scraping] hands products to the
    pool, the product queue holds at least one ProductRef, no two of them
    with the same url (with or without test mode, whatever the limit), no
    sentinel yet, and its count of unfinished tasks is the number of
    ProductRefs; the main thread is about to start the writer thread. *)
Theorem queued_products_distinct (W : World) (cfg : Config) (d : Database)
    (ps : list ProductInfo) :
  (discovery W cfg d).2 = Queued ps ->
  ps <> [] /\ NoDup (url <$> ps)
  /\ product_url_queue (init_system W cfg d) = mkQueue (Some <$> ps) (length ps)
  /\ data_to_write_queue (init_system W cfg d) = empty_queue
  /\ orch (init_system W cfg d) = OStartWriter
  /\ count_events is_put_product (history (init_system W cfg d)) = length ps.
Proof.
  intros Hout. destruct (discovery_queued _ _ _ _ Hout) as (all & Hps & Hne).
  split; [done|]. split; [rewrite Hps; apply products_to_queue_NoDup|].
  unfold init_system. destruct (discovery W cfg d) as [[evs d1] out] eqn:E.
  simpl in Hout. subst out. split; [done|]. split; [done|]. split; [done|].
  cbn [history]. apply discovery_events in E as [_ Henq].
  rewrite count_events_reverse, <- enqueued_all, Henq.
  clear. induction ps as [|p ps IH]; [done|].
  rewrite fmap_cons. unfold queued in *. cbn [sum_list_with]. by rewrite IH.
Qed.

Lemma queued_products_distinct_witness :
  NoDup (url <$> [ mkProductInfo "A-dup" "https://example.test/marketplace/a"
                     "it-infrastructure";
                   mkProductInfo "B" "https://example.test/marketplace/b"
                     "it-infrastructure" ])
  /\ product_url_queue (init_system example_world (example_config 2) empty_database)
     = mkQueue (Some <$> example_refs) 2.
Proof.
  destruct (queued_products_distinct example_world (example_config 2) empty_database
              example_refs) as (_ & Hnd & Hq & _); [vm_compute; reflexivity|].
  split; [exact Hnd | exact Hq].
Defined.

(** ** Each product page is fetched at most once *)

Lemma step_fetch_budget W cfg P l s s' :
  fetch_budget P s -> step W cfg l s = Some s' -> fetch_budget P s'.
Proof.
  unfold fetch_budget. intros Hs Hstep. destruct l as [|i|].
  - simpl in Hstep. unfold fetches, enqueued, queued in *.
    invert_orch_step Hstep; cbn [history workers product_url_queue items put sum_list_with];
      rewrite ?sum_list_with_snoc; simpl; lia.
  - apply step_worker_inv in Hstep as (pc & pc' & q & r & ev & Hi & Hw & ->).
    cbn [history workers product_url_queue].
    pose proof (sum_list_with_insert (about_to_fetch P) _ _ _ pc' Hi) as Hsum.
    unfold fetches, enqueued, queued in *.
    invert_worker_step Hw; cbn [sum_list_with about_to_fetch items] in *;
      use_items; simpl in *; lia.
  - apply step_writer_inv in Hstep as (pc' & r & d & ev & Hw & ->).
    cbn [history workers product_url_queue].
    unfold fetches, enqueued in *. cbn [sum_list_with].
    invert_writer_step Hw; lia.
Qed.

Lemma init_fetch_budget W cfg d P : fetch_budget P (init_system W cfg d).
Proof.
  unfold fetch_budget, init_system.
  destruct (discovery W cfg d) as [[evs d1] out] eqn:E.
  apply discovery_events in E as [Hev Henq].
  cbn [history workers product_url_queue sum_list_with].
  unfold enqueued at 1. rewrite sum_list_with_reverse. fold (enqueued P evs).
  rewrite Henq. unfold fetches. rewrite sum_list_with_reverse.
  rewrite (sum_list_with_zero _ _ _ Hev) by (by intros []).
  destruct out; simpl; lia.
Qed.

Lemma queued_has_url u ps :
  NoDup (url <$> ps) -> (queued (has_url u) (Some <$> ps) <= 1)%nat.
Proof.
  unfold queued. induction ps as [|p ps IH]; csimpl; [lia|].
  intros Hnd. apply NoDup_cons in Hnd as [Hnotin Hnd]. specialize (IH Hnd).
  unfold has_url at 1. destruct (String.eqb (url p) u) eqn:E; simpl; [|lia].
  apply String.eqb_eq in E. subst u.
  assert (Hz : sum_list_with
                 (fun x : option ProductInfo =>
                    match x with Some p0 => indicator (has_url (url p) p0) | None => 0%nat end)
                 (Some <$> ps) = 0%nat); [|lia].
  clear IH Hnd. induction ps as [|q ps IH]; csimpl; [done|].
  rewrite IH by (intros Hin; apply Hnotin; by right).
  unfold has_url. destruct (String.eqb (url q) (url p)) eqn:E; [|done].
  apply String.eqb_eq in E. exfalso. apply Hnotin. rewrite <- E. left.
Qed.

Lemma exec_enqueued W cfg P schedule s s' :
  exec W cfg schedule s = Some s' -> enqueued P (history s') = enqueued P (history s).
Proof.
  revert s. induction schedule as [|l ls IH]; intros s Hexec; simpl in Hexec.
  - by inversion Hexec.
  - destruct (step W cfg l s) as [s1|] eqn:E; [|done].
    rewrite (IH _ Hexec).
    destruct (step_history _ _ _ _ _ E) as (ev & -> & Hev).
    rewrite enqueued_cons, Hev. done.
Qed.

Lemma init_enqueued_has_url W cfg d u :
  (enqueued (has_url u) (history (init_system W cfg d)) <= 1)%nat.
Proof.
  unfold init_system. destruct (discovery W cfg d) as [[evs d1] out] eqn:E.
  cbn [history]. unfold enqueued. rewrite sum_list_with_reverse. fold (enqueued (has_url u) evs).
  pose proof E as E'. apply discovery_events in E' as [_ ->].
  destruct out as [e| | |ps]; try lia.
  apply queued_has_url.
  destruct (discovery_queued W cfg d ps) as (all & -> & _); [by rewrite E|].
  apply products_to_queue_NoDup.
Qed.

(** X11.  No product page is fetched twice in a run: under every schedule
    and for every url, at most one [fetch_page] call of a worker has
    returned for a ProductRef with that url, and a worker fetches only what
    was put on the product queue. *)
Theorem each_product_fetched_at_most_once (W : World) (cfg : Config) (d : Database)
    (schedule : list label) (s : System) :
  exec W cfg schedule (init_system W cfg d) = Some s ->
  (forall u, (fetches (has_url u) (history s) <= 1)%nat)
  /\ (forall i p ok, EvFetched i p ok ∈ history s -> EvPutProduct p ∈ history s).
Proof.
  intros Hexec.
  assert (Hbudget : forall P, fetch_budget P s).
  { intros P. revert Hexec. apply exec_invariant; [|apply init_fetch_budget].
    intros l s1 s2. apply step_fetch_budget. }
  split.
  - intros u. specialize (Hbudget (has_url u)). unfold fetch_budget in Hbudget.
    rewrite (exec_enqueued _ _ _ _ _ _ Hexec) in Hbudget.
    pose proof (init_enqueued_has_url W cfg d u). lia.
  - intros i p ok Hin.
    specialize (Hbudget (fun q => bool_decide (q = p))). unfold fetch_budget in Hbudget.
    assert (Hpos : (0 < fetches (fun q => bool_decide (q = p)) (history s))%nat).
    { unfold fetches.
      pose proof (sum_list_with_in (EvFetched i p ok)
                    (fun ev => match ev with
                               | EvFetched _ q _ => indicator (bool_decide (q = p))
                               | _ => 0%nat
                               end) _ Hin) as Hle.
      cbn beta iota in Hle. rewrite bool_decide_eq_true_2 in Hle by done.
      simpl in Hle. lia. }
    assert (Henq : (0 < enqueued (fun q => bool_decide (q = p)) (history s))%nat) by lia.
    apply sum_list_with_pos in Henq as (ev & Hev & Hpos').
    destruct ev; try (simpl in Hpos'; lia).
    unfold indicator in Hpos'. destruct (bool_decide (p0 = p)) eqn:B; [|lia].
    apply bool_decide_eq_true in B. by subst.
Qed.

Lemma each_product_fetched_at_most_once_witness :
  (fetches (has_url "https://example.test/marketplace/a") (history example_state) <= 1)%nat.
Proof.
  assert (He : exec example_world (example_config 2) example_schedule
                 (init_system example_world (example_config 2) empty_database)
               = Some example_state) by (vm_compute; reflexivity).
  exact (proj1 (each_product_fetched_at_most_once _ _ _ _ _ He)
           "https://example.test/marketplace/a").
Defined.

(** ** The products table *)

Lemma dict_set_same {V} k (v : V) d : dict_get k d = Some v -> dict_set k v d = d.
Proof.
  induction d as [|[k' v'] d IH]; simpl; [done|].
  destruct (String.eqb k k') eqn:E.
  - by intros [= ->].
  - intros H. by rewrite IH.
Qed.

Lemma dict_set_set {V} k (v v' : V) d : dict_set k v (dict_set k v' d) = dict_set k v d.
Proof.
  induction d as [|[k0 v0] d IH]; simpl.
  - by rewrite String.eqb_refl.
  - destruct (String.eqb k k0) eqn:E; simpl; rewrite E; [done | by rewrite IH].
Qed.

Lemma dict_set_length {V} k (v : V) d :
  length (dict_set k v d)
  = match dict_get k d with Some _ => length d | None => S (length d) end.
Proof.
  induction d as [|[k' v'] d IH]; simpl; [done|].
  destruct (String.eqb k k'); simpl; [done|]. rewrite IH. by destruct (dict_get k d).
Qed.

Lemma dict_set_NoDup {V} k (v : V) d :
  NoDup (dict_keys d) -> NoDup (dict_keys (dict_set k v d)).
Proof.
  intros Hnd. rewrite dict_keys_set. destruct (bool_decide (k ∈ dict_keys d)) eqn:B; [done|].
  apply bool_decide_eq_false in B. apply NoDup_app. split; [done|]. split.
  - intros x Hx Hin. apply list_elem_of_singleton in Hin. by subst.
  - apply NoDup_singleton.
Qed.

(** The SET clause of the upsert: every column of the record but url. *)
Lemma update_row_url (row product_data : pydict string) :
  dict_get "url"
    (foldl (fun row kv =>
              if String.eqb (fst kv) "url" then row else dict_set (fst kv) (snd kv) row)
           row product_data)
  = dict_get "url" row.
Proof.
  revert row. induction product_data as [|[k v] pd IH]; intros row; [done|].
  cbn [foldl fst snd]. rewrite IH. destruct (String.eqb k "url") eqn:E; [done|].
  apply String.eqb_neq in E. by apply dict_get_set_ne.
Qed.

Lemma update_row_get (row product_data : pydict string) k :
  NoDup (dict_keys product_data) -> k <> "url" ->
  dict_get k
    (foldl (fun row kv =>
              if String.eqb (fst kv) "url" then row else dict_set (fst kv) (snd kv) row)
           row product_data)
  = match dict_get k product_data with
    | Some v => Some v
    | None => dict_get k row
    end.
Proof.
  intros Hnd Hk. revert row.
  induction product_data as [|[k0 v0] pd IH]; intros row; [done|].
  unfold dict_keys in Hnd. rewrite fmap_cons in Hnd. apply NoDup_cons in Hnd as [Hk0 Hnd].
  cbn [foldl fst snd dict_get]. rewrite (IH Hnd).
  destruct (String.eqb k k0) eqn:E.
  - apply String.eqb_eq in E. subst k0.
    assert (Hnone : dict_get k pd = None) by (by apply dict_get_None).
    rewrite Hnone. destruct (String.eqb k "url") eqn:E'.
    + apply String.eqb_eq in E'. done.
    + apply dict_get_set_eq.
  - apply String.eqb_neq in E. destruct (dict_get k pd); [done|].
    destruct (String.eqb k0 "url"); [done|]. by apply dict_get_set_ne.
Qed.

Lemma update_row_fixed (row product_data : pydict string) :
  (forall k v, (k, v) ∈ product_data -> k <> "url" -> dict_get k row = Some v) ->
  foldl (fun row kv =>
           if String.eqb (fst kv) "url" then row else dict_set (fst kv) (snd kv) row)
        row product_data
  = row.
Proof.
  induction product_data as [|[k v] pd IH]; intros Hrow; [done|].
  cbn [foldl fst snd]. destruct (String.eqb k "url") eqn:E.
  - apply IH. intros k' v' Hin. apply Hrow. by right.
  - apply String.eqb_neq in E. rewrite dict_set_same by (apply Hrow; [left | done]).
    apply IH. intros k' v' Hin. apply Hrow. by right.
Qed.

(** X12.  A successful [insert_product_data] is an upsert inside the open
    transaction: afterwards the transaction has a row for the record's url
    that carries every non-url column of the record with the record's
    value; on a conflict the columns the record does not mention keep the
    values of the existing row, otherwise the row is the record itself; the
    rows of all other urls are untouched, and nothing is committed: the
    server's rows and the connection count are unchanged.  It succeeds only
    in a transaction that no earlier statement aborted and on a statement
    the server accepts, and it leaves the transaction usable. *)
Theorem insert_product_data_upserts (W : World) (product_data : pydict string)
    (d : Database) (c : Connection) (u : string) :
  conn d = Some c ->
  NoDup (dict_keys product_data) ->
  dict_get "url" product_data = Some u ->
  (insert_product_data W product_data d).2 = Ok tt ->
  exists c' row,
    insert_product_data W product_data d
      = (mkDatabase (server_rows d) (Some c') (connects d), Ok tt)
    /\ tx_aborted c = false /\ pg_execute W product_data = Ok tt
    /\ tx_aborted c' = false
    /\ dict_get u (tx_rows c') = Some row
    /\ (forall k v, k <> "url" -> dict_get k product_data = Some v ->
          dict_get k row = Some v)
    /\ (forall old, dict_get u (tx_rows c) = Some old ->
          forall k, dict_get k product_data = None \/ k = "url" ->
            dict_get k row = dict_get k old)
    /\ (dict_get u (tx_rows c) = None -> row = product_data)
    /\ (forall u', u' <> u -> dict_get u' (tx_rows c') = dict_get u' (tx_rows c)).
Proof.
  intros Hc Hnd Hu Hsucc. unfold insert_product_data in *. rewrite Hc, Hu in *.
  destruct (tx_aborted c); [discriminate|].
  destruct (pg_execute W product_data) as [[]|e]; [clear Hsucc | discriminate].
  unfold upsert. rewrite Hu.
  destruct (dict_get u (tx_rows c)) as [old|] eqn:Eold.
  - eexists _, _. split; [reflexivity|]. cbn [tx_rows tx_aborted].
    do 3 (split; [done|]).
    split; [apply dict_get_set_eq|]. split; [|split; [|split]].
    + intros k v Hk Hv. by rewrite update_row_get, Hv.
    + intros old' [= <-] k [Hnone| ->].
      * destruct (String.eqb k "url") eqn:E.
        -- apply String.eqb_eq in E. subst k. apply update_row_url.
        -- apply String.eqb_neq in E. by rewrite update_row_get, Hnone.
      * apply update_row_url.
    + done.
    + intros u' Hne. by apply dict_get_set_ne.
  - eexists _, _. split; [reflexivity|]. cbn [tx_rows tx_aborted].
    do 3 (split; [done|]).
    split; [apply dict_get_set_eq|]. split; [|split; [|split]].
    + done.
    + done.
    + done.
    + intros u' Hne. by apply dict_get_set_ne.
Qed.

Lemma insert_product_data_upserts_witness :
  exists c' row,
    insert_product_data example_world record_a_later
      (open_database [("https://example.test/marketplace/a", record_a)])
    = (mkDatabase [("https://example.test/marketplace/a", record_a)] (Some c') 1, Ok tt)
    /\ dict_get "https://example.test/marketplace/a" (tx_rows c') = Some row
    /\ dict_get "price_median" row = Some "$12"
    /\ dict_get "category" row = Some "devops".
Proof.
  destruct (insert_product_data_upserts example_world record_a_later
              (open_database [("https://example.test/marketplace/a", record_a)])
              (mkConnection [("https://example.test/marketplace/a", record_a)] false)
              "https://example.test/marketplace/a")
    as (c' & row & Hins & _ & _ & _ & Hrow & Hnew & Hold & _).
  - reflexivity.
  - apply (bool_decide_unpack _). vm_compute. exact I.
  - reflexivity.
  - reflexivity.
  - exists c', row. split; [exact Hins|]. split; [exact Hrow|]. split.
    + apply Hnew; [discriminate | reflexivity].
    + rewrite (Hold record_a eq_refl "category"); [reflexivity | by left].
Defined.

Lemma table_ok_upsert product_data t : table_ok t -> table_ok (upsert product_data t).
Proof.
  intros [Hnd Hrows]. unfold upsert.
  destruct (dict_get "url" product_data) as [u|] eqn:Eu; [|done].
  destruct (dict_get u t) as [old|] eqn:Eold.
  - split; [by apply dict_set_NoDup|]. intros u' row.
    destruct (decide (u = u')) as [<-|Hne].
    + rewrite dict_get_set_eq. intros [= <-]. rewrite update_row_url. by apply Hrows.
    + rewrite dict_get_set_ne by done. apply Hrows.
  - split; [by apply dict_set_NoDup|]. intros u' row.
    destruct (decide (u = u')) as [<-|Hne].
    + rewrite dict_get_set_eq. by intros [= <-].
    + rewrite dict_get_set_ne by done. apply Hrows.
Qed.

Lemma table_ok_writes W rs t : table_ok t -> table_ok (writes W rs t).
Proof.
  revert t. induction rs as [|r rs IH]; intros t Ht; [done|].
  unfold writes. cbn [foldl]. apply IH. destruct (accepted W r); [|done].
  by apply table_ok_upsert.
Qed.

(** X13.  The upserts keep the table well formed: urls stay unique and
    every row stays filed under its own url column, after one upsert and
    after any sequence of accepted upserts; an upsert adds exactly one row
    when the record's url is new and none when it is already there, and a
    record without url changes nothing. *)
Theorem upsert_keeps_urls_unique (W : World) (t : table) :
  table_ok t ->
  (forall product_data, table_ok (upsert product_data t))
  /\ (forall rs, table_ok (writes W rs t))
  /\ (forall product_data u, dict_get "url" product_data = Some u ->
        length (upsert product_data t)
        = match dict_get u t with Some _ => length t | None => S (length t) end)
  /\ (forall product_data, dict_get "url" product_data = None ->
        upsert product_data t = t).
Proof.
  intros Ht. split; [intros pd; by apply table_ok_upsert|].
  split; [intros rs; by apply table_ok_writes|]. split.
  - intros pd u Hu. unfold upsert. rewrite Hu.
    destruct (dict_get u t) as [old|] eqn:E; by rewrite dict_set_length, E.
  - intros pd Hu. unfold upsert. by rewrite Hu.
Qed.

Lemma upsert_keeps_urls_unique_witness :
  table_ok (upsert record_a_later [("https://example.test/marketplace/a", record_a)])
  /\ length (upsert record_a_later [("https://example.test/marketplace/a", record_a)])
     = 1%nat.
Proof.
  assert (Hok : table_ok [("https://example.test/marketplace/a", record_a)]).
  { split.
    - apply (bool_decide_unpack _). vm_compute. exact I.
    - intros u row. simpl. destruct (String.eqb u _) eqn:E; [|done].
      apply String.eqb_eq in E. subst u. by intros [= <-]. }
  destruct (upsert_keeps_urls_unique example_world _ Hok) as (H1 & _ & H2 & _).
  split; [apply H1|]. by rewrite (H2 record_a_later _ eq_refl).
Defined.

(** X14.  Upserting the same record twice is the same as upserting it
    once, so scraping a product again with unchanged data leaves its row as
    it is. *)
Theorem upsert_idempotent (product_data : pydict string) (t : table) :
  NoDup (dict_keys product_data) ->
  upsert product_data (upsert product_data t) = upsert product_data t.
Proof.
  intros Hnd. unfold upsert.
  destruct (dict_get "url" product_data) as [u|] eqn:Eu; [|done].
  destruct (dict_get u t) as [old|] eqn:Eold; rewrite dict_get_set_eq.
  - rewrite update_row_fixed; [apply dict_set_set|].
    intros k v Hin Hk. rewrite update_row_get by done.
    by rewrite (dict_get_elem _ _ _ Hnd Hin).
  - rewrite update_row_fixed; [apply dict_set_set|].
    intros k v Hin Hk. by apply dict_get_elem.
Qed.

Lemma upsert_idempotent_witness :
  upsert record_a_later
    (upsert record_a_later [("https://example.test/marketplace/a", record_a)])
  = upsert record_a_later [("https://example.test/marketplace/a", record_a)].
Proof.
  apply upsert_idempotent.
  apply (bool_decide_unpack _). vm_compute. exact I.
Defined.

(** ** Connections *)

Lemma create_products_table_conn W d : conn (create_products_table W d).1 = None.
Proof.
  unfold create_products_table. destruct (_connect W d) as [d1|e]; [|done].
  destruct (in_failed_transaction d1); [done|]. by destruct (pg_create_table W).
Qed.

(** X15.  [create_products_table] never leaves a connection behind: whether
    connecting, the statement or nothing failed, the manager is
    disconnected afterwards, so an [insert_product_data] outside a with
    block raises InterfaceError whatever the record.  Started without a
    connection it makes exactly one connection attempt, leaves the rows on
    the server as they were, and succeeds exactly when both the connection
    and the statement succeed; otherwise the exception is raised again. *)
Theorem create_products_table_disconnects (W : World) (d : Database) :
  let d' := (create_products_table W d).1 in
  conn d' = None
  /\ (forall product_data,
        insert_product_data W product_data d'
        = (d', Raise (DatabaseError "InterfaceError")))
  /\ (conn d = None ->
      server_rows d' = server_rows d /\ connects d' = S (connects d)
      /\ ((create_products_table W d).2 = Ok tt <->
          pg_connect W (connects d) = Ok tt /\ pg_create_table W = Ok tt)
      /\ (forall e, pg_connect W (connects d) = Raise e ->
            (create_products_table W d).2 = Raise e)
      /\ (forall e, pg_connect W (connects d) = Ok tt -> pg_create_table W = Raise e ->
            (create_products_table W d).2 = Raise e)).
Proof.
  intros d'.
  assert (Hconn : conn d' = None) by apply create_products_table_conn.
  split; [done|]. split.
  { intros pd. unfold insert_product_data. by rewrite Hconn. }
  intros Hnone. subst d'. unfold create_products_table, _connect. rewrite Hnone.
  destruct (pg_connect W (connects d)) as [[]|e]; simpl.
  - destruct (pg_create_table W) as [[]|e]; simpl; repeat split; try done; intuition congruence.
  - repeat split; try done; intuition congruence.
Qed.

(** ** The writer's transaction in a run *)

Lemma inserted_cons ev h :
  inserted (ev :: h)
  = inserted h ++ match ev with EvInsert r _ => [r] | _ => [] end.
Proof.
  unfold inserted. rewrite reverse_cons, omap_app. f_equal. by destruct ev.
Qed.

Lemma writes_snoc W rs r t :
  writes W (rs ++ [r]) t
  = if accepted W r then upsert r (writes W rs t) else writes W rs t.
Proof. unfold writes. by rewrite foldl_app. Qed.


Lemma init_system_database W cfg d :
  database (init_system W cfg d) = (create_products_table W d).1.
Proof.
  unfold init_system, discovery.
  destruct (create_products_table W d) as [d1 [[]|e]]; [|done].
  destruct (_get_category_links W cfg) as [[|link links]|e]; try done.
  by destruct (scrape_category_pages W cfg (link :: links)) as [evs [all|e]].
Qed.

Lemma inserted_none h :
  count_events is_session_event h = 0%nat -> inserted h = [].
Proof.
  induction h as [|ev h IH]; [done|]. rewrite count_events_cons, inserted_cons.
  intros Hz. rewrite IH by lia. by destruct ev.
Qed.

Lemma commit_le_session h :
  (count_events is_commit h <= count_events is_session_event h)%nat.
Proof.
  induction h as [|ev h IH]; [done|]. rewrite !count_events_cons. destruct ev; simpl; lia.
Qed.

Lemma init_writer_inv W cfg d :
  writer_inv W (server_rows (database (init_system W cfg d)))
    (connects (database (init_system W cfg d))) (init_system W cfg d).
Proof.
  assert (Hz : count_events is_session_event (history (init_system W cfg d)) = 0%nat).
  { eapply count_events_none; [apply init_system_history_discovery|]. by intros []. }
  assert (Hw : writer (init_system W cfg d) = DNotStarted).
  { unfold init_system. by destruct (discovery W cfg d) as [[evs d1] out]. }
  unfold writer_inv. rewrite Hw. split; [done|]. split; [done|].
  split; [|done]. rewrite init_system_database. apply create_products_table_conn.
Qed.

Lemma step_writer_inv_kept W cfg rows0 c0 l s s' :
  writer_inv W rows0 c0 s -> step W cfg l s = Some s' -> writer_inv W rows0 c0 s'.
Proof.
  intros (Hstart & Hfail & Hpc) Hstep. destruct l as [|i|].
  - (* the main thread: the database is not touched *)
    assert (Hsame : database s' = database s
                    /\ (exists ev, history s' = ev :: history s
                                   /\ is_session_event ev = false /\ is_commit ev = false
                                   /\ inserted [ev] = [])
                    /\ (writer s' = writer s
                        \/ (orch s = OStartWriter /\ writer s' = DEnter))
                    /\ orch s' <> OStartWriter).
    { simpl in Hstep. invert_orch_step Hstep; cbn [database history writer orch];
        (split; [done|]); (split; [by eexists|]); (split; [|done]); auto. }
    destruct Hsame as (Hd & (ev & Hh & Hev & Hevc & Hevi) & Hw & Ho).
    assert (Hcount : forall f, f ev = false ->
              count_events f (history s') = count_events f (history s)).
    { intros f Hf. by rewrite Hh, count_events_cons, Hf. }
    assert (Hins : inserted (history s') = inserted (history s)).
    { rewrite Hh, inserted_cons. unfold inserted in Hevi. simpl in Hevi.
      destruct ev; try done; by rewrite app_nil_r. }
    unfold writer_inv. rewrite Hd, Hins, !Hcount by done.
    split; [done|].
    destruct Hw as [Hw|[Hos Hw]].
    + rewrite Hw. done.
    + specialize (Hstart Hos). rewrite Hstart in *. rewrite Hw.
      split; [|done]. intros e He. by destruct (Hfail e He).
  - (* a worker *)
    apply step_worker_inv in Hstep as (pc & pc' & q & r & ev & Hi & Hw & ->).
    assert (Hev : is_session_event ev = false /\ is_commit ev = false
                  /\ inserted (ev :: history s) = inserted (history s)).
    { rewrite inserted_cons. invert_worker_step Hw; by rewrite ?app_nil_r. }
    destruct Hev as (He1 & He2 & He3).
    unfold writer_inv. cbn [database history writer orch].
    rewrite He3, !count_events_cons, He1, He2. done.
  - (* the writer *)
    apply step_writer_inv in Hstep as (pc' & r & d & ev & Hw & ->).
    unfold writer_inv. cbn [database history writer orch].
    rewrite inserted_cons, !count_events_cons.
    assert (Hnotstart : orch s <> OStartWriter).
    { intros Ho. specialize (Hstart Ho). by rewrite Hstart in Hw. }
    split; [done|].
    destruct (writer s) eqn:Ew; cbn [database_writer_worker] in Hw; try done.
    + (* DEnter *)
      destruct Hpc as (Hc & Hrows & Hconn & Hz).
      pose proof (inserted_none _ Hz) as Hins.
      pose proof (commit_le_session (history s)) as Hle.
      unfold db_enter, _connect in Hw. rewrite Hc, Hconn in Hw.
      destruct (pg_connect W c0) as [[]|e] eqn:Ec; inversion Hw; subst; clear Hw;
        cbn [is_session_event is_commit indicator database server_rows conn in_session].
      * split; [done|]. split; [done|]. split; [lia|].
        by rewrite Hins.
      * split; [by intros e' _|]. split; [done|]. left. split; [lia | done].
    + (* DGet *)
      destruct Hpc as (Hrows & Hcommit & Hc).
      assert (Hok : forall e, pg_connect W c0 <> Raise e).
      { intros e He. by destruct (Hfail e He). }
      unfold get in Hw. destruct (items (data_to_write_queue s)) as [|[product_data|] rest];
        inversion Hw; subst; clear Hw;
        cbn [is_session_event is_commit indicator];
        (split; [intros e0 He0; by destruct (Hok e0)|]);
        (split; [done|]); (split; [done|]); by rewrite app_nil_r.
    + (* DGotNone *)
      destruct Hpc as (Hrows & Hcommit & Hc).
      assert (Hok : forall e, pg_connect W c0 <> Raise e).
      { intros e He. by destruct (Hfail e He). }
      unfold task_done in Hw. destruct (unfinished_tasks (data_to_write_queue s));
        inversion Hw; subst; clear Hw;
        cbn [is_session_event is_commit indicator];
        (split; [intros e0 He0; by destruct (Hok e0)|]);
        (split; [done|]); (split; [done|]); by rewrite app_nil_r.
    + (* DInsert *)
      destruct Hpc as (Hrows & Hcommit & Hc).
      assert (Hok : forall e, pg_connect W c0 <> Raise e).
      { intros e He. by destruct (Hfail e He). }
      rewrite (insert_product_data_open _ _ _ _ Hc) in Hw.
      destruct (if tx_aborted _ then _ else _) as [[]|e];
        inversion Hw; subst; clear Hw;
        cbn [is_session_event is_commit indicator database server_rows conn];
        (split; [intros e0 He0; by destruct (Hok e0)|]);
        (split; [done|]); (split; [done|]); by rewrite attempts_snoc.
    + (* DFinally *)
      destruct Hpc as (Hrows & Hcommit & Hc).
      assert (Hok : forall e, pg_connect W c0 <> Raise e).
      { intros e He. by destruct (Hfail e He). }
      unfold task_done in Hw. destruct (unfinished_tasks (data_to_write_queue s));
        inversion Hw; subst; clear Hw;
        cbn [is_session_event is_commit indicator];
        (split; [intros e0 He0; by destruct (Hok e0)|]);
        (split; [done|]); (split; [done|]); by rewrite app_nil_r.
    + (* DExit *)
      destruct Hpc as (Hrows & Hcommit & Hc).
      assert (Hok : forall e, pg_connect W c0 <> Raise e).
      { intros e He. by destruct (Hfail e He). }
      inversion Hw; subst; clear Hw.
      split; [intros e0 He0; by destruct (Hok e0)|].
      destruct exc as [e|].
      * rewrite (proj2 (db_exit_spec _ _ Hc)). cbn. split; [done|].
        left. split; [lia | done].
      * rewrite (commit_attempts _ _ _ _ Hc eq_refl). cbn. split; [done|]. right.
        split; [lia|]. by rewrite app_nil_r.
    + (* DOuter *)
      destruct Hpc as (Hc & Hrows).
      inversion Hw; subst; clear Hw. cbn [is_session_event is_commit indicator].
      split.
      { intros e He. destruct (Hfail e He) as [Hz _]. done. }
      split; [done|]. by rewrite app_nil_r.
Qed.

Lemma exec_writer_inv W cfg d schedule s :
  exec W cfg schedule (init_system W cfg d) = Some s ->
  writer_inv W (server_rows (database (init_system W cfg d)))
    (connects (database (init_system W cfg d))) s.
Proof.
  apply exec_invariant; [|apply init_writer_inv].
  intros l s1 s2. apply step_writer_inv_kept.
Qed.

Lemma commit_only_at_exit_facts W cfg d schedule s :
  exec W cfg schedule (init_system W cfg d) = Some s ->
  (count_events is_commit (history s) <= 1)%nat
  /\ (count_events is_commit (history s) = 1%nat ->
        server_rows (database s)
        = committed W (inserted (history s))
            (server_rows (database (init_system W cfg d)))).
Proof.
  intros Hexec. apply exec_writer_inv in Hexec as (_ & _ & Hpc).
  pose proof (commit_le_session (history s)) as Hle.
  destruct (writer s);
    repeat match goal with
           | H : _ /\ _ |- _ => destruct H
           | H : _ \/ _ |- _ => destruct H
           | H : exists _, _ |- _ => destruct H
           end;
    (split; [lia|]); intros; try done; lia.
Qed.

(** X16.  In every run the writer's work reaches the server in one piece
    or not at all.  While the writer is inside its with block the server
    still holds the rows it had before the run; the open transaction is
    aborted exactly when the server refused one of the upserts attempted so
    far, and otherwise holds the initial rows with those upserts applied in
    order.  There is at most one commit; once it happened the connection is
    closed and the server holds every upsert when the server accepted them
    all, and the rows it had before the run when it refused one.  Without a
    commit the server's rows are the initial ones.  Outside the with block
    the manager holds no connection. *)
Theorem commit_only_at_exit (W : World) (cfg : Config) (d : Database)
    (schedule : list label) (s : System) :
  exec W cfg schedule (init_system W cfg d) = Some s ->
  let rows0 := server_rows (database (init_system W cfg d)) in
  let rs := inserted (history s) in
  (count_events is_commit (history s) <= 1)%nat
  /\ (count_events is_commit (history s) = 0%nat -> server_rows (database s) = rows0)
  /\ (count_events is_commit (history s) = 1%nat ->
        in_session (writer s) = false
        /\ (forallb (accepted W) rs = true ->
            server_rows (database s) = writes W rs rows0)
        /\ (forallb (accepted W) rs = false -> server_rows (database s) = rows0))
  /\ (in_session (writer s) = true ->
        count_events is_commit (history s) = 0%nat
        /\ exists c, conn (database s) = Some c
                     /\ tx_aborted c = negb (forallb (accepted W) rs)
                     /\ (tx_aborted c = false -> tx_rows c = writes W rs rows0))
  /\ (in_session (writer s) = false -> conn (database s) = None).
Proof.
  intros Hexec rows0 rs. apply exec_writer_inv in Hexec as (_ & _ & Hpc).
  fold rows0 in Hpc. fold rs in Hpc.
  pose proof (commit_le_session (history s)) as Hle.
  assert (Htx : forall c, c = attempts W rs (mkConnection rows0 false) ->
            tx_aborted c = negb (forallb (accepted W) rs)
            /\ (tx_aborted c = false -> tx_rows c = writes W rs rows0)).
  { intros c ->. rewrite attempts_aborted. split; [done|]. simpl. intros Hall.
    apply negb_false_iff in Hall. by rewrite attempts_rows. }
  assert (Hcommitted :
            (forallb (accepted W) rs = true -> committed W rs rows0 = writes W rs rows0)
            /\ (forallb (accepted W) rs = false -> committed W rs rows0 = rows0)).
  { unfold committed. split; by intros ->. }
  destruct Hcommitted as [Hall Hsome].
  destruct (writer s); cbn [in_session];
    repeat match goal with
           | H : _ /\ _ |- _ => destruct H
           | H : _ \/ _ |- _ => destruct H
           end;
    repeat split; intros; try done; try lia; eauto;
    match goal with
    | H : server_rows _ = committed _ _ _ |- _ => rewrite H; auto
    end.
Qed.

Lemma commit_only_at_exit_witness :
  count_events is_commit (history commit_state) = 1%nat
  /\ server_rows (database commit_state)
     = writes example_world (inserted (history commit_state)) []
  /\ length (server_rows (database commit_state)) = 1%nat.
Proof.
  assert (He : exec example_world (example_config 2) commit_schedule
                 (init_system example_world (example_config 2) empty_database)
               = Some commit_state) by (vm_compute; reflexivity).
  destruct (commit_only_at_exit _ _ _ _ _ He) as (_ & _ & Hone & _).
  assert (H1 : count_events is_commit (history commit_state) = 1%nat)
    by (vm_compute; reflexivity).
  split; [exact H1|].
  split; [apply (proj1 (proj2 (Hone H1))); vm_compute; reflexivity
         | vm_compute; reflexivity].
Defined.

(** X17.  When the writer thread cannot connect to the database, nothing
    is ever written: under every schedule the server keeps the rows it had,
    the writer never enters its with block, so it takes no record from the
    record queue, inserts nothing and neither commits nor rolls back; it
    logs the critical error and returns after two steps. *)
Theorem writer_connect_failure_writes_nothing (W : World) (cfg : Config) (d : Database)
    (e : exn) (schedule : list label) (s : System) :
  pg_connect W (connects (database (init_system W cfg d))) = Raise e ->
  exec W cfg schedule (init_system W cfg d) = Some s ->
  server_rows (database s) = server_rows (database (init_system W cfg d))
  /\ count_events is_session_event (history s) = 0%nat
  /\ inserted (history s) = []
  /\ in_session (writer s) = false
  /\ conn (database s) = None
  /\ (writer s = DEnter ->
      exists s', exec W cfg [LWriter; LWriter] s = Some s'
                 /\ writer s' = DReturned
                 /\ history s' = EvWriterFinished :: EvDbEnter false :: history s
                 /\ data_to_write_queue s' = data_to_write_queue s).
Proof.
  intros Hfail Hexec.
  apply exec_writer_inv in Hexec as (_ & Hnever & Hpc).
  destruct (Hnever e Hfail) as [Hz Hout].
  pose proof (commit_le_session (history s)) as Hle.
  split; [|split; [done|split; [by apply inserted_none|split; [done|split]]]].
  - destruct (writer s); try done; intuition lia.
  - destruct (writer s); try done; tauto.
  - intros Hw. rewrite Hw in Hpc. destruct Hpc as (Hc & Hrows & Hconn & _).
    destruct s as [pq rq ws w db o h]. simpl in *. subst w.
    cbn [exec step writer database data_to_write_queue database_writer_worker].
    unfold db_enter, _connect. rewrite Hc, Hconn, Hfail. simpl.
    eexists. split; [reflexivity|]. done.
Qed.

Lemma writer_connect_failure_writes_nothing_witness :
  exec flaky_db_world (example_config 2) flaky_schedule
    (init_system flaky_db_world (example_config 2) empty_database) = Some flaky_state
  /\ writer flaky_state = DReturned
  /\ server_rows (database flaky_state) = []
  /\ length (items (data_to_write_queue flaky_state)) = 2%nat.
Proof.
  assert (He : exec flaky_db_world (example_config 2) flaky_schedule
                 (init_system flaky_db_world (example_config 2) empty_database)
               = Some flaky_state) by (vm_compute; reflexivity).
  split; [exact He|]. split; [reflexivity|]. split; [|reflexivity].
  destruct (writer_connect_failure_writes_nothing flaky_db_world (example_config 2)
              empty_database (DatabaseError "OperationalError") _ _ eq_refl He)
    as (Hrows & _).
  rewrite Hrows. reflexivity.
Defined.

(** ** The writer thread on its own *)

Lemma writer_step_decreases W cfg s :
  writer s <> DNotStarted -> writer s <> DReturned ->
  exists s1, step W cfg LWriter s = Some s1
             /\ (writer_work_left s1 < writer_work_left s)%nat
             /\ writer s1 <> DNotStarted
             /\ product_url_queue s1 = product_url_queue s
             /\ workers s1 = workers s /\ orch s1 = orch s.
Proof.
  intros Hn Hr. destruct s as [pq rq ws w d o h].
  unfold writer_work_left. cbn [step writer data_to_write_queue database product_url_queue
                                 workers orch] in *.
  destruct w; try done; cbn [database_writer_worker].
  - destruct (db_enter W d) as [d' [[]|e]]; eexists; (split; [reflexivity|]); simpl;
      repeat split; try done; lia.
  - unfold get. destruct rq as [[|[r|] rest] n]; simpl;
      eexists; (split; [reflexivity|]); simpl; repeat split; try done; lia.
  - unfold task_done. destruct (unfinished_tasks rq);
      eexists; (split; [reflexivity|]); simpl; repeat split; try done; lia.
  - destruct (insert_product_data W product_data d) as [d' [[]|e]];
      eexists; (split; [reflexivity|]); simpl; repeat split; try done; lia.
  - unfold task_done. destruct (unfinished_tasks rq);
      eexists; (split; [reflexivity|]); simpl; repeat split; try done; lia.
  - eexists; (split; [reflexivity|]); simpl; repeat split; try done; lia.
  - eexists; (split; [reflexivity|]); simpl; repeat split; try done; lia.
Qed.

Lemma writer_runs_out W cfg m :
  forall s, (writer_work_left s <= m)%nat -> writer s <> DNotStarted ->
    exists n s', (n <= m)%nat
      /\ exec W cfg (replicate n LWriter) s = Some s'
      /\ writer s' = DReturned
      /\ product_url_queue s' = product_url_queue s
      /\ workers s' = workers s /\ orch s' = orch s.
Proof.
  induction m as [|m IH]; intros s Hm Hn.
  - exists 0%nat, s. split; [done|]. split; [done|]. split; [|done].
    unfold writer_work_left in Hm. destruct (writer s); simpl in Hm; try done; lia.
  - assert (Hdec : writer s = DReturned \/ writer s <> DReturned)
      by (destruct (writer s); (by left) || (by right)).
    destruct Hdec as [Hr|Hr].
    { exists 0%nat, s. split; [lia|]. by repeat split. }
    destruct (writer_step_decreases W cfg s Hn Hr) as (s1 & Hstep & Hlt & Hn1 & Hq & Hws & Ho).
    destruct (IH s1) as (n & s' & Hle & Hexec & Hret & Hq' & Hws' & Ho'); [lia | done |].
    exists (S n), s'. split; [lia|]. split; [cbn [replicate exec]; by rewrite Hstep|].
    split; [done|]. split; [congruence|]. split; congruence.
Qed.

(** X18.  The writer thread always comes to an end and never lets an
    exception escape: from any point of its code and with any content of
    the record queue, running it alone (nothing more being put) it returns
    within 3 steps per waiting item plus 5, after a timeout of its get when
    no sentinel arrives; it touches neither the product queue nor the
    workers nor the main thread. *)
Theorem writer_always_returns (W : World) (cfg : Config) (s : System) :
  writer s <> DNotStarted ->
  exists n s',
    (n <= 3 * length (items (data_to_write_queue s)) + 5)%nat
    /\ exec W cfg (replicate n LWriter) s = Some s'
    /\ writer s' = DReturned
    /\ step W cfg LWriter s' = None
    /\ product_url_queue s' = product_url_queue s
    /\ workers s' = workers s /\ orch s' = orch s.
Proof.
  intros Hn.
  destruct (writer_runs_out W cfg (writer_work_left s) s) as
    (n & s' & Hle & Hexec & Hret & Hrest); [done | done |].
  exists n, s'. split.
  { unfold writer_work_left in Hle. destruct (writer s); simpl in Hle; lia. }
  split; [done|]. split; [done|]. split; [|done].
  simpl. by rewrite Hret.
Qed.

Lemma writer_always_returns_witness :
  exists n s',
    (n <= 3 * 2 + 5)%nat
    /\ exec example_world (example_config 2) (replicate n LWriter) example_state = Some s'
    /\ writer s' = DReturned.
Proof.
  destruct (writer_always_returns example_world (example_config 2) example_state)
    as (n & s' & Hle & Hexec & Hret & _); [discriminate|].
  exists n, s'. split; [exact Hle|]. split; [exact Hexec | exact Hret].
Defined.

(** ** Closing the session *)

Lemma step_pool_done W cfg l s s' :
  orch_inv (thread_count cfg) s -> pool_done s ->
  step W cfg l s = Some s' -> pool_done s'.
Proof.
  unfold pool_done. intros Hinv Hdone Hstep. destruct l as [|i|].
  - simpl in Hstep. invert_orch_step Hstep; cbn [orch workers]; try done;
      unfold orch_inv in Hinv; rewrite Horch in Hinv; try tauto.
    destruct Hinv as (_ & _ & Hnw). by destruct (workers s).
  - destruct (orch s) eqn:Ho;
      try (apply step_worker_inv in Hstep as (pc & pc' & q & r & ev & Hi & Hw & ->);
           cbn [orch]; by rewrite Ho);
      apply step_worker_inv in Hstep as (pc & pc' & q & r & ev & Hi & Hw & ->);
      rewrite (finished_no_step _ _ _ _ _ _ (all_finished_lookup _ _ _ Hdone Hi)) in Hw;
      done.
  - apply step_writer_inv in Hstep as (pc' & r & d & ev & Hw & ->). done.
Qed.

Lemma init_pool_done W cfg d : pool_done (init_system W cfg d).
Proof.
  unfold pool_done, init_system. destruct (discovery W cfg d) as [[evs d1] out].
  by destruct out.
Qed.

Lemma exec_pool_done W cfg d schedule s :
  exec W cfg schedule (init_system W cfg d) = Some s -> pool_done s.
Proof.
  intros Hexec.
  assert (H : run_inv (thread_count cfg) s /\ pool_done s); [|tauto].
  revert Hexec.
  apply (exec_invariant W cfg (fun s => run_inv (thread_count cfg) s /\ pool_done s)).
  - intros l s1 s2 [Hrun Hdone] Hstep. split; [by eapply step_run_inv|].
    eapply step_pool_done; [|done..]. by destruct Hrun as (_ & _ & ? & _).
  - split; [apply init_system_inv | apply init_pool_done].
Qed.

(** X19.  The scraper's session is closed only when no worker can use it
    any more: in every run, once [close_session] has been called every
    submitted worker has left its function, no worker can take another step
    (so no page is requested afterwards), and the session is closed at most
    once. *)
Theorem session_closed_after_workers (W : World) (cfg : Config) (d : Database)
    (schedule : list label) (s : System) :
  exec W cfg schedule (init_system W cfg d) = Some s ->
  (count_events is_close_session (history s) <= 1)%nat
  /\ (EvCloseSession ∈ history s ->
        all_finished (workers s)
        /\ (forall i, step W cfg (LWorker i) s = None)
        /\ (orch s = OTiming \/ orch s = OReturned)).
Proof.
  intros Hexec.
  pose proof (exec_pool_done _ _ _ _ _ Hexec) as Hdone.
  assert (Hreach : reachable W cfg d s) by (by exists schedule).
  destruct (reachable_full_inv _ _ _ _ Hreach) as (_ & _ & _ & Htear & _).
  unfold teardown_recorded in Htear. split.
  - destruct (orch s); lia.
  - intros Hin.
    assert (Hpos : (0 < count_events is_close_session (history s))%nat).
    { apply list_elem_of_split in Hin as (h1 & h2 & Hh).
      symmetry in Hh. eapply count_events_split; [symmetry; exact Hh | done]. }
    unfold pool_done in Hdone.
    assert (Ho : orch s = OTiming \/ orch s = OReturned) by (destruct (orch s); auto; lia).
    assert (Hfin : all_finished (workers s)) by (destruct Ho as [Ho|Ho]; by rewrite Ho in Hdone).
    split; [done|]. split; [|done].
    intros i. simpl. destruct (workers s !! i) as [pc|] eqn:Hi; [|done].
    by rewrite (finished_no_step _ _ _ _ _ _ (all_finished_lookup _ _ _ Hfin Hi)).
Qed.

Lemma session_closed_after_workers_witness :
  exists s, exec example_world (example_config 2) (example_schedule ++ [LOrch; LOrch])
              (init_system example_world (example_config 2) empty_database) = Some s
            /\ all_finished (workers s)
            /\ step example_world (example_config 2) (LWorker 0) s = None.
Proof.
  destruct (exec example_world (example_config 2) (example_schedule ++ [LOrch; LOrch])
              (init_system example_world (example_config 2) empty_database))
    as [s|] eqn:He; [|vm_compute in He; discriminate].
  exists s. split; [reflexivity|].
  destruct (session_closed_after_workers _ _ _ _ _ He) as (_ & Hclosed).
  destruct Hclosed as (Hfin & Hstep & _).
  - vm_compute in He. injection He as <-. left.
  - split; [exact Hfin | apply Hstep].
Defined.

(** ** The collaborators main.py hands to the orchestrator *)

Lemma extract_product_details_keys product_tree name category :
  dict_keys (extract_product_details product_tree name category)
  = ["product_name"; "category"; "price_median"; "price_low"; "price_high";
     "description"].
Proof. unfold extract_product_details. repeat case_match; reflexivity. Qed.

Lemma record_with_url product_tree name category u :
  dict_keys (dict_set "url" u (extract_product_details product_tree name category))
  = record_columns
  /\ dict_get "url" (dict_set "url" u (extract_product_details product_tree name category))
     = Some u.
Proof.
  split; [|apply dict_get_set_eq].
  rewrite dict_keys_set, extract_product_details_keys. reflexivity.
Qed.

Lemma shipped_no_queue_empty join net cfg W0 :
  no_queue_empty (shipped_world join net cfg W0).
Proof.
  split.
  - intros u sl e He. cbn in He. by apply fetch_page_not_queue_empty in He.
  - intros tree name category e He. done.
Qed.

(** A url without a leading slash is requested as it stands: nothing can
    go wrong before the request. *)
Lemma shipped_fetch_absolute join net cfg W0 u sleep_time e :
  startswith "/" u = false ->
  scraper_fetch_page (shipped_world join net cfg W0) u sleep_time <> Raise e.
Proof.
  intros Hu He. cbn in He. apply fetch_page_raises in He as (_ & e' & He').
  unfold full_url_of in He'. by rewrite Hu in He'.
Qed.

Lemma record_columns_name (product_data : pydict string) :
  dict_keys product_data = record_columns -> is_Some (dict_get "product_name" product_data).
Proof.
  intros Hk. destruct (dict_get "product_name" product_data) eqn:E; [done|].
  apply dict_get_None in E. rewrite Hk in E. exfalso. apply E. left.
Qed.

Lemma step_regular_run join net cfg W0 l s s' :
  slots_accounted s -> regular_run s ->
  step (shipped_world join net cfg W0) cfg l s = Some s' -> regular_run s'.
Proof.
  intros Hslots (Hws & Hz & Hq & Hh & Hp) Hstep. destruct l as [|i|].
  - simpl in Hstep. unfold regular_run.
    invert_orch_step Hstep;
      cbn [workers history data_to_write_queue product_url_queue items put];
      rewrite count_events_cons; cbn [is_handler_event indicator];
      (split; [|split; [|split; [|split]]]); try done; try (by constructor);
      apply Forall_app; split; try done; by repeat constructor.
  - apply step_worker_inv in Hstep as (pc & pc' & q & r & ev & Hi & Hw & ->).
    pose proof (Forall_lookup_1 _ _ _ _ Hws Hi) as Hreg.
    pose proof (holding_of_member _ _ _ Hi) as Hmem.
    unfold slots_accounted in Hslots.
    assert (Hnew : regular pc' /\ is_handler_event ev = false
                   /\ Forall record_ok (items r) /\ record_event_ok ev
                   /\ Forall absolute (items q)).
    { destruct pc; cbn [scrape_product_worker] in Hw; try done.
      - (* get *)
        unfold get in Hw. destruct (items (product_url_queue s)) as [|[p|] rest] eqn:Ei;
          inversion Hw; subst; clear Hw; cbn [items]; rewrite ?Ei;
          try (apply Forall_cons in Hp as [Hp1 Hp]); by repeat split.
      - unfold task_done in Hw.
        destruct (unfinished_tasks (product_url_queue s)) eqn:Eu;
          [simpl in Hmem; lia|].
        inversion Hw; subst; clear Hw. by repeat split.
      - (* fetch *)
        destruct (scraper_fetch_page _ (url p) _) as [[tree|]|e] eqn:Ef.
        + inversion Hw; subst; clear Hw. by repeat split.
        + inversion Hw; subst; clear Hw. by repeat split.
        + by apply shipped_fetch_absolute in Ef.
      - (* extract *)
        cbn in Hw. inversion Hw; subst; clear Hw.
        split; [apply record_with_url | by repeat split].
      - (* put *)
        destruct Hreg as [Hk Hu]. pose proof (record_columns_name _ Hk) as [v Hv].
        rewrite Hv in Hw. inversion Hw; subst; clear Hw.
        split; [done|]. split; [done|]. split.
        + cbn [put items]. apply Forall_app. split; [done|]. repeat constructor; eauto.
        + split; [|done]. split; eauto.
      - unfold task_done in Hw.
        destruct (unfinished_tasks (product_url_queue s)) eqn:Eu;
          [simpl in Hmem; lia|].
        inversion Hw; subst; clear Hw. by repeat split.
      - destruct dropped; [done|]. inversion Hw; subst; clear Hw. by repeat split. }
    destruct Hnew as (Hpc' & Hev & Hr & Hrec & Hq').
    unfold regular_run. cbn [workers history data_to_write_queue product_url_queue].
    rewrite count_events_cons, Hev.
    split; [by apply Forall_insert|]. split; [done|]. split; [done|].
    split; [by constructor | done].
  - apply step_writer_inv in Hstep as (pc' & r & d & ev & Hw & ->).
    unfold regular_run. cbn [workers history data_to_write_queue product_url_queue].
    rewrite count_events_cons.
    assert (Hnew : is_handler_event ev = false /\ Forall record_ok (items r)
                   /\ record_event_ok ev).
    { invert_writer_step Hw; cbn [items]; try (by repeat split);
        try (apply Forall_cons in Hq as [_ Hq]; by repeat split);
        match goal with H : items _ = [] |- _ => rewrite H end; by repeat split. }
    destruct Hnew as (Hev & Hr & Hrec). rewrite Hev.
    split; [done|]. split; [done|]. split; [done|]. split; [by constructor | done].
Qed.

(** The urls of the listing entries are what [urljoin] returned. *)
Lemma category_page_urls W cfg category_url page_tree :
  Forall (fun p => exists href, url p = urljoin W (SCRAPER_BASE_URL cfg) href)
    (_get_product_links_from_category_page W cfg category_url page_tree).
Proof.
  unfold _get_product_links_from_category_page.
  induction (xpath_elements page_tree product_links_xpath) as [|elem elems IH];
    cbn [flat_map]; [constructor|].
  apply Forall_app. split; [|done].
  destruct (get_attr elem "href") as [[|c href]|]; repeat constructor. by eexists.
Qed.

Lemma scrape_category_pages_urls W cfg category_links all :
  (scrape_category_pages W cfg category_links).2 = Ok all ->
  Forall (fun p => exists href, url p = urljoin W (SCRAPER_BASE_URL cfg) href) all.
Proof.
  revert all. induction category_links as [|link links IH]; intros all;
    cbn [scrape_category_pages].
  - intros [= <-]. constructor.
  - destruct (scraper_fetch_page W link _) as [[tree|]|e]; [| |done];
      destruct (scrape_category_pages W cfg links) as [evs [ps|e]]; cbn [snd] in *;
      try done.
    + intros [= <-]. apply Forall_app. split; [apply category_page_urls | by apply IH].
    + intros [= <-]. by apply IH.
Qed.

Lemma products_to_queue_urls test_mode limit ps q :
  q ∈ products_to_queue test_mode limit ps -> exists p, p ∈ ps /\ url p = url q.
Proof.
  intros Hq.
  assert (Hu : url q ∈ url <$> unique_products_to_process ps).
  { apply list_elem_of_fmap. exists q. split; [done|].
    unfold products_to_queue in Hq. destruct test_mode; [|done].
    destruct (slice_to_take limit (unique_products_to_process ps)) as [n Hn].
    rewrite Hn in Hq. eapply elem_of_sublist; [exact Hq | apply sublist_take]. }
  rewrite dict_by_url_urls in Hu. apply elem_of_first_occurrences in Hu as [Hu _].
  apply list_elem_of_fmap in Hu as (p & Hp & Hin). by exists p.
Qed.

Lemma init_system_absolute W cfg d :
  (forall href, startswith "/" (urljoin W (SCRAPER_BASE_URL cfg) href) = false) ->
  Forall absolute (items (product_url_queue (init_system W cfg d))).
Proof.
  intros Habs. unfold init_system, discovery.
  destruct (create_products_table W d) as [d1 [[]|e]]; [|constructor].
  destruct (_get_category_links W cfg) as [[|link links]|e]; [constructor| |constructor].
  destruct (scrape_category_pages W cfg (link :: links)) as [evs [all|e]] eqn:E;
    [|constructor].
  assert (Hall := scrape_category_pages_urls W cfg (link :: links) all).
  rewrite E in Hall. specialize (Hall eq_refl). rewrite Forall_forall in Hall.
  destruct (products_to_queue _ _ all) as [|q qs] eqn:Eq; [constructor|].
  cbn [product_url_queue items]. rewrite <- Eq. apply Forall_fmap, Forall_forall.
  intros q' Hq'. apply products_to_queue_urls in Hq' as (p & Hp & Hurl).
  destruct (Hall p Hp) as [href Hhref]. cbn. by rewrite <- Hurl, Hhref.
Qed.

Lemma init_regular_run W cfg d :
  (forall href, startswith "/" (urljoin W (SCRAPER_BASE_URL cfg) href) = false) ->
  regular_run (init_system W cfg d).
Proof.
  intros Habs.
  pose proof (init_system_history_discovery W cfg d) as Hh.
  unfold regular_run. split; [|split; [|split; [|split]]].
  - unfold init_system. destruct (discovery W cfg d) as [[evs d1] out]. constructor.
  - eapply count_events_none; [exact Hh|]. by intros [].
  - unfold init_system. destruct (discovery W cfg d) as [[evs d1] out]. constructor.
  - eapply Forall_impl; [exact Hh|]. by intros [].
  - by apply init_system_absolute.
Qed.

Lemma exec_regular_run join net cfg W0 d schedule s :
  (forall href, startswith "/" (urljoin W0 (SCRAPER_BASE_URL cfg) href) = false) ->
  exec (shipped_world join net cfg W0) cfg schedule
    (init_system (shipped_world join net cfg W0) cfg d) = Some s ->
  regular_run s.
Proof.
  intros Habs Hexec.
  assert (H : run_inv (thread_count cfg) s /\ regular_run s); [|tauto].
  revert Hexec.
  apply (exec_invariant _ cfg (fun s => run_inv (thread_count cfg) s /\ regular_run s)).
  - intros l s1 s2 [Hrun Hreg] Hstep. split; [by eapply step_run_inv|].
    eapply step_regular_run; [|done..]. by destruct Hrun as (? & _).
  - split; [apply init_system_inv | by apply init_regular_run].
Qed.

(** X20.  With the collaborators main.py wires in (a WebScraper and a
    ProductExtractor, which always returns its six fields), and a base url
    with which [urljoin] yields urls that do not begin with a slash, so
    that [fetch_page] requests every product url as it stands and returns
    None instead of raising, the workers' exception handling is never
    exercised: in every run no worker enters an except clause, no worker
    ends by an exception or drops an item, every product taken from the
    queue is marked processed by the regular [task_done], every record put
    on the record queue has exactly the six extracted columns followed by
    url, and the run can always be continued until [run_scraping] has
    returned. *)
Theorem shipped_collaborators_never_raise
    (requests_urljoin : string -> string -> result string) (net : Net) (cfg : Config)
    (W0 : World) (d : Database) (schedule : list label) (s : System) :
  let W := shipped_world requests_urljoin net cfg W0 in
  (forall href, startswith "/" (urljoin W0 (SCRAPER_BASE_URL cfg) href) = false) ->
  exec W cfg schedule (init_system W cfg d) = Some s ->
  no_queue_empty W
  /\ count_events is_handler_event (history s) = 0%nat
  /\ (forall i p, workers s !! i = Some (WFetch p) ->
        forall e, scraper_fetch_page W (url p) (SLEEP_BETWEEN_PRODUCT_PAGES cfg)
                  <> Raise e)
  /\ (forall i w, workers s !! i = Some w -> worker_finished w = true ->
        w = WReturned None)
  /\ (forall i p, workers s !! i = Some (WTaskDone p) ->
        exists q, task_done (product_url_queue s) = Ok q)
  /\ (forall i product_data, EvPutRecord i product_data ∈ history s ->
        dict_keys product_data = record_columns)
  /\ (forall product_data, Some product_data ∈ items (data_to_write_queue s) ->
        dict_keys product_data = record_columns
        /\ is_Some (dict_get "url" product_data))
  /\ completes W cfg s.
Proof.
  intros W Habs Hexec.
  pose proof (exec_regular_run _ _ _ _ _ _ _ Habs Hexec) as (Hws & Hz & Hq & Hh & Hp).
  pose proof (exec_run_inv _ _ _ _ _ Hexec) as (Hslots & _).
  split; [apply shipped_no_queue_empty|]. split; [done|].
  split; [|split; [|split; [|split; [|split]]]].
  - intros i p Hi e. pose proof (Forall_lookup_1 _ _ _ _ Hws Hi) as Hreg.
    by apply shipped_fetch_absolute.
  - intros i w Hi Hfin. pose proof (Forall_lookup_1 _ _ _ _ Hws Hi) as Hreg.
    by destruct w as [| | | | | | |[?|]|[?|]|].
  - intros i p Hi. pose proof (holding_of_member _ _ _ Hi) as Hmem.
    unfold slots_accounted in Hslots. unfold task_done.
    destruct (unfinished_tasks (product_url_queue s)); [simpl in Hmem; lia | eauto].
  - intros i r Hin. rewrite Forall_forall in Hh. by destruct (Hh _ Hin).
  - intros r Hin. rewrite Forall_forall in Hq. destruct (Hq _ Hin) as [Hk [u Hu]].
    split; [done | by exists u].
  - apply (run_completes W cfg d); [apply shipped_no_queue_empty | by exists schedule].
Qed.

Lemma shipped_collaborators_never_raise_witness :
  count_events is_handler_event (history example_state) = 0%nat
  /\ completes (shipped_world example_urljoin example_net (example_config 2) example_world)
       (example_config 2) example_state.
Proof.
  assert (He : exec (shipped_world example_urljoin example_net (example_config 2)
                       example_world)
                 (example_config 2) example_schedule
                 (init_system (shipped_world example_urljoin example_net
                                 (example_config 2) example_world)
                    (example_config 2) empty_database)
               = Some example_state) by (vm_compute; reflexivity).
  assert (Habs : forall href,
             startswith "/" (urljoin example_world
                               (SCRAPER_BASE_URL (example_config 2)) href) = false).
  { intros href. cbn [urljoin example_world]. unfold urljoin_simple.
    by destruct (startswith "/" href); vm_compute. }
  destruct (shipped_collaborators_never_raise _ _ _ _ _ _ _ Habs He)
    as (_ & Hz & _ & _ & _ & _ & _ & Hc).
  split; [exact Hz | exact Hc].
Defined.

(** ** Whitespace *)

Lemma append_cons c (a b : string) : String c a +:+ b = String c (a +:+ b).
Proof. done. Qed.

Lemma append_nil_r s : s +:+ EmptyString = s.
Proof. induction s as [|c s IH]; [done|]. by rewrite append_cons, IH. Qed.

Lemma append_assoc (a b c : string) : (a +:+ b) +:+ c = a +:+ (b +:+ c).
Proof. induction a as [|x a IH]; [done|]. by rewrite !append_cons, IH. Qed.

Lemma string_rev_app a b : string_rev (a +:+ b) = string_rev b +:+ string_rev a.
Proof.
  induction a as [|x a IH].
  - change (EmptyString +:+ b) with b. cbn [string_rev]. by rewrite append_nil_r.
  - rewrite append_cons. cbn [string_rev]. by rewrite IH, append_assoc.
Qed.

Lemma string_rev_involutive s : string_rev (string_rev s) = s.
Proof.
  induction s as [|c s IH]; [done|]. cbn [string_rev]. by rewrite string_rev_app, IH.
Qed.

Lemma all_space_app a b : all_space (a +:+ b) = all_space a && all_space b.
Proof.
  induction a as [|x a IH]; [done|]. rewrite append_cons. cbn [all_space].
  by rewrite IH, andb_assoc.
Qed.

Lemma all_space_rev s : all_space (string_rev s) = all_space s.
Proof.
  induction s as [|c s IH]; [done|]. cbn [string_rev all_space].
  rewrite all_space_app, IH. cbn [all_space].
  rewrite andb_true_r. apply andb_comm.
Qed.

Lemma lstrip_spec s :
  exists pre, s = pre +:+ lstrip s /\ all_space pre = true
              /\ starts_with_space (lstrip s) = false.
Proof.
  induction s as [|c s (pre & Hs & Hpre & Hstart)]; cbn [lstrip].
  - by exists EmptyString.
  - destruct (is_space c) eqn:E.
    + exists (String c pre). split; [by rewrite append_cons, <- Hs|]. split; [|done].
      cbn [all_space]. by rewrite E.
    + exists EmptyString. split; [done|]. split; [done|]. done.
Qed.

Lemma rstrip_spec s :
  exists post, s = rstrip s +:+ post /\ all_space post = true
               /\ ends_with_space (rstrip s) = false.
Proof.
  unfold rstrip, ends_with_space.
  destruct (lstrip_spec (string_rev s)) as (pre & Hs & Hpre & Hstart).
  exists (string_rev pre). split; [|split].
  - rewrite <- string_rev_app, <- Hs. by rewrite string_rev_involutive.
  - by rewrite all_space_rev.
  - by rewrite string_rev_involutive.
Qed.

Lemma lstrip_fixed s : starts_with_space s = false -> lstrip s = s.
Proof. destruct s as [|c s]; [done|]. cbn. by intros ->. Qed.

(** A string that does not begin with whitespace still does not after its
    trailing whitespace was removed. *)
Lemma rstrip_keeps_start s :
  starts_with_space s = false -> starts_with_space (rstrip s) = false.
Proof.
  destruct s as [|c s]; [done|]. cbn [starts_with_space]. intros Hc.
  unfold rstrip. cbn [string_rev].
  destruct (lstrip_spec (string_rev s +:+ String c EmptyString)) as (pre & Hs & Hpre & _).
  assert (Hlast : exists z, lstrip (string_rev s +:+ String c EmptyString)
                            = z +:+ String c EmptyString).
  { clear Hs Hpre pre. induction (string_rev s) as [|x t IH].
    - exists EmptyString. change (EmptyString +:+ String c EmptyString) with (String c EmptyString).
      cbn [lstrip]. by rewrite Hc.
    - rewrite append_cons. cbn [lstrip]. destruct (is_space x); [done|].
      by exists (String x t). }
  destruct Hlast as [z ->]. by rewrite string_rev_app.
Qed.

Lemma strip_stripped_of s : stripped_of s (strip s).
Proof.
  unfold stripped_of, strip.
  destruct (lstrip_spec s) as (pre & Hs & Hpre & Hstart).
  destruct (rstrip_spec (lstrip s)) as (post & Hl & Hpost & Hend).
  split; [|split; [by apply rstrip_keeps_start | done]].
  exists pre, post. split; [|done]. by rewrite <- Hl.
Qed.

(** ** The extractor on a page that has the elements *)

Lemma extract_product_details_read product_tree listing_product_name listing_category :
  let r := extract_product_details product_tree listing_product_name listing_category in
  (forall t rest, xpath_text product_tree product_name_detail_xpath = t :: rest ->
     dict_get "product_name" r = Some (strip t))
  /\ (forall t rest, xpath_text product_tree category_detail_xpath = t :: rest ->
        dict_get "category" r = Some (strip t))
  /\ (forall t rest, xpath_text product_tree median_price_xpath = t :: rest ->
        dict_get "price_median" r = Some (strip t))
  /\ (forall container containers,
        xpath_elements product_tree price_range_container_xpath = container :: containers ->
        (forall t rest, xpath_text container low_price_xpath_relative = t :: rest ->
           dict_get "price_low" r = Some (strip t))
        /\ (forall t rest, xpath_text container high_price_xpath_relative = t :: rest ->
              dict_get "price_high" r = Some (strip t)))
  /\ dict_get "description" r
     = Some (match extracted_descriptions product_tree with
             | [] => "No detailed description found."
             | _ :: _ =>
                 String.concat (String "010"%char EmptyString)
                   (extracted_descriptions product_tree)
             end).
Proof.
  intros r. subst r.
  split; [|split; [|split; [|split]]].
  - intros t rest H. unfold extract_product_details. rewrite H.
    repeat case_match; reflexivity.
  - intros t rest H. unfold extract_product_details. rewrite H.
    repeat case_match; reflexivity.
  - intros t rest H. unfold extract_product_details. rewrite H.
    repeat case_match; reflexivity.
  - intros container containers H. split; intros t rest H'; unfold extract_product_details;
      rewrite H, H'; repeat case_match; reflexivity.
  - unfold extract_product_details. fold (extracted_descriptions product_tree).
    destruct (extracted_descriptions product_tree); repeat case_match; reflexivity.
Qed.

Lemma extracted_descriptions_spec product_tree text :
  text ∈ extracted_descriptions product_tree <->
  (exists elem, elem ∈ xpath_elements product_tree description_xpath
                /\ text = strip (text_content elem))
  /\ (20 < String.length text)%nat
  /\ startswith "what is" (lower text) = false
  /\ startswith "how it works" (lower text) = false.
Proof.
  unfold extracted_descriptions.
  rewrite list_elem_of_In, filter_In, <- list_elem_of_In, list_elem_of_fmap.
  unfold is_description. rewrite !andb_true_iff, !negb_true_iff, Nat.ltb_lt.
  split.
  - intros [(elem & -> & Hin) [[Hlen Hw] Hh]]. eauto 10.
  - intros [(elem & Hin & ->) (Hlen & Hw & Hh)]. eauto 10.
Qed.

(** X21.  No text the program takes from a page keeps the whitespace
    around it.  Every field [extract_product_details] reads from the
    product page (name, category, median, low and high price), every
    description text it keeps and every product name read from a category
    page is the text of the page between a prefix and a suffix of
    whitespace characters only, and itself neither begins nor ends with a
    whitespace character.  (Texts are sequences of code points below 256;
    whitespace is what [str.isspace] accepts there.) *)
Theorem extracted_texts_are_stripped (product_tree : HtmlElement)
    (listing_product_name listing_category : string) :
  let r := extract_product_details product_tree listing_product_name listing_category in
  (forall t rest, xpath_text product_tree product_name_detail_xpath = t :: rest ->
     exists v, dict_get "product_name" r = Some v /\ stripped_of t v)
  /\ (forall t rest, xpath_text product_tree category_detail_xpath = t :: rest ->
        exists v, dict_get "category" r = Some v /\ stripped_of t v)
  /\ (forall t rest, xpath_text product_tree median_price_xpath = t :: rest ->
        exists v, dict_get "price_median" r = Some v /\ stripped_of t v)
  /\ (forall container containers,
        xpath_elements product_tree price_range_container_xpath = container :: containers ->
        (forall t rest, xpath_text container low_price_xpath_relative = t :: rest ->
           exists v, dict_get "price_low" r = Some v /\ stripped_of t v)
        /\ (forall t rest, xpath_text container high_price_xpath_relative = t :: rest ->
              exists v, dict_get "price_high" r = Some v /\ stripped_of t v))
  /\ (forall text, text ∈ extracted_descriptions product_tree ->
        exists elem, elem ∈ xpath_elements product_tree description_xpath
                     /\ stripped_of (text_content elem) text)
  /\ (forall product_link_elem name_element rest,
        xpath_elements product_link_elem listing_name_xpath = name_element :: rest ->
        stripped_of (text_content name_element) (listing_name product_link_elem)).
Proof.
  intros r.
  destruct (extract_product_details_read product_tree listing_product_name
              listing_category) as (Hname & Hcat & Hmedian & Hrange & _).
  fold r in Hname, Hcat, Hmedian, Hrange.
  split; [|split; [|split; [|split; [|split]]]].
  - intros t rest H. exists (strip t). split; [by eapply Hname | apply strip_stripped_of].
  - intros t rest H. exists (strip t). split; [by eapply Hcat | apply strip_stripped_of].
  - intros t rest H. exists (strip t). split; [by eapply Hmedian | apply strip_stripped_of].
  - intros container containers H. destruct (Hrange _ _ H) as [Hlow Hhigh].
    split; intros t rest H'; exists (strip t);
      (split; [by (eapply Hlow || eapply Hhigh) | apply strip_stripped_of]).
  - intros text Hin. apply extracted_descriptions_spec in Hin as [(elem & Hin & ->) _].
    exists elem. split; [done | apply strip_stripped_of].
  - intros product_link_elem name_element rest H. unfold listing_name. rewrite H.
    apply strip_stripped_of.
Qed.

(** A name padded with a tab, a no-break space and ordinary spaces. *)
Example strip_latin1_whitespace :
  strip (String "009" (String "160" " Product A " +:+ String "133" EmptyString))
  = "Product A".
Proof. vm_compute. reflexivity. Qed.

(** X22.  What [extract_product_details] takes from the page: the name, the
    category and the median price are the first match of their query,
    stripped; the low and high price are the first text of the first two
    spans of the first price range container, stripped; the description is
    the stripped texts of the description boxes that are longer than 20
    characters and begin neither with "what is" nor with "how it works" in
    any letter case, in page order and joined by newlines, and it is the
    placeholder when no box qualifies.  (Texts are sequences of code points
    below 256, so the length counts characters as [len] does and [lower]
    covers the accented capitals.) *)
Theorem extract_product_details_found (product_tree : HtmlElement)
    (listing_product_name listing_category : string) :
  let r := extract_product_details product_tree listing_product_name listing_category in
  (forall t rest, xpath_text product_tree product_name_detail_xpath = t :: rest ->
     dict_get "product_name" r = Some (strip t))
  /\ (forall t rest, xpath_text product_tree category_detail_xpath = t :: rest ->
        dict_get "category" r = Some (strip t))
  /\ (forall t rest, xpath_text product_tree median_price_xpath = t :: rest ->
        dict_get "price_median" r = Some (strip t))
  /\ (forall container containers,
        xpath_elements product_tree price_range_container_xpath = container :: containers ->
        (forall t rest, xpath_text container low_price_xpath_relative = t :: rest ->
           dict_get "price_low" r = Some (strip t))
        /\ (forall t rest, xpath_text container high_price_xpath_relative = t :: rest ->
              dict_get "price_high" r = Some (strip t)))
  /\ dict_get "description" r
     = Some (match extracted_descriptions product_tree with
             | [] => "No detailed description found."
             | _ :: _ =>
                 String.concat (String "010"%char EmptyString)
                   (extracted_descriptions product_tree)
             end)
  /\ (forall text, text ∈ extracted_descriptions product_tree <->
        (exists elem, elem ∈ xpath_elements product_tree description_xpath
                      /\ text = strip (text_content elem))
        /\ (20 < String.length text)%nat
        /\ startswith "what is" (lower text) = false
        /\ startswith "how it works" (lower text) = false).
Proof.
  intros r.
  destruct (extract_product_details_read product_tree listing_product_name
              listing_category) as (Hname & Hcat & Hmedian & Hrange & Hdescr).
  repeat (split; [assumption|]). apply extracted_descriptions_spec.
Qed.

(** Twenty accented characters are twenty characters, not more: the text
    is too short to be kept. *)
Example is_description_counts_characters :
  is_description (repeat_char "233" 20) = false
  /\ is_description (repeat_char "233" 21) = true
  /\ lower (String "201" "COLE") = String "233" "cole".
Proof. vm_compute. done. Qed.

(** ** The record queue's counter *)

Lemma init_records_accounted W cfg d : records_accounted (init_system W cfg d).
Proof.
  pose proof (init_system_history_discovery W cfg d) as Hh.
  assert (Hw : writer (init_system W cfg d) = DNotStarted
               /\ data_to_write_queue (init_system W cfg d) = empty_queue).
  { unfold init_system. by destruct (discovery W cfg d) as [[evs d1] out]. }
  destruct Hw as [Hw Hq]. unfold records_accounted. rewrite Hw, Hq.
  split; [done|]. split; [done|].
  split; [eapply count_events_none; [exact Hh|]; by intros []|].
  split; (eapply count_events_none; [exact Hh|]; by intros []).
Qed.

Lemma step_records_accounted W cfg l s s' :
  records_accounted s -> step W cfg l s = Some s' -> records_accounted s'.
Proof.
  intros (Hstart & Hcount & Hfail & Hpc) Hstep. destruct l as [|i|].
  - simpl in Hstep. unfold records_accounted.
    invert_orch_step Hstep; cbn [orch writer data_to_write_queue history items put
                                  unfinished_tasks];
      rewrite ?count_events_cons; cbn [is_writer_failure is_enter_ok is_commit indicator];
      try (discriminate (Hstart eq_refl));
      rewrite ?length_app; cbn [length writer_holding] in *;
      (split; [done|]); (split; [lia|]); (split; [done|]); simpl in *; exact Hpc.
  - apply step_worker_inv in Hstep as (pc & pc' & q & r & ev & Hi & Hw & ->).
    assert (Hev : is_writer_failure ev = false /\ is_enter_ok ev = false
                  /\ is_commit ev = false
                  /\ (unfinished_tasks r
                      = length (items r) + writer_holding (writer s))%nat).
    { invert_worker_step Hw; cbn [put items unfinished_tasks];
        rewrite ?length_app; cbn [length]; repeat split; try done; lia. }
    destruct Hev as (He1 & He2 & He3 & Hr).
    unfold records_accounted. cbn [orch writer data_to_write_queue history].
    rewrite !count_events_cons, He1, He2, He3. done.
  - apply step_writer_inv in Hstep as (pc' & r & d & ev & Hw & ->).
    assert (Hnotstart : orch s <> OStartWriter).
    { intros Ho. specialize (Hstart Ho). by rewrite Hstart in Hw. }
    unfold records_accounted. cbn [orch writer data_to_write_queue history].
    rewrite !count_events_cons. split; [done|].
    destruct (writer s) eqn:Ew; cbn [database_writer_worker] in Hw; try done.
    + destruct (db_enter W (database s)) as [d' [[]|e]]; inversion Hw; subst; clear Hw;
        cbn [is_writer_failure is_enter_ok is_commit indicator writer_holding] in *;
        repeat split; lia.
    + unfold get in Hw.
      destruct (items (data_to_write_queue s)) as [|[product_data|] rest] eqn:Ei;
        inversion Hw; subst; clear Hw;
        cbn [is_writer_failure is_enter_ok is_commit indicator writer_holding
             items unfinished_tasks length] in *;
        rewrite ?Ei; cbn [length]; repeat split; lia.
    + unfold task_done in Hw.
      destruct (unfinished_tasks (data_to_write_queue s)) eqn:Eu;
        cbn [writer_holding] in Hcount; [lia|].
      inversion Hw; subst; clear Hw.
      cbn [is_writer_failure is_enter_ok is_commit indicator writer_holding
           items unfinished_tasks] in *.
      repeat split; lia.
    + destruct (insert_product_data W product_data (database s)) as [d' [[]|e]];
        inversion Hw; subst; clear Hw;
        cbn [is_writer_failure is_enter_ok is_commit indicator writer_holding] in *;
        repeat split; lia.
    + unfold task_done in Hw.
      destruct (unfinished_tasks (data_to_write_queue s)) eqn:Eu;
        cbn [writer_holding] in Hcount; [lia|].
      inversion Hw; subst; clear Hw.
      cbn [is_writer_failure is_enter_ok is_commit indicator writer_holding
           items unfinished_tasks] in *.
      repeat split; lia.
    + destruct exc as [e|]; [done|]. inversion Hw; subst; clear Hw.
      cbn [is_writer_failure is_enter_ok is_commit indicator writer_holding] in *.
      repeat split; lia.
    + inversion Hw; subst; clear Hw.
      cbn [is_writer_failure is_enter_ok is_commit indicator writer_holding] in *.
      repeat split; lia.
Qed.

Lemma exec_records_accounted W cfg d schedule s :
  exec W cfg schedule (init_system W cfg d) = Some s -> records_accounted s.
Proof.
  apply exec_invariant; [|apply init_records_accounted].
  intros l s1 s2. apply step_records_accounted.
Qed.

Lemma count_events_elem f ev h :
  ev ∈ h -> f ev = true -> (0 < count_events f h)%nat.
Proof.
  intros Hin Hf. apply list_elem_of_split in Hin as (h1 & h2 & ->).
  eapply count_events_split; [reflexivity | done].
Qed.

(** X23.  The writer's [__exit__] never takes its rollback branch.  In
    every run the record queue's count of unfinished tasks is the number of
    waiting items plus the one the writer holds, so the writer's
    [task_done] never raises; hence no exception ever leaves the writer's
    loop and [conn.rollback()] is never called: a writer that connected and
    has returned has gone through the commit branch exactly once.  What
    that commit published depends on the upserts: when the server accepted
    every upsert of the records the writer took, the server holds them all,
    applied in the order the writer took them; when it refused one, the
    commit found the transaction aborted and the server holds the rows it
    had before the run. *)
Theorem writer_exit_always_commits (W : World) (cfg : Config) (d : Database)
    (schedule : list label) (s : System) :
  exec W cfg schedule (init_system W cfg d) = Some s ->
  unfinished_tasks (data_to_write_queue s)
  = (length (items (data_to_write_queue s)) + writer_holding (writer s))%nat
  /\ count_events is_rollback (history s) = 0%nat
  /\ (forall ev, ev ∈ history s -> ev <> EvRecordTaskDoneRaised)
  /\ (forall e, writer s <> DExit (Some e))
  /\ (writer s = DReturned -> EvDbEnter true ∈ history s ->
      count_events is_commit (history s) = 1%nat
      /\ server_rows (database s)
         = committed W (inserted (history s))
             (server_rows (database (init_system W cfg d)))).
Proof.
  intros Hexec.
  pose proof (exec_records_accounted _ _ _ _ _ Hexec) as (_ & Hcount & Hfail & Hpc).
  split; [done|]. split; [|split; [|split]].
  - assert (Hle : (count_events is_rollback (history s)
                   <= count_events is_writer_failure (history s))%nat); [|lia].
    clear. induction (history s) as [|ev h IH]; [done|].
    rewrite !count_events_cons. destruct ev; simpl; lia.
  - intros ev Hin ->. pose proof (count_events_elem is_writer_failure _ _ Hin eq_refl). lia.
  - intros e He. by rewrite He in Hpc.
  - intros Hret Hin. rewrite Hret in Hpc.
    pose proof (count_events_elem is_enter_ok _ _ Hin eq_refl) as Hpos.
    destruct (commit_only_at_exit_facts W cfg d schedule s Hexec) as (Hle & Hone).
    assert (H1 : count_events is_commit (history s) = 1%nat) by lia.
    split; [done|]. by apply Hone.
Qed.

Lemma writer_exit_always_commits_witness :
  count_events is_rollback (history commit_state) = 0%nat
  /\ unfinished_tasks (data_to_write_queue commit_state) = 0%nat.
Proof.
  assert (He : exec example_world (example_config 2) commit_schedule
                 (init_system example_world (example_config 2) empty_database)
               = Some commit_state) by (vm_compute; reflexivity).
  destruct (writer_exit_always_commits _ _ _ _ _ He) as (Hcount & Hroll & _).
  split; [exact Hroll | exact Hcount].
Defined.

(** ** From the workers to the table *)

Lemma puts_cons ev h :
  puts (ev :: h) = puts h ++ match ev with EvPutRecord _ r => [r] | _ => [] end.
Proof.
  unfold puts. rewrite reverse_cons, omap_app. f_equal. by destruct ev.
Qed.

Lemma omap_id_some {A} (l : list A) : omap id (Some <$> l) = l.
Proof. induction l as [|x l IH]; [done|]. csimpl. by rewrite IH. Qed.

Lemma omap_id_none {A} k : omap id (replicate k (@None A)) = [].
Proof. induction k as [|k IH]; [done|]. csimpl. by rewrite IH. Qed.

Lemma record_sentinel_all_finished N s :
  orch_inv N s -> count_events is_record_sentinel (history s) = 1%nat ->
  all_finished (workers s).
Proof.
  unfold orch_inv. destruct (orch s); intros H H1; rewrite H1 in H;
    intuition (try discriminate; auto).
Qed.

Lemma init_fifo_inv W cfg d : fifo_inv (init_system W cfg d).
Proof.
  pose proof (init_system_history_discovery W cfg d) as Hh.
  assert (Hz : forall f, (forall ev, is_discovery_event ev = true -> f ev = false) ->
                 count_events f (history (init_system W cfg d)) = 0%nat).
  { intros f Hf. eapply count_events_none; [exact Hh | done]. }
  assert (Hw : writer (init_system W cfg d) = DNotStarted
               /\ data_to_write_queue (init_system W cfg d) = empty_queue).
  { unfold init_system. by destruct (discovery W cfg d) as [[evs d1] out]. }
  destruct Hw as [Hw Hq]. unfold fifo_inv. rewrite Hw, Hq.
  rewrite !Hz by (by intros []).
  rewrite (inserted_none _ (Hz is_session_event ltac:(by intros []))).
  split; [|split; [done|]].
  - unfold puts. apply Forall_reverse in Hh.
    induction Hh as [|ev h Hev Hh IH]; [done|]. csimpl. rewrite IH. by destruct ev.
  - exists [], 0%nat. by repeat split.
Qed.

Lemma step_fifo_inv W cfg l s s' :
  run_inv (thread_count cfg) s -> records_accounted s -> fifo_inv s ->
  step W cfg l s = Some s' -> fifo_inv s'.
Proof.
  intros Hrun (Hstart & _ & _ & Hpc) (Hputs & Hle & waiting & k & Hitems & Hk & Htaken) Hstep.
  pose proof Hrun as (_ & _ & Hoinv & _).
  pose proof (orch_inv_sentinel_counts _ _ Hoinv) as [_ Hrs].
  destruct l as [|i|].
  - (* the main thread *)
    clear Hpc. simpl in Hstep. unfold fifo_inv.
    invert_orch_step Hstep; cbn [history writer data_to_write_queue items put];
      rewrite ?puts_cons, ?inserted_cons, ?count_events_cons, ?app_nil_r;
      cbn [is_sentinel_taken is_enter_ok is_record_sentinel indicator];
      try (rewrite (Hstart eq_refl) in Hputs; cbn [in_hand] in Hputs |- *);
      try (split; [exact Hputs|]; split; [lia|];
           exists waiting, k; split; [done|]; split; [lia | done]).
    (* the sentinel is put *)
    split; [|split; [lia|]].
    + rewrite Hputs, omap_app. csimpl. by rewrite app_nil_r.
    + exists waiting, (S k). split; [|split; [lia | done]].
      rewrite Hitems, <- app_assoc. f_equal.
      change [None] with (replicate 1 (@None (pydict string))).
      rewrite <- replicate_add. f_equal. lia.
  - (* a worker *)
    clear Hpc. apply step_worker_inv in Hstep as (pc & pc' & q & r & ev & Hi & Hw & ->).
    assert (Hzero : count_events is_record_sentinel (history s) = 0%nat).
    { destruct (count_events is_record_sentinel (history s)) as [|[|n]] eqn:E; [done| |lia].
      pose proof (record_sentinel_all_finished _ _ Hoinv E) as Hfin.
      by rewrite (finished_no_step _ _ _ _ _ _ (all_finished_lookup _ _ _ Hfin Hi)) in Hw. }
    assert (Hk0 : k = 0%nat /\ count_events is_sentinel_taken (history s) = 0%nat) by lia.
    destruct Hk0 as [-> Ht0]. cbn [replicate] in Hitems. rewrite app_nil_r in Hitems.
    unfold fifo_inv. cbn [history writer data_to_write_queue].
    rewrite puts_cons, inserted_cons, !count_events_cons.
    assert (Hcases :
      (r = data_to_write_queue s
       /\ match ev with EvPutRecord _ _ | EvInsert _ _ | EvRecordGet _ | EvDbEnter _
                      | EvPutRecordSentinel => False | _ => True end)
      \/ (exists product_data, r = put (Some product_data) (data_to_write_queue s)
                               /\ ev = EvPutRecord i product_data)).
    { invert_worker_step Hw; try (left; by split); right; by eexists. }
    destruct Hcases as [[-> Hev]|(product_data & -> & ->)].
    + assert (He : is_sentinel_taken ev = false /\ is_enter_ok ev = false
                   /\ is_record_sentinel ev = false) by (by destruct ev).
      destruct He as (-> & -> & ->).
      split; [|split; [exact Hle|]].
      * rewrite Hputs. destruct ev; try done; by rewrite !app_nil_r.
      * exists waiting, 0%nat. cbn [replicate]. rewrite app_nil_r.
        split; [done|]. split; [simpl; lia | done].
    + cbn [is_sentinel_taken is_enter_ok is_record_sentinel indicator put items].
      split; [|split; [exact Hle|]].
      * rewrite Hputs, omap_app, app_nil_r, !app_assoc. done.
      * exists (waiting ++ [product_data]), 0%nat. cbn [replicate].
        rewrite app_nil_r, Hitems, fmap_app. split; [done|]. split; [lia|].
        intros Hpos. simpl in Hpos. lia.
  - (* the writer *)
    apply step_writer_inv in Hstep as (pc' & r & d & ev & Hw & ->).
    unfold fifo_inv. cbn [history writer data_to_write_queue].
    rewrite puts_cons, inserted_cons, !count_events_cons.
    destruct (writer s) eqn:Ew; cbn [database_writer_worker] in Hw; try done.
    + (* DEnter *)
      destruct (db_enter W (database s)) as [d' [[]|e]]; inversion Hw; subst; clear Hw;
        cbn [is_sentinel_taken is_enter_ok is_record_sentinel indicator in_hand] in *;
        rewrite !app_nil_r; (split; [done|]); (split; [lia|]);
        exists waiting, k; by repeat split.
    + (* DGet *)
      unfold get in Hw.
      destruct (items (data_to_write_queue s)) as [|[product_data|] rest] eqn:Ei;
        inversion Hw; subst; clear Hw;
        cbn [is_sentinel_taken is_enter_ok is_record_sentinel indicator in_hand items] in *;
        rewrite ?app_nil_r.
      * (* timeout *)
        split; [|split; [lia|]].
        -- by rewrite Hputs, Ei.
        -- exists waiting, k. rewrite Ei. by repeat split.
      * (* a record is taken *)
        destruct waiting as [|x waiting]; [by destruct k|].
        rewrite fmap_cons in Hitems. injection Hitems as -> ->.
        split; [|split; [lia|]].
        -- rewrite Hputs. csimpl. done.
        -- exists waiting, k. split; [done|]. split; [lia|].
           intros Hpos. by specialize (Htaken Hpos).
      * (* the sentinel is taken *)
        destruct Hpc as [Henter _].
        destruct waiting as [|x waiting]; [|done].
        destruct k as [|k]; [done|]. cbn [fmap list_fmap replicate app] in Hitems.
        injection Hitems as ->.
        split; [|split; [lia|]].
        -- rewrite Hputs. csimpl. done.
        -- exists [], k. split; [done|]. split; [simpl in *; lia | done].
    + (* DGotNone *)
      unfold task_done in Hw.
      destruct (unfinished_tasks (data_to_write_queue s)); inversion Hw; subst; clear Hw;
        cbn [is_sentinel_taken is_enter_ok is_record_sentinel indicator in_hand items] in *;
        rewrite ?app_nil_r; (split; [done|]); (split; [lia|]);
        exists waiting, k; by repeat split.
    + (* DInsert *)
      destruct (insert_product_data W product_data (database s)) as [d' [[]|e]];
        inversion Hw; subst; clear Hw;
        cbn [is_sentinel_taken is_enter_ok is_record_sentinel indicator in_hand] in *;
        (split; [by rewrite Hputs, app_nil_r, <- !app_assoc|]); (split; [lia|]);
        exists waiting, k; by repeat split.
    + (* DFinally *)
      unfold task_done in Hw.
      destruct (unfinished_tasks (data_to_write_queue s)); inversion Hw; subst; clear Hw;
        cbn [is_sentinel_taken is_enter_ok is_record_sentinel indicator in_hand items] in *;
        rewrite ?app_nil_r; (split; [done|]); (split; [lia|]);
        exists waiting, k; by repeat split.
    + (* DExit *)
      inversion Hw; subst; clear Hw.
      assert (He : is_sentinel_taken (match exc with Some e => EvRollback e | None => EvCommit end)
                   = false
                   /\ is_enter_ok (match exc with Some e => EvRollback e | None => EvCommit end)
                      = false
                   /\ is_record_sentinel
                        (match exc with Some e => EvRollback e | None => EvCommit end) = false)
        by (by destruct exc).
      destruct He as (-> & -> & ->). cbn [indicator in_hand] in *.
      split; [|split; [lia|]].
      * rewrite Hputs. destruct exc; by rewrite !app_nil_r.
      * exists waiting, k. by repeat split.
    + (* DOuter *)
      inversion Hw; subst; clear Hw.
      cbn [is_sentinel_taken is_enter_ok is_record_sentinel indicator in_hand] in *.
      rewrite !app_nil_r. split; [done|]. split; [lia|].
      exists waiting, k. by repeat split.
Qed.

Lemma exec_fifo_inv W cfg d schedule s :
  exec W cfg schedule (init_system W cfg d) = Some s -> fifo_inv s.
Proof.
  intros Hexec.
  assert (H : (run_inv (thread_count cfg) s /\ records_accounted s) /\ fifo_inv s);
    [|tauto].
  revert Hexec.
  apply (exec_invariant W cfg
           (fun s => (run_inv (thread_count cfg) s /\ records_accounted s) /\ fifo_inv s)).
  - intros l s1 s2 [[Hrun Hrec] Hfifo] Hstep. split; [split|].
    + by eapply step_run_inv.
    + by eapply step_records_accounted.
    + by eapply step_fifo_inv.
  - split; [split|].
    + apply init_system_inv.
    + apply init_records_accounted.
    + apply init_fifo_inv.
Qed.

(** X24.  The record queue hands the records to the writer in the order
    the workers put them, none lost and none twice: in every run the
    records put so far are the records inserted so far, then the one the
    writer holds, then those waiting in the queue.  The sentinel comes after
    all of them, so when the writer has taken the sentinel and returned,
    every record the workers put has been handed to [insert_product_data],
    in put order, and [__exit__] has committed: the server then holds its
    initial rows with the upserts of exactly those records, in put order,
    when it accepted every one of them, and its initial rows alone when it
    refused one. *)
Theorem records_written_in_order (W : World) (cfg : Config) (d : Database)
    (schedule : list label) (s : System) :
  exec W cfg schedule (init_system W cfg d) = Some s ->
  puts (history s)
  = inserted (history s) ++ in_hand (writer s)
    ++ omap id (items (data_to_write_queue s))
  /\ (EvRecordGet None ∈ history s ->
        omap id (items (data_to_write_queue s)) = []
        /\ EvPutRecordSentinel ∈ history s
        /\ all_finished (workers s))
  /\ (writer s = DReturned -> EvRecordGet None ∈ history s ->
        inserted (history s) = puts (history s)
        /\ count_events is_commit (history s) = 1%nat
        /\ server_rows (database s)
           = committed W (puts (history s))
               (server_rows (database (init_system W cfg d)))).
Proof.
  intros Hexec.
  pose proof (exec_fifo_inv _ _ _ _ _ Hexec)
    as (Hputs & Hle & waiting & k & Hitems & Hk & Htaken).
  pose proof (exec_records_accounted _ _ _ _ _ Hexec) as (_ & _ & _ & Hpc).
  pose proof (exec_run_inv _ _ _ _ _ Hexec) as (_ & _ & Hoinv & _).
  pose proof (orch_inv_sentinel_counts _ _ Hoinv) as [_ Hrs].
  assert (Hgone : EvRecordGet None ∈ history s ->
            (0 < count_events is_sentinel_taken (history s))%nat
            /\ omap id (items (data_to_write_queue s)) = []).
  { intros Hin. pose proof (count_events_elem is_sentinel_taken _ _ Hin eq_refl) as Hpos.
    split; [done|]. rewrite Hitems, (Htaken Hpos). apply omap_id_none. }
  split; [done|]. split.
  - intros Hin. destruct (Hgone Hin) as [Hpos Hempty]. split; [done|].
    assert (H1 : count_events is_record_sentinel (history s) = 1%nat) by lia.
    split; [|by eapply record_sentinel_all_finished].
    assert (Hp : (0 < count_events is_record_sentinel (history s))%nat) by lia.
    apply sum_list_with_pos in Hp as (ev & Hev & Hf).
    destruct ev; simpl in Hf; try lia; done.
  - intros Hret Hin. destruct (Hgone Hin) as [Hpos Hempty].
    rewrite Hret in Hpc, Hputs. cbn [in_hand] in Hputs.
    rewrite Hempty, !app_nil_r in Hputs.
    destruct (commit_only_at_exit_facts W cfg d schedule s Hexec) as (Hc1 & Hone).
    assert (H1 : count_events is_commit (history s) = 1%nat) by lia.
    split; [done|]. split; [done|]. rewrite Hputs. by apply Hone.
Qed.

Lemma records_written_in_order_witness :
  inserted (history commit_state) = puts (history commit_state)
  /\ length (puts (history commit_state)) = 1%nat
  /\ server_rows (database commit_state)
     = writes example_world (puts (history commit_state)) [].
Proof.
  assert (He : exec example_world (example_config 2) commit_schedule
                 (init_system example_world (example_config 2) empty_database)
               = Some commit_state) by (vm_compute; reflexivity).
  destruct (records_written_in_order _ _ _ _ _ He) as (_ & _ & Hend).
  destruct Hend as (Hins & _ & Hrows).
  - reflexivity.
  - unfold commit_state. cbn [history]. do 3 right. left.
  - split; [exact Hins|]. split; [vm_compute; reflexivity | exact Hrows].
Defined.
